(** * Job Hunter: a shallow embedding of [job_hunter.py]

    The development follows the source file section by section: text
    helpers and the keyword matcher, the provider item normalisation, the
    SQLite store, the digest rendering, the notifier and the run cycle.

    Conventions of the embedding.
    - Python [str] values are Rocq [string]s, read as UTF-8 bytes.  Case
      folding, whitespace and word characters are those of the ASCII range,
      which is where the configured keywords and patterns live.
    - Python [int] is [Z]; wall-clock seconds and the two hour settings,
      floats in the source, are exact rationals ([Q]): float arithmetic is
      taken without rounding.  What is kept of the float format is its
      range: an [int] too large for a float raises [OverflowError] where the
      source mixes the two.
    - Exceptions are values of [exn]; a computation that may raise returns a
      [result]. *)

From Stdlib Require Import ZArith QArith Qround List String Ascii Bool Lia.
From Stdlib Require Import Permutation Sorted DecimalString.
Import ListNotations.

Local Open Scope string_scope.
Local Open Scope Z_scope.

(* ------------------------------------------------------------------ *)
(** ** Text helpers *)

Module Text.

Definition chr (n : nat) : ascii := ascii_of_nat n.

Definition code (c : ascii) : nat := nat_of_ascii c.

Definition between (lo hi : nat) (c : ascii) : bool :=
  (Nat.leb lo (code c) && Nat.leb (code c) hi)%bool.

Definition is_upper : ascii -> bool := between 65 90.
Definition is_lower : ascii -> bool := between 97 122.
Definition is_digit : ascii -> bool := between 48 57.

(** [str.isspace] and the pattern class [\s] on the ASCII range. *)
Definition is_space (c : ascii) : bool :=
  (between 9 13 c || between 28 32 c)%bool.

(** The pattern class [\w] on the ASCII range. *)
Definition is_word (c : ascii) : bool :=
  (is_upper c || is_lower c || is_digit c || Nat.eqb (code c) 95)%bool.

Definition lower_char (c : ascii) : ascii :=
  if is_upper c then chr (code c + 32) else c.

(** [s.lower()] *)
Fixpoint lower (s : string) : string :=
  match s with
  | EmptyString => EmptyString
  | String c s' => String (lower_char c) (lower s')
  end.

(** [needle in hay] *)
Fixpoint contains (needle hay : string) : bool :=
  (String.prefix needle hay ||
   match hay with
   | EmptyString => false
   | String _ hay' => contains needle hay'
   end)%bool.

Fixpoint lstrip (s : string) : string :=
  match s with
  | String c s' => if is_space c then lstrip s' else s
  | EmptyString => EmptyString
  end.

Fixpoint rstrip (s : string) : string :=
  match s with
  | EmptyString => EmptyString
  | String c s' =>
      match rstrip s' with
      | EmptyString => if is_space c then EmptyString else String c EmptyString
      | t => String c t
      end
  end.

(** [s.strip()] *)
Definition strip (s : string) : string := rstrip (lstrip s).

(** [sep.join(parts)] *)
Fixpoint join (sep : string) (parts : list string) : string :=
  match parts with
  | [] => ""
  | [p] => p
  | p :: ps => p ++ sep ++ join sep ps
  end.

End Text.

(* ------------------------------------------------------------------ *)
(** ** Regular expressions: the fragment of [re] the source uses *)

Module Re.

Inductive regex : Type :=
| Eps : regex
| Chr : ascii -> regex
| Cls : (ascii -> bool) -> regex
| Seq : regex -> regex -> regex
| Alt : regex -> regex -> regex
| Star : regex -> regex
| WordB : regex.

Definition Opt (r : regex) : regex := Alt r Eps.
Definition Plus (r : regex) : regex := Seq r (Star r).

Fixpoint Lit (s : string) : regex :=
  match s with
  | EmptyString => Eps
  | String c s' => Seq (Chr c) (Lit s')
  end.

Definition Space : regex := Cls Text.is_space.

Definition word_before (prev : option ascii) : bool :=
  match prev with Some c => Text.is_word c | None => false end.

Definition word_after (s : string) : bool :=
  match s with String c _ => Text.is_word c | EmptyString => false end.

(** [\b]: the characters on the two sides differ in being word characters. *)
Definition at_boundary (prev : option ascii) (s : string) : bool :=
  xorb (word_before prev) (word_after s).

(** [accepts r prev s k]: some prefix of [s] matches [r], the character
    before it being [prev], and the continuation [k] accepts what is left.
    All alternatives are explored, so the answer is the one a backtracking
    matcher gives. *)
Fixpoint accepts (r : regex) (prev : option ascii) (s : string)
         (k : option ascii -> string -> bool) {struct r} : bool :=
  match r with
  | Eps => k prev s
  | Chr c =>
      match s with
      | String d s' => if Ascii.eqb c d then k (Some d) s' else false
      | EmptyString => false
      end
  | Cls f =>
      match s with
      | String d s' => if f d then k (Some d) s' else false
      | EmptyString => false
      end
  | Seq r1 r2 => accepts r1 prev s (fun p t => accepts r2 p t k)
  | Alt r1 r2 => (accepts r1 prev s k || accepts r2 prev s k)%bool
  | Star r1 =>
      (fix iter (fuel : nat) (p : option ascii) (t : string) {struct fuel} : bool :=
         (k p t ||
          match fuel with
          | O => false
          | S fuel' =>
              accepts r1 p t
                (fun p' t' =>
                   if Nat.ltb (String.length t') (String.length t)
                   then iter fuel' p' t' else false)
          end)%bool) (String.length s) prev s
  | WordB => if at_boundary prev s then k prev s else false
  end.

Definition match_here (r : regex) (prev : option ascii) (s : string) : bool :=
  accepts r prev s (fun _ _ => true).

Fixpoint search_from (r : regex) (prev : option ascii) (s : string) : bool :=
  (match_here r prev s ||
   match s with
   | EmptyString => false
   | String c s' => search_from r (Some c) s'
   end)%bool.

(** [re.search(p, s)] as a truth value *)
Definition search (r : regex) (s : string) : bool := search_from r None s.

End Re.

(* ------------------------------------------------------------------ *)
(** ** Configuration: the module-level settings read from the environment *)

Record Config : Type := {
  SMTP_HOST : string;
  SMTP_PORT : Z;
  SMTP_USER : string;
  SMTP_PASS : string;
  SMTP_USE_TLS : bool;
  EMAIL_FROM : string;
  EMAIL_TO : string;
  DEFAULT_COUNTRY : string;
  INCLUDE_REMOTE : bool;
  RUN_EVERY_HOURS : Q;
  MAX_POST_AGE_HOURS : Q;
  ROLE_KEYWORDS : list string;
  SKILL_KEYWORDS : list string;
  EXP_KEYWORDS : list string;
  LOCATIONS : list string;
  MAX_RESULTS_PER_RUN : Z;
  PAGES_PER_QUERY : Z
}.

Definition default_role_keywords : list string :=
  ["full stack"; "frontend"; "front-end"; "backend"; "back-end";
   "software developer"; "software engineer"; "web developer"].

Definition default_skill_keywords : list string :=
  ["python"; "html"; "css"; "javascript"; "bootstrap"; "jquery"; "ajax";
   "laravel"; "php"; "vue"; "vuejs"; "angular"; "react"; "reactjs"].

Definition default_exp_keywords : list string :=
  ["fresher"; "0-6 months"; "0 to 6 months"; "0-1 year"; "0 to 1 year";
   "no experience"; "entry level"; "junior"; "trainee"].

Definition default_locations : list string :=
  ["India"; "Remote"; "Bengaluru"; "Bangalore"; "Hyderabad"; "Pune"; "Mumbai";
   "Navi Mumbai"; "Delhi"; "Noida"; "Gurgaon"; "Chennai"; "Kolkata";
   "Ahmedabad"; "Indore"; "Jaipur"; "Surat"; "Nagpur"; "Chandigarh"].

(** The values the settings take when the environment sets none of them. *)
Definition default_config : Config := {|
  SMTP_HOST := "";
  SMTP_PORT := 587;
  SMTP_USER := "";
  SMTP_PASS := "";
  SMTP_USE_TLS := true;
  EMAIL_FROM := "jobs@yourdomain.com";
  EMAIL_TO := "roshanpanda01@gmail.com";
  DEFAULT_COUNTRY := "India";
  INCLUDE_REMOTE := true;
  RUN_EVERY_HOURS := 2 # 1;
  MAX_POST_AGE_HOURS := 6 # 1;
  ROLE_KEYWORDS := default_role_keywords;
  SKILL_KEYWORDS := default_skill_keywords;
  EXP_KEYWORDS := default_exp_keywords;
  LOCATIONS := default_locations;
  MAX_RESULTS_PER_RUN := 80;
  PAGES_PER_QUERY := 2
|}.

(* ------------------------------------------------------------------ *)
(** ** Filtering helpers *)

Definition contains_any (text : string) (keywords : list string) : bool :=
  let text_low := Text.lower text in
  existsb (fun kw => Text.contains (Text.lower kw) text_low) keywords.

Module Patterns.
Import Re.

(** The source patterns, written with a blank between their tokens.
    The en dash U+2013 stands as its three UTF-8 bytes. *)
Definition en_dash : string :=
  String (Text.chr 226) (String (Text.chr 128) (String (Text.chr 147) "")).

Definition spaces : regex := Star Space.
Definition dash : regex := Alt (Chr "-") (Lit en_dash).
Definition months : regex := Seq (Lit "month") (Opt (Chr "s")).
Definition years : regex := Seq (Lit "year") (Opt (Chr "s")).

Fixpoint cat (rs : list regex) : regex :=
  match rs with
  | [] => Eps
  | [r] => r
  | r :: rs' => Seq r (cat rs')
  end.

(** [\b 0 \s* [-\u2013] \s* 6 \s* months? \b] *)
Definition p_0_dash_6_months : regex :=
  cat [WordB; Chr "0"; spaces; dash; spaces; Chr "6"; spaces; months; WordB].

(** [\b 0 \s* to \s* 6 \s* months? \b] *)
Definition p_0_to_6_months : regex :=
  cat [WordB; Chr "0"; spaces; Lit "to"; spaces; Chr "6"; spaces; months; WordB].

(** [\b 0 \s* [-\u2013] \s* 1 \s* years? \b] *)
Definition p_0_dash_1_years : regex :=
  cat [WordB; Chr "0"; spaces; dash; spaces; Chr "1"; spaces; years; WordB].

(** [\b 0 \s* to \s* 1 \s* years? \b] *)
Definition p_0_to_1_years : regex :=
  cat [WordB; Chr "0"; spaces; Lit "to"; spaces; Chr "1"; spaces; years; WordB].

(** [\b ( up \s* to \s* )? 6 \s* months? \s* (of)? \s* experience \b] *)
Definition p_6_months_experience : regex :=
  cat [WordB; Opt (cat [Lit "up"; spaces; Lit "to"; spaces]); Chr "6"; spaces;
       months; spaces; Opt (Lit "of"); spaces; Lit "experience"; WordB].

(** [\b fresher (s)? \b] *)
Definition p_fresher : regex :=
  cat [WordB; Lit "fresher"; Opt (Chr "s"); WordB].

(** [\b entry [-\s]? level \b] *)
Definition p_entry_level : regex :=
  cat [WordB; Lit "entry";
       Opt (Cls (fun c => (Ascii.eqb c "-" || Text.is_space c)%bool));
       Lit "level"; WordB].

(** [\b no \s+ experience \b] *)
Definition p_no_experience : regex :=
  cat [WordB; Lit "no"; Plus Space; Lit "experience"; WordB].

(** [\b 0 \+? \s* years? \b] *)
Definition p_0_plus_years : regex :=
  cat [WordB; Chr "0"; Opt (Chr "+"); spaces; years; WordB].

Definition patterns : list regex :=
  [p_0_dash_6_months; p_0_to_6_months; p_0_dash_1_years; p_0_to_1_years;
   p_6_months_experience; p_fresher; p_entry_level; p_no_experience;
   p_0_plus_years].

End Patterns.

Definition experience_ok (cfg : Config) (text : string) : bool :=
  if contains_any text (EXP_KEYWORDS cfg) then true
  else
    let txt := Text.lower text in
    existsb (fun p => Re.search p txt) Patterns.patterns.

Definition role_ok (cfg : Config) (text : string) : bool :=
  contains_any text (ROLE_KEYWORDS cfg).

Definition skills_ok (cfg : Config) (text : string) : bool :=
  contains_any text (SKILL_KEYWORDS cfg).

(* ------------------------------------------------------------------ *)
(** ** Python values and exceptions *)

(** The exceptions the program can meet.  [KeyboardInterrupt] and
    [SystemExit] derive from [BaseException] only; every other one is an
    [Exception].  [DateRangeError] stands for what [datetime] raises on an
    instant outside the years 1 to 9999: [ValueError], [OverflowError] or
    [OSError], depending on how far outside. *)
Inductive exn : Type :=
| AttributeError
| TypeError
| ValueError
| OverflowError
| HTTPError (msg : string)
| ConnectionError (msg : string)
| IntegrityError
| SqliteError (msg : string)
| SMTPException (msg : string)
| DateRangeError
| OSError (msg : string)
| KeyboardInterrupt
| SystemExit.

(** [isinstance(e, Exception)] *)
Definition is_Exception (e : exn) : bool :=
  match e with
  | KeyboardInterrupt | SystemExit => false
  | _ => true
  end.

(** [isinstance(e, requests.HTTPError)] *)
Definition is_HTTPError (e : exn) : bool :=
  match e with HTTPError _ => true | _ => false end.

Inductive result (A : Type) : Type :=
| Ok : A -> result A
| Raise : exn -> result A.

Arguments Ok {A} _.
Arguments Raise {A} _.

Definition rbind {A B : Type} (r : result A) (f : A -> result B) : result B :=
  match r with
  | Ok a => f a
  | Raise e => Raise e
  end.

Set Warnings "-register-all".

(** What [json.loads] builds, numbers being integers: a number with a
    fraction or an exponent is outside the embedding. *)
Inductive value : Type :=
| VNone : value
| VBool : bool -> value
| VInt : Z -> value
| VStr : string -> value
| VList : list value -> value
| VDict : list (string * value) -> value.

Module Py.

(** [bool(v)] *)
Definition truthy (v : value) : bool :=
  match v with
  | VNone => false
  | VBool b => b
  | VInt z => negb (z =? 0)
  | VStr s => negb (String.eqb s "")
  | VList l => match l with [] => false | _ => true end
  | VDict d => match d with [] => false | _ => true end
  end.

(** [a or b] *)
Definition or_ (a b : value) : value := if truthy a then a else b.

(** [d.get(k)] on the entries of a dict *)
Fixpoint get (d : list (string * value)) (k : string) : value :=
  match d with
  | [] => VNone
  | (k', v) :: d' => if String.eqb k k' then v else get d' k
  end.

(** [str(z)] *)
Definition str_int (z : Z) : string := NilZero.string_of_int (Z.to_int z).

Definition quote : ascii := Text.chr 39.
Definition dquote : ascii := Text.chr 34.
Definition backslash : ascii := Text.chr 92.

Definition has_char (c : ascii) (s : string) : bool :=
  Text.contains (String c "") s.

Definition hex_digit (n : nat) : ascii :=
  if Nat.ltb n 10 then Text.chr (48 + n) else Text.chr (87 + n).

Definition escape_char (q c : ascii) : string :=
  let n := Text.code c in
  if (Ascii.eqb c backslash || Ascii.eqb c q)%bool then String backslash (String c "")
  else if Nat.eqb n 10 then String backslash "n"
  else if Nat.eqb n 13 then String backslash "r"
  else if Nat.eqb n 9 then String backslash "t"
  else if (Nat.ltb n 32 || Nat.eqb n 127)%bool
       then String backslash
              (String "x" (String (hex_digit (Nat.div n 16))
                                  (String (hex_digit (Nat.modulo n 16)) "")))
  else String c "".

Fixpoint escape (q : ascii) (s : string) : string :=
  match s with
  | EmptyString => ""
  | String c s' => escape_char q c ++ escape q s'
  end.

(** [repr(s)] for a string *)
Definition repr_str (s : string) : string :=
  let q := if (has_char quote s && negb (has_char dquote s))%bool
           then dquote else quote in
  String q (escape q s ++ String q "").

(** [repr(v)] *)
Fixpoint repr (v : value) : string :=
  match v with
  | VNone => "None"
  | VBool true => "True"
  | VBool false => "False"
  | VInt z => str_int z
  | VStr s => repr_str s
  | VList l => "[" ++ Text.join ", " (List.map repr l) ++ "]"
  | VDict d =>
      "{" ++ Text.join ", "
               ((fix entries (d : list (string * value)) : list string :=
                   match d with
                   | [] => []
                   | (k, x) :: d' => (repr_str k ++ ": " ++ repr x) :: entries d'
                   end) d) ++ "}"
  end.

(** [str(v)] *)
Definition str (v : value) : string :=
  match v with
  | VStr s => s
  | _ => repr v
  end.

(** Whitespace that [int] skips around the digits of an ASCII string. *)
Definition int_space (c : ascii) : bool :=
  (Text.between 9 13 c || Nat.eqb (Text.code c) 32)%bool.

Fixpoint int_lstrip (s : string) : string :=
  match s with
  | String c s' => if int_space c then int_lstrip s' else s
  | EmptyString => EmptyString
  end.

Fixpoint int_rstrip (s : string) : string :=
  match s with
  | EmptyString => EmptyString
  | String c s' =>
      match int_rstrip s' with
      | EmptyString => if int_space c then EmptyString else String c EmptyString
      | t => String c t
      end
  end.

(** Decimal digits, single underscores allowed between two digits. *)
Fixpoint digits (s : string) (acc : Z) (after_digit : bool) : option Z :=
  match s with
  | EmptyString => if after_digit then Some acc else None
  | String c s' =>
      if Text.is_digit c
      then digits s' (10 * acc + Z.of_nat (Text.code c - 48)) true
      else if (Ascii.eqb c "_" && after_digit)%bool then digits s' acc false
      else None
  end.

(** The number of decimal digits in [s]. *)
Fixpoint count_digits (s : string) : nat :=
  match s with
  | EmptyString => O
  | String c s' => if Text.is_digit c then S (count_digits s') else count_digits s'
  end.

(** [sys.get_int_max_str_digits()], at its default. *)
Definition int_max_str_digits : nat := 4300.

(** [int(s)] for a string; [None] stands for [ValueError], which is also
    what a numeral of more than [int_max_str_digits] digits gets. *)
Definition int_of_str (s : string) : option Z :=
  if Nat.ltb int_max_str_digits (count_digits s) then None
  else
    match int_rstrip (int_lstrip s) with
    | String "-" t => option_map Z.opp (digits t 0 false)
    | String "+" t => digits t 0 false
    | t => digits t 0 false
    end.

(** [int(v)] *)
Definition int (v : value) : result Z :=
  match v with
  | VInt z => Ok z
  | VBool b => Ok (if b then 1 else 0)
  | VStr s => match int_of_str s with Some z => Ok z | None => Raise ValueError end
  | VNone | VList _ | VDict _ => Raise TypeError
  end.

(** [v.strip()]: only strings have the method. *)
Definition strip (v : value) : result string :=
  match v with
  | VStr s => Ok (Text.strip s)
  | _ => Raise AttributeError
  end.

(** The least magnitude of an [int] that no float can hold: half-way
    between the largest float, 2^1024 - 2^971, and 2^1024, where rounding to
    53 bits goes up. *)
Definition float_limit : Z := 2 ^ 1024 - 2 ^ 970.

(** An [int] operand of float arithmetic: [float - int] converts the [int]
    first and raises when it is out of range. *)
Definition float_of_int (z : Z) : result Q :=
  if Z.abs z <? float_limit then Ok (inject_Z z) else Raise OverflowError.

(** [for x in v]: the elements the loop visits. *)
Definition iter (v : value) : result (list value) :=
  match v with
  | VList l => Ok l
  | VDict d => Ok (List.map (fun kv => VStr (fst kv)) d)
  | VStr s => Ok (List.map (fun c => VStr (String c "")) (list_ascii_of_string s))
  | VNone | VBool _ | VInt _ => Raise TypeError
  end.

End Py.

(* ------------------------------------------------------------------ *)
(** ** RapidAPI JSearch provider: normalisation *)

Module Job.
(** The dict [parse_jsearch_item] returns. *)
Record t : Type := {
  source : string;
  external_id : option string;
  title : string;
  company : string;
  location : string;
  description : string;
  url : value;
  posted_at_utc : Z
}.
End Job.

Definition parse_jsearch_item (item : value) : result Job.t :=
  match item with
  | VDict d =>
      let get := Py.get d in
      let job_id := Py.or_ (get "job_id") (Py.or_ (get "job_posting_id") (get "id")) in
      rbind (Py.strip (Py.or_ (get "job_title") (Py.or_ (get "title") (VStr ""))))
        (fun title =>
      rbind (Py.strip (Py.or_ (get "employer_name")
                              (Py.or_ (get "company_name") (VStr ""))))
        (fun company =>
      rbind (Py.strip
               (Py.or_ (get "job_city")
                 (Py.or_ (get "job_location")
                   (Py.or_ (get "job_country")
                     (Py.or_ (get "job_state")
                       (if Py.truthy (get "job_is_remote")
                        then VStr "Remote" else VStr ""))))))
        (fun location =>
      rbind (Py.strip (Py.or_ (get "job_description")
                              (Py.or_ (get "description") (VStr ""))))
        (fun desc =>
      let url := Py.or_ (get "job_apply_link")
                        (Py.or_ (get "job_google_link") (VStr "")) in
      let ts :=
        if Py.truthy (get "job_posted_at_timestamp")
        then match Py.int (get "job_posted_at_timestamp") with
             | Ok z => z
             | Raise _ => 0 (* [except Exception]: [int] raises nothing else *)
             end
        else 0 in
      Ok {| Job.source := "jsearch";
            Job.external_id :=
              if Py.truthy job_id then Some (Py.str job_id) else None;
            Job.title := title;
            Job.company := company;
            Job.location := location;
            Job.description := desc;
            Job.url := url;
            Job.posted_at_utc := ts |}))))
  | _ => Raise AttributeError
  end.

(* ------------------------------------------------------------------ *)
(** ** DB: sqlite *)

Module Row.
(** A row of table [jobs]; a nullable column holds [None] for NULL. *)
Record t : Type := {
  id : Z;
  source : string;
  external_id : option string;
  title : option string;
  company : option string;
  location : option string;
  url : option string;
  posted_at_utc : option Z;
  description : option string;
  created_at_utc : option Z
}.
End Row.

Module Sql.

(** The range of an SQLite INTEGER. *)
Definition int64 (z : Z) : bool :=
  ((- 2 ^ 63 <=? z) && (z <? 2 ^ 63))%bool.

(** Binding a Python [int] to a statement parameter. *)
Definition bind_int (z : Z) : result Z :=
  if int64 z then Ok z else Raise OverflowError.

(** Binding a Python value to a parameter that lands in a TEXT column:
    the column affinity turns a bound integer into its decimal text.
    Lists and dicts are refused by the driver. *)
Definition bind_text (v : value) : result (option string) :=
  match v with
  | VNone => Ok None
  | VStr s => Ok (Some s)
  | VInt z => rbind (bind_int z) (fun z' => Ok (Some (Py.str_int z')))
  | VBool b => Ok (Some (if b then "1" else "0"))
  | VList _ | VDict _ => Raise (SqliteError "type is not supported")
  end.

(** Equality of two column values inside a unique index: NULL is distinct
    from everything, NULL included. *)
Definition same (a b : option string) : bool :=
  match a, b with
  | Some x, Some y => String.eqb x y
  | _, _ => false
  end.

(** [x >= y] in a WHERE clause: unknown, hence not selected, on NULL. *)
Definition ge (x : option Z) (y : Z) : bool :=
  match x with
  | Some a => y <=? a
  | None => false
  end.

(** The order of ORDER BY on an INTEGER column: NULL sorts below every
    number. *)
Definition le (x y : option Z) : bool :=
  match x, y with
  | None, _ => true
  | Some _, None => false
  | Some a, Some b => a <=? b
  end.

End Sql.

(** Index [uq_jobs_source_external] on [(source, external_id)]. *)
Definition uq_jobs_source_external (a b : Row.t) : bool :=
  (String.eqb (Row.source a) (Row.source b) &&
   Sql.same (Row.external_id a) (Row.external_id b))%bool.

(** Index [uq_jobs_fallback] on [(title, company, location, url)]. *)
Definition uq_jobs_fallback (a b : Row.t) : bool :=
  (Sql.same (Row.title a) (Row.title b) &&
   Sql.same (Row.company a) (Row.company b) &&
   Sql.same (Row.location a) (Row.location b) &&
   Sql.same (Row.url a) (Row.url b))%bool.

(** Two rows that cannot both be in the table. *)
Definition conflict (a b : Row.t) : bool :=
  (uq_jobs_source_external a b || uq_jobs_fallback a b)%bool.

(** The table, in rowid order. *)
Definition Store : Type := list Row.t.

(** What creating the two unique indexes checks on the rows present. *)
Fixpoint indexes_hold (s : Store) : bool :=
  match s with
  | [] => true
  | r :: s' => (negb (existsb (conflict r) s') && indexes_hold s')%bool
  end.

(** The rowid of a new row: one more than the largest rowid of the table.
    AUTOINCREMENT never hands out a rowid twice and may pass over some (a
    suppressed INSERT OR IGNORE uses one up); the rowids SQLite chooses are
    at least the ones chosen here. *)
Definition next_id (s : Store) : Z :=
  1 + fold_right (fun r m => Z.max (Row.id r) m) 0 s.

(** [INSERT OR IGNORE]: the row count of the statement and the table after
    it.  The candidate's [id] is assigned here. *)
Definition insert_or_ignore (s : Store) (r : Row.t) : Z * Store :=
  if existsb (conflict r) s then (0, s)
  else (1, (s ++ [{| Row.id := next_id s;
                    Row.source := Row.source r;
                    Row.external_id := Row.external_id r;
                    Row.title := Row.title r;
                    Row.company := Row.company r;
                    Row.location := Row.location r;
                    Row.url := Row.url r;
                    Row.posted_at_utc := Row.posted_at_utc r;
                    Row.description := Row.description r;
                    Row.created_at_utc := Row.created_at_utc r |}])%list).

(* ------------------------------------------------------------------ *)
(** ** The world the program runs in *)

Inductive level : Type := INFO | WARNING | ERROR.

(** One call of [logging]: the message with its arguments filled in, and the
    exception it reports, if any.  [traceback.print_exc] is logged at level
    ERROR with message [Traceback]. *)
Record log_entry : Type := {
  log_level : level;
  log_message : string;
  log_cause : option exn
}.

Record Email : Type := {
  mail_subject : string;
  mail_from : string;
  mail_to : string;
  mail_html : string
}.

(** The collaborators outside the source file. *)
Record Env : Type := {
  (** the [n]-th reading of [datetime.now(timezone.utc).timestamp()] *)
  clock : nat -> Q;
  (** [sqlite3.connect]: the exception it raises, if it fails *)
  connect : option exn;
  (** [requests.get(...)], [raise_for_status] and [resp.json()] for a
      query string and a page *)
  http_get : string -> Z -> result value;
  (** the contents of the template file, if it can be read *)
  template_file : option string;
  (** the SMTP session: the exception it raises, if delivery fails *)
  smtp : Email -> option exn;
  (** [scheduler.start()]: the exception it raises, if it fails *)
  scheduler_start : option exn
}.

Record State : Type := {
  db : Store;                  (* the file at DB_PATH *)
  log : list log_entry;        (* what has been logged *)
  outbox : list Email;         (* messages accepted by the mail server *)
  ticks : nat;                 (* clock readings so far *)
  slept : Q;                   (* seconds spent in time.sleep *)
  collected : list Job.t       (* the list of the running cycle *)
}.

Definition M (A : Type) : Type := State -> result A * State.

Definition ret {A : Type} (a : A) : M A := fun st => (Ok a, st).

Definition raise {A : Type} (e : exn) : M A := fun st => (Raise e, st).

Definition bind {A B : Type} (m : M A) (f : A -> M B) : M B :=
  fun st =>
    match m st with
    | (Ok a, st') => f a st'
    | (Raise e, st') => (Raise e, st')
    end.

Definition lift {A : Type} (r : result A) : M A := fun st => (r, st).

(** [try: body  except <catches>: handler] *)
Definition try_except {A : Type} (body : M A) (catches : exn -> bool)
           (handler : exn -> M A) : M A :=
  fun st =>
    match body st with
    | (Ok a, st') => (Ok a, st')
    | (Raise e, st') => if catches e then handler e st' else (Raise e, st')
    end.

Declare Scope monad_scope.
Delimit Scope monad_scope with monad.
Notation "x <- m ;; k" := (bind m (fun x => k))
  (at level 61, m at next level, right associativity) : monad_scope.
Notation "m ;; k" := (bind m (fun _ => k))
  (at level 61, right associativity) : monad_scope.
Local Open Scope monad_scope.

Fixpoint for_each {A : Type} (xs : list A) (body : A -> M unit) : M unit :=
  match xs with
  | [] => ret tt
  | x :: xs' => body x ;; for_each xs' body
  end.

Definition set_db (s : Store) : M unit :=
  fun st => (Ok tt, {| db := s; log := log st; outbox := outbox st;
                       ticks := ticks st; slept := slept st;
                       collected := collected st |}).

Definition logging (lv : level) (msg : string) (cause : option exn) : M unit :=
  fun st => (Ok tt, {| db := db st;
                       log := (log st ++ [{| log_level := lv; log_message := msg;
                                             log_cause := cause |}])%list;
                       outbox := outbox st; ticks := ticks st;
                       slept := slept st; collected := collected st |}).

(** [datetime.now(timezone.utc).timestamp()] *)
Definition now (env : Env) : M Q :=
  fun st => (Ok (clock env (ticks st)),
             {| db := db st; log := log st; outbox := outbox st;
                ticks := S (ticks st); slept := slept st;
                collected := collected st |}).

(** [time.sleep(secs)] *)
Definition sleep (secs : Q) : M unit :=
  fun st => (Ok tt, {| db := db st; log := log st; outbox := outbox st;
                       ticks := ticks st; slept := (slept st + secs)%Q;
                       collected := collected st |}).

Definition deliver (m : Email) : M unit :=
  fun st => (Ok tt, {| db := db st; log := log st; outbox := (outbox st ++ [m])%list;
                       ticks := ticks st; slept := slept st;
                       collected := collected st |}).

Definition set_collected (l : list Job.t) : M unit :=
  fun st => (Ok tt, {| db := db st; log := log st; outbox := outbox st;
                       ticks := ticks st; slept := slept st;
                       collected := l |}).

Definition get_state : M State := fun st => (Ok st, st).

(** [int(x)] on a float: truncation towards zero. *)
Definition trunc (q : Q) : Z := Z.quot (Qnum q) (Zpos (Qden q)).

(** [init_db]: opens the file, creates table and indexes when they are not
    there.  Creating a unique index fails on rows that already break it; a
    table that has its indexes cannot hold such rows. *)
Definition init_db (env : Env) : M unit :=
  match connect env with
  | Some e => raise e
  | None =>
      st <- get_state ;;
      if indexes_hold (db st) then ret tt else raise IntegrityError
  end.

(* ------------------------------------------------------------------ *)
(** ** Recency *)

(** The comparison [posted_recent] makes once it has read the clock and
    has the timestamp as a float. *)
Definition age_within (now_utc posted : Q) (max_age_hours : Q) : bool :=
  let age_hours := ((now_utc - posted) / 3600)%Q in
  Qle_bool age_hours max_age_hours.

Definition posted_recent (env : Env) (posted_ts : Z) (max_age_hours : Q) : M bool :=
  if posted_ts =? 0 then ret false
  else
    now_utc <- now env ;;
    posted <- lift (Py.float_of_int posted_ts) ;;
    ret (age_within now_utc posted max_age_hours).

(* ------------------------------------------------------------------ *)
(** ** Persistence helpers *)

(** The row an INSERT statement proposes for a job. *)
Definition row_of_job (j : Job.t) (u : option string) (posted created : Z) : Row.t :=
  {| Row.id := 0;
     Row.source := Job.source j;
     Row.external_id := Job.external_id j;
     Row.title := Some (Job.title j);
     Row.company := Some (Job.company j);
     Row.location := Some (Job.location j);
     Row.url := u;
     Row.posted_at_utc := Some posted;
     Row.description := Some (Job.description j);
     Row.created_at_utc := Some created |}.

(** The body of the [try] in [save_jobs]: the statement's row count.  A
    datetime's timestamp always fits an INTEGER, so only the job's own
    values can fail to bind. *)
Definition insert_job (env : Env) (j : Job.t) : M Z :=
  created <- now env ;;
  u <- lift (Sql.bind_text (Job.url j)) ;;
  posted <- lift (Sql.bind_int (Job.posted_at_utc j)) ;;
  st <- get_state ;;
  let (rowcount, s') :=
    insert_or_ignore (db st) (row_of_job j u posted (trunc created)) in
  set_db s' ;;
  ret rowcount.

Fixpoint save_loop (env : Env) (jobs : list Job.t) (inserted : Z) : M Z :=
  match jobs with
  | [] => ret inserted
  | j :: jobs' =>
      inserted' <-
        try_except
          (rowcount <- insert_job env j ;;
           ret (if 0 <? rowcount then inserted + 1 else inserted))
          is_Exception
          (fun e =>
             match e with
             | IntegrityError => ret inserted
             | _ => logging ERROR "DB insert error: %s" (Some e) ;; ret inserted
             end) ;;
      save_loop env jobs' inserted'
  end.

Definition save_jobs (env : Env) (jobs : list Job.t) : M Z :=
  save_loop env jobs 0.

(** A row as [fetchall] hands it over:
    [(title, company, location, url, posted_at_utc)]. *)
Definition digest_row : Type :=
  (option string * option string * option string * option string * option Z)%type.

Definition project (r : Row.t) : digest_row :=
  (Row.title r, Row.company r, Row.location r, Row.url r, Row.posted_at_utc r).

(** ORDER BY posted_at_utc DESC; rows that compare equal stay in rowid
    order. *)
Fixpoint insert_desc (r : Row.t) (l : list Row.t) : list Row.t :=
  match l with
  | [] => [r]
  | x :: l' =>
      if Sql.le (Row.posted_at_utc x) (Row.posted_at_utc r)
      then r :: x :: l'
      else x :: insert_desc r l'
  end.

Definition order_by_posted_desc (l : list Row.t) : list Row.t :=
  fold_right insert_desc [] l.

(** LIMIT: a negative bound is no bound. *)
Definition limit_rows {A : Type} (n : Z) (l : list A) : list A :=
  if n <? 0 then l else firstn (Z.to_nat n) l.

Definition created_since (since_ts : Z) (r : Row.t) : bool :=
  Sql.ge (Row.created_at_utc r) since_ts.

(** The SELECT of [fetch_unsent_jobs_since] on a table. *)
Definition select_since (s : Store) (since_ts limit : Z) : list digest_row :=
  List.map project
    (limit_rows limit (order_by_posted_desc (filter (created_since since_ts) s))).

Definition fetch_unsent_jobs_since (cfg : Config) (since_ts : Z) : M (list digest_row) :=
  since <- lift (Sql.bind_int since_ts) ;;
  limit <- lift (Sql.bind_int (MAX_RESULTS_PER_RUN cfg)) ;;
  st <- get_state ;;
  ret (select_since (db st) since limit).

(* ------------------------------------------------------------------ *)
(** ** Calendar arithmetic behind [datetime] *)

Module Datetime.

(** First and one-past-last second of the years 1 to 9999. *)
Definition min_ts : Z := -62135596800.
Definition end_ts : Z := 253402300800.

(** Year of the 400-year era, month and day of the [doe]-th day of an era;
    eras start on a 1 March. *)
Definition ymd_of_doe (doe : Z) : Z * Z * Z :=
  let yoe := (doe - doe / 1460 + doe / 36524 - doe / 146096) / 365 in
  let doy := doe - (365 * yoe + yoe / 4 - yoe / 100) in
  let mp := (5 * doy + 2) / 153 in
  let d := doy - (153 * mp + 2) / 5 + 1 in
  let m := if mp <? 10 then mp + 3 else mp - 9 in
  (yoe, m, d).

(** January and February belong to the era year that began the March
    before. *)
Definition year_shift (m : Z) : Z := if m <=? 2 then 1 else 0.

(** The proleptic Gregorian date of a day count from 1970-01-01. *)
Definition civil_from_days (days : Z) : Z * Z * Z :=
  let z := days + 719468 in
  let era := z / 146097 in
  let '(yoe, m, d) := ymd_of_doe (z mod 146097) in
  (yoe + era * 400 + year_shift m, m, d).





Definition month_abbr : list string :=
  ["Jan"; "Feb"; "Mar"; "Apr"; "May"; "Jun";
   "Jul"; "Aug"; "Sep"; "Oct"; "Nov"; "Dec"].

(** [%b] *)
Definition month_name (m : Z) : string :=
  nth (Z.to_nat (m - 1)) month_abbr "".

(** [%d], [%I], [%M]: two digits. *)
Definition two_digits (n : Z) : string :=
  if n <? 10 then "0" ++ Py.str_int n else Py.str_int n.

(** [%I] *)
Definition hour12 (h : Z) : Z :=
  if h mod 12 =? 0 then 12 else h mod 12.

(** [%p] *)
Definition am_pm (h : Z) : string := if h <? 12 then "AM" else "PM".

(** [strftime("%d %b %Y, %I:%M %p IST")] of the wall-clock time [local],
    given in seconds from 1970-01-01 00:00 of its own zone. *)
Definition strftime_ist (local : Z) : string :=
  let '(y, m, d) := civil_from_days (local / 86400) in
  let secs := local mod 86400 in
  let h := secs / 3600 in
  let mi := (secs mod 3600) / 60 in
  two_digits d ++ " " ++ month_name m ++ " " ++ Py.str_int y ++ ", " ++
  two_digits (hour12 h) ++ ":" ++ two_digits mi ++ " " ++ am_pm h ++ " IST".

(** [timedelta(hours=5, minutes=30)] in seconds *)
Definition ist_offset : Z := 5 * 3600 + 30 * 60.

End Datetime.

(* ------------------------------------------------------------------ *)
(** ** Email *)

(** The nested [fmt_time] of [render_email_html]. *)
Definition fmt_time (ts : option Z) : result string :=
  match ts with
  | None => Ok ""
  | Some t =>
      if t =? 0 then Ok ""
      else if ((t <? Datetime.min_ts) || (Datetime.end_ts <=? t))%bool
      then Raise DateRangeError
      else
        let local := t + Datetime.ist_offset in
        if Datetime.end_ts <=? local then Raise DateRangeError
        else Ok (Datetime.strftime_ist local)
  end.

(** How an f-string shows a column value. *)
Definition show (v : option string) : string :=
  match v with
  | Some s => s
  | None => "None"
  end.

Definition render_row (r : digest_row) : result string :=
  let '(title, company, location, url, ts) := r in
  rbind (fmt_time ts) (fun posted =>
  Ok ("<tr><td>" ++ show title ++ "</td><td>" ++ show company ++ "</td><td>" ++
      show location ++ "</td><td><a href='" ++ show url ++
      "' target='_blank' rel='noopener'>Apply</a></td><td>" ++ posted ++
      "</td></tr>")).

Fixpoint render_rows (rows : list digest_row) : result (list string) :=
  match rows with
  | [] => Ok []
  | r :: rows' =>
      rbind (render_row r) (fun h =>
      rbind (render_rows rows') (fun hs => Ok (h :: hs)))
  end.

Definition fallback_template : string :=
  "<html><body><h3>New jobs</h3><table border=" ++ String Py.dquote "1" ++
  String Py.dquote " cellpadding=" ++ String Py.dquote "6" ++
  String Py.dquote "><thead><tr><th>Title</th><th>Company</th><th>Location</th><th>Apply</th><th>Posted</th></tr></thead><tbody>{{ROWS}}</tbody></table></body></html>".

(** [s.replace(old, new)] for a non-empty [old]; [skip] counts the
    characters of a match still to be passed over. *)
Fixpoint replace_from (old new s : string) (skip : nat) : string :=
  match s with
  | EmptyString => ""
  | String c s' =>
      match skip with
      | S k => replace_from old new s' k
      | O =>
          if String.prefix old s
          then new ++ replace_from old new s' (String.length old - 1)
          else String c (replace_from old new s' 0)
      end
  end.

Definition replace (old new s : string) : string := replace_from old new s 0.

Definition render_email_html (env : Env) (rows : list digest_row) : result string :=
  let tpl := match template_file env with
             | Some contents => contents
             | None => fallback_template
             end in
  rbind (render_rows rows) (fun rows_html =>
  Ok (replace "{{ROWS}}" (Text.join (String (Text.chr 10) "") rows_html) tpl)).

Definition send_email (cfg : Config) (env : Env) (subject html : string) : M unit :=
  if String.eqb (SMTP_HOST cfg) ""
  then logging ERROR "SMTP_HOST not configured, skipping email." None
  else
    let msg := {| mail_subject := subject; mail_from := EMAIL_FROM cfg;
                  mail_to := EMAIL_TO cfg; mail_html := html |} in
    match smtp env msg with
    | Some e => raise e
    | None => deliver msg
    end.

(* ------------------------------------------------------------------ *)
(** ** Main search & notify *)

(** A hashable Python value as a dict key compares it: [True] and [1] are
    the same key. *)
Inductive hashable : Type :=
| HNone : hashable
| HInt : Z -> hashable
| HStr : string -> hashable.

(** [hash(v)]: lists and dicts have none. *)
Definition hash_value (v : value) : result hashable :=
  match v with
  | VNone => Ok HNone
  | VBool b => Ok (HInt (if b then 1 else 0))
  | VInt z => Ok (HInt z)
  | VStr s => Ok (HStr s)
  | VList _ | VDict _ => Raise TypeError
  end.

(** A key of the dict [unique]: an identifier string or a 4-tuple. *)
Inductive key : Type :=
| KeyId : string -> key
| KeyTuple : string -> string -> string -> hashable -> key.

Definition hashable_eqb (a b : hashable) : bool :=
  match a, b with
  | HNone, HNone => true
  | HInt x, HInt y => x =? y
  | HStr x, HStr y => String.eqb x y
  | _, _ => false
  end.

Definition key_eqb (a b : key) : bool :=
  match a, b with
  | KeyId x, KeyId y => String.eqb x y
  | KeyTuple t c l u, KeyTuple t' c' l' u' =>
      (String.eqb t t' && String.eqb c c' && String.eqb l l' && hashable_eqb u u')%bool
  | _, _ => false
  end.

(** [j.get("external_id") or (title, company, location, url)], hashed. *)
Definition dedup_key (j : Job.t) : result key :=
  let tuple :=
    rbind (hash_value (Job.url j)) (fun u =>
    Ok (KeyTuple (Job.title j) (Job.company j) (Job.location j) u)) in
  match Job.external_id j with
  | Some e => if String.eqb e "" then tuple else Ok (KeyId e)
  | None => tuple
  end.

(** [d[k] = j] on a dict kept in insertion order: a key already there
    keeps its place and takes the new value. *)
Fixpoint dict_set (d : list (key * Job.t)) (k : key) (j : Job.t) : list (key * Job.t) :=
  match d with
  | [] => [(k, j)]
  | (k', j') :: d' =>
      if key_eqb k k' then (k', j) :: d' else (k', j') :: dict_set d' k j
  end.

Fixpoint dedup_loop (collected : list Job.t) (unique : list (key * Job.t))
  : result (list (key * Job.t)) :=
  match collected with
  | [] => Ok unique
  | j :: rest =>
      rbind (dedup_key j) (fun k => dedup_loop rest (dict_set unique k j))
  end.

(** The in-memory de-duplication: [list(unique.values())]. *)
Definition dedup (collected : list Job.t) : result (list Job.t) :=
  rbind (dedup_loop collected []) (fun unique => Ok (List.map snd unique)).

Definition text_blob (job : Job.t) : string :=
  Text.join " " [Job.title job; Job.description job; Job.company job;
                 Job.location job].

Definition append_collected (job : Job.t) : M unit :=
  st <- get_state ;;
  set_collected (collected st ++ [job])%list.

(** The body of [for item in items]. *)
Definition process_item (cfg : Config) (env : Env) (item : value) : M unit :=
  job <- lift (parse_jsearch_item item) ;;
  if negb (role_ok cfg (text_blob job)) then ret tt
  else if negb (skills_ok cfg (text_blob job)) then ret tt
  else if negb (experience_ok cfg (text_blob job)) then ret tt
  else
    recent <- posted_recent env (Job.posted_at_utc job) (MAX_POST_AGE_HOURS cfg) ;;
    if negb recent then ret tt
    else append_collected job.

(** [data.get(k)]: only a dict has the method. *)
Definition data_get (data : value) (k : string) : result value :=
  match data with
  | VDict d => Ok (Py.get d k)
  | _ => Raise AttributeError
  end.

Definition jsearch_query (env : Env) (role_kw location : string) (page : Z) : M value :=
  lift (http_get env (role_kw ++ " in " ++ location) page).

(** One [(role, loc, page)] step with its two [except] clauses. *)
Definition query_page (cfg : Config) (env : Env) (role loc : string) (page : Z) : M unit :=
  try_except
    (data <- jsearch_query env role loc page ;;
     d <- lift (data_get data "data") ;;
     items <- (if Py.truthy d then ret d
               else
                 j <- lift (data_get data "jobs") ;;
                 ret (Py.or_ j (VList []))) ;;
     elems <- lift (Py.iter items) ;;
     for_each elems (process_item cfg env))
    is_Exception
    (fun e =>
       if is_HTTPError e
       then logging WARNING
              ("HTTP error for " ++ role ++ "/" ++ loc ++ " page " ++
               Py.str_int page ++ ": %s") (Some e)
       else logging WARNING
              ("Error for " ++ role ++ "/" ++ loc ++ " page " ++
               Py.str_int page ++ ": %s") (Some e)).

(** [range(lo, lo + n)] *)
Fixpoint range_from (lo : Z) (n : nat) : list Z :=
  match n with
  | O => []
  | S n' => lo :: range_from (lo + 1) n'
  end.

Definition pages (cfg : Config) : list Z :=
  range_from 1 (Z.to_nat (PAGES_PER_QUERY cfg)).

Definition locations (cfg : Config) : list string :=
  if (INCLUDE_REMOTE cfg && negb (existsb (String.eqb "Remote") (LOCATIONS cfg)))%bool
  then (LOCATIONS cfg ++ ["Remote"])%list
  else LOCATIONS cfg.

(** The three nested loops over roles, locations and pages. *)
Definition collect (cfg : Config) (env : Env) : M unit :=
  set_collected [] ;;
  for_each (ROLE_KEYWORDS cfg) (fun role =>
    for_each (locations cfg) (fun loc =>
      for_each (pages cfg) (query_page cfg env role loc) ;;
      sleep (6 # 10))).

(** De-duplication and [save_jobs]. *)
Definition persist (env : Env) : M unit :=
  st <- get_state ;;
  unique_jobs <- lift (dedup (collected st)) ;;
  inserted_count <- save_jobs env unique_jobs ;;
  logging INFO ("Inserted " ++ Py.str_int inserted_count ++ " new jobs into DB.") None.

(** [int((datetime.now(timezone.utc) - timedelta(hours=h)).timestamp())];
    the difference has to be a date of the years 1 to 9999. *)
Definition window_start (now_utc hours : Q) : result Z :=
  let t := (now_utc - hours * 3600)%Q in
  if (Qle_bool (inject_Z Datetime.min_ts) t &&
      negb (Qle_bool (inject_Z Datetime.end_ts) t))%bool
  then Ok (trunc t) else Raise DateRangeError.

Definition subject_line (cfg : Config) (n : nat) : string :=
  Py.str_int (Z.of_nat n) ++ " Fresher/0-6mo " ++ DEFAULT_COUNTRY cfg ++
  " Tech Jobs (last " ++ Py.str_int (trunc (RUN_EVERY_HOURS cfg)) ++ "h)".

(** Window query, rendering and sending. *)
Definition digest (cfg : Config) (env : Env) : M unit :=
  now_utc <- now env ;;
  since_ts <- lift (window_start now_utc (RUN_EVERY_HOURS cfg)) ;;
  rows <- fetch_unsent_jobs_since cfg since_ts ;;
  match rows with
  | _ :: _ =>
      html <- lift (render_email_html env rows) ;;
      send_email cfg env (subject_line cfg (List.length rows)) html ;;
      logging INFO ("Emailed " ++ Py.str_int (Z.of_nat (List.length rows)) ++
                    " jobs to " ++ EMAIL_TO cfg) None
  | [] => logging INFO "No matching jobs found this cycle." None
  end.

(** The [try] block of [search_and_notify]. *)
Definition run_body (cfg : Config) (env : Env) : M unit :=
  init_db env ;;
  collect cfg env ;;
  persist env ;;
  digest cfg env.

Definition search_and_notify (cfg : Config) (env : Env) : M unit :=
  try_except (run_body cfg env) is_Exception
    (fun e =>
       logging ERROR "Fatal error in search_and_notify: %s" (Some e) ;;
       logging ERROR "Traceback" (Some e)).

(** [main] up to its idle loop: the first run, then the scheduler.  The
    start-up message is shortened to its first words. *)
Definition main_startup (cfg : Config) (env : Env) : M unit :=
  logging INFO "Job Hunter starting" None ;;
  search_and_notify cfg env ;;
  match scheduler_start env with
  | Some e => raise e
  | None => ret tt
  end.

Local Close Scope monad_scope.

(* ================================================================== *)
(** * Vocabulary of the properties, and sample data *)

(** A fixed environment and starting state for the worked examples. *)
Definition sample_now : Z := 1700000000.

Definition sample_env : Env := {|
  clock := fun _ => inject_Z sample_now;
  connect := None;
  http_get := fun _ _ => Ok (VDict []);
  template_file := None;
  smtp := fun _ => None;
  scheduler_start := None
|}.

Definition empty_state : State := {|
  db := []; log := []; outbox := []; ticks := O; slept := 0; collected := []
|}.


(** The fields [parse_jsearch_item] calls [strip] on. *)
Definition text_keys : list string :=
  ["job_title"; "title"; "employer_name"; "company_name"; "job_city";
   "job_location"; "job_country"; "job_state"; "job_description"; "description"].

Definition is_text (v : value) : bool :=
  match v with
  | VNone | VStr _ => true
  | _ => false
  end.

(** The recognised shape of an item: each text field is a string, null or
    absent.  Identifier, link, remote flag and timestamp may be anything. *)
Definition recognized (d : list (string * value)) : bool :=
  forallb (fun k => is_text (Py.get d k)) text_keys.

Definition bare_item : list (string * value) :=
  [("job_title", VStr " Junior Web Developer ");
   ("job_posted_at_timestamp", VStr "yesterday")].

Definition sample_item : value :=
  VDict [("job_id", VStr "abc123");
         ("job_title", VStr "Junior Frontend Developer");
         ("employer_name", VStr "Acme");
         ("job_city", VStr "Pune");
         ("job_description", VStr "React and JavaScript, freshers welcome");
         ("job_apply_link", VStr "https://example.com/apply/abc123");
         ("job_posted_at_timestamp", VInt (sample_now - 3600))].

Definition sample_job : Job.t := {|
  Job.source := "jsearch";
  Job.external_id := Some "abc123";
  Job.title := "Junior Frontend Developer";
  Job.company := "Acme";
  Job.location := "Pune";
  Job.description := "React and JavaScript, freshers welcome";
  Job.url := VStr "https://example.com/apply/abc123";
  Job.posted_at_utc := sample_now - 3600
|}.

(** A link as a component of a key.  Keys are compared with [==], under
    which [True] is 1 and [False] is 0. *)
Definition key_value (v : value) : value :=
  match v with
  | VBool b => VInt (if b then 1 else 0)
  | _ => v
  end.

(** The key as the data model words it: the external identifier when
    present, else the 4-tuple. *)
Definition record_key (j : Job.t) : string + (string * string * string * value) :=
  match Job.external_id j with
  | Some e => inl e
  | None => inr (Job.title j, Job.company j, Job.location j, key_value (Job.url j))
  end.

(** A job as [parse_jsearch_item] returns it. *)
Definition normalised (j : Job.t) : Prop :=
  exists item, parse_jsearch_item item = Ok j.

(** A job whose key is a tuple that cannot be hashed: it has no
    identifier and its link is a list or a dict. *)
Definition unhashable_key (j : Job.t) : bool :=
  match Job.external_id j, Job.url j with
  | None, VList _ | None, VDict _ => true
  | _, _ => false
  end.

(** A collected job as normalisation makes it on textual links: the
    identifier is not the empty string and the link is a string. *)
Definition canonical (j : Job.t) : bool :=
  (match Job.external_id j with
   | Some e => negb (String.eqb e "")
   | None => true
   end &&
   match Job.url j with VStr _ => true | _ => false end)%bool.

(** The key of [j] is the one the data model names, and it hashes: the
    identifier is not the empty string, and a job without identifier has a
    link that is no list and no dict. *)
Definition keyed (j : Job.t) : Prop :=
  Job.external_id j <> Some "" /\ unhashable_key j = false.

(** [j] stands in [l] with no job of its key after it. *)
Definition last_occurrence (j : Job.t) (l : list Job.t) : Prop :=
  exists pre post,
    l = (pre ++ j :: post)%list /\
    Forall (fun j' => record_key j' <> record_key j) post.

(** The dict key of a job whose link hashes. *)
Definition key_of (j : Job.t) : key :=
  match dedup_key j with
  | Ok k => k
  | Raise _ => KeyId ""
  end.

(** The loop as a left fold, once every key hashes. *)
Definition fold_unique (l : list Job.t) (d : list (key * Job.t)) : list (key * Job.t) :=
  fold_left (fun d j => dict_set d (key_of j) j) l d.

(** The de-duplication as the specification words it, at one list: it
    produces a list, one job per key, every key of the input
    represented. *)
Definition dedup_as_claimed (jobs : list Job.t) : Prop :=
  exists unique_jobs : list Job.t,
    dedup jobs = Ok unique_jobs /\
    NoDup (List.map record_key unique_jobs) /\
    (forall j, In j jobs ->
       exists j', In j' unique_jobs /\ record_key j' = record_key j).

(** An item without identifier whose apply link came as a list, and the
    job it normalises to. *)
Definition list_link_item : value :=
  VDict [("job_title", VStr "Junior Backend Developer");
         ("employer_name", VStr "Globex");
         ("job_is_remote", VBool true);
         ("job_description", VStr "Python, trainee");
         ("job_apply_link", VList [VStr "https://example.com/a"]);
         ("job_posted_at_timestamp", VInt (sample_now - 60))].

Definition list_link_item_job : Job.t := {|
  Job.source := "jsearch";
  Job.external_id := None;
  Job.title := "Junior Backend Developer";
  Job.company := "Globex";
  Job.location := "Remote";
  Job.description := "Python, trainee";
  Job.url := VList [VStr "https://example.com/a"];
  Job.posted_at_utc := sample_now - 60
|}.

Definition sample_job_page2 : Job.t := {|
  Job.source := "jsearch";
  Job.external_id := Some "abc123";
  Job.title := "Junior Frontend Developer (updated)";
  Job.company := "Acme";
  Job.location := "Pune";
  Job.description := "React and JavaScript, freshers welcome";
  Job.url := VStr "https://example.com/apply/abc123";
  Job.posted_at_utc := sample_now - 1800
|}.

Definition sample_job_no_id : Job.t := {|
  Job.source := "jsearch";
  Job.external_id := None;
  Job.title := "Trainee PHP Developer";
  Job.company := "Initech";
  Job.location := "Indore";
  Job.description := "Laravel, entry level";
  Job.url := VStr "https://example.com/apply/php";
  Job.posted_at_utc := sample_now - 7200
|}.

(** [a] may stand before [b] under ORDER BY posted_at_utc DESC: [a] was
    posted no earlier than [b], a NULL posting time counting as the
    earliest of all. *)
Definition posted_desc (a b : Row.t) : Prop :=
  match Row.posted_at_utc a, Row.posted_at_utc b with
  | _, None => True
  | None, Some _ => False
  | Some x, Some y => y <= x
  end.

(** Row [r] was created at or after [since_ts]; a row without creation
    time never is. *)
Definition in_window (since_ts : Z) (r : Row.t) : bool :=
  match Row.created_at_utc r with
  | Some c => since_ts <=? c
  | None => false
  end.

(** The five columns the window query asks for. *)
Definition selected_columns (r : Row.t) : digest_row :=
  (Row.title r, Row.company r, Row.location r, Row.url r, Row.posted_at_utc r).

(** A value an SQLite INTEGER parameter can take. *)
Definition fits_int64 (z : Z) : Prop := - 2 ^ 63 <= z < 2 ^ 63.

Definition stored_row (rowid : Z) (name : string) (posted created : Z) : Row.t := {|
  Row.id := rowid;
  Row.source := "jsearch";
  Row.external_id := Some name;
  Row.title := Some ("Junior Developer " ++ name);
  Row.company := Some "Acme";
  Row.location := Some "Pune";
  Row.url := Some ("https://example.com/apply/" ++ name);
  Row.posted_at_utc := Some posted;
  Row.description := Some "Python, fresher";
  Row.created_at_utc := Some created
|}.

Definition row_1h : Row.t :=
  stored_row 1 "a" (sample_now - 5000) (sample_now - 1 * 3600).
Definition row_3h : Row.t :=
  stored_row 2 "b" (sample_now - 4000) (sample_now - 3 * 3600).
Definition row_10h : Row.t :=
  stored_row 3 "c" (sample_now - 3000) (sample_now - 10 * 3600).

Definition window_state : State := {|
  db := [row_1h; row_3h; row_10h]; log := []; outbox := []; ticks := O;
  slept := 0; collected := []
|}.

(** [default_config] with the number of results set to -1. *)
Definition unlimited_config : Config := {|
  SMTP_HOST := SMTP_HOST default_config;
  SMTP_PORT := SMTP_PORT default_config;
  SMTP_USER := SMTP_USER default_config;
  SMTP_PASS := SMTP_PASS default_config;
  SMTP_USE_TLS := SMTP_USE_TLS default_config;
  EMAIL_FROM := EMAIL_FROM default_config;
  EMAIL_TO := EMAIL_TO default_config;
  DEFAULT_COUNTRY := DEFAULT_COUNTRY default_config;
  INCLUDE_REMOTE := INCLUDE_REMOTE default_config;
  RUN_EVERY_HOURS := RUN_EVERY_HOURS default_config;
  MAX_POST_AGE_HOURS := MAX_POST_AGE_HOURS default_config;
  ROLE_KEYWORDS := ROLE_KEYWORDS default_config;
  SKILL_KEYWORDS := SKILL_KEYWORDS default_config;
  EXP_KEYWORDS := EXP_KEYWORDS default_config;
  LOCATIONS := LOCATIONS default_config;
  MAX_RESULTS_PER_RUN := -1;
  PAGES_PER_QUERY := PAGES_PER_QUERY default_config
|}.

(** The window query as the specification words it, at one configuration,
    state and timestamp: it returns records, no more than the limit. *)
Definition window_query_as_claimed (cfg : Config) (st : State) (since_ts : Z) : Prop :=
  exists rows : list digest_row,
    fst (fetch_unsent_jobs_since cfg since_ts st) = Ok rows /\
    Z.of_nat (List.length rows) <= MAX_RESULTS_PER_RUN cfg.

(** A job the driver can bind: the link lands as a text, the posting time
    fits an INTEGER. *)
Definition storable (j : Job.t) : bool :=
  match Sql.bind_text (Job.url j) with
  | Ok (Some _) => Sql.int64 (Job.posted_at_utc j)
  | _ => false
  end.

Definition opt_eqb (a b : option string) : bool :=
  match a, b with
  | Some x, Some y => String.eqb x y
  | None, None => true
  | _, _ => false
  end.

(** Row [r] carries the values of job [j]. *)
Definition holds_job (j : Job.t) (r : Row.t) : bool :=
  (String.eqb (Row.source r) (Job.source j) &&
   opt_eqb (Row.external_id r) (Job.external_id j) &&
   opt_eqb (Row.title r) (Some (Job.title j)) &&
   opt_eqb (Row.company r) (Some (Job.company j)) &&
   opt_eqb (Row.location r) (Some (Job.location j)) &&
   match Sql.bind_text (Job.url j) with
   | Ok u => opt_eqb (Row.url r) u
   | Raise _ => false
   end &&
   match Row.posted_at_utc r with
   | Some p => p =? Job.posted_at_utc j
   | None => false
   end &&
   opt_eqb (Row.description r) (Some (Job.description j)))%bool.

(** No row of the table shares a unique key with job [j]. *)
Definition fresh (j : Job.t) (s : Store) : bool :=
  match Sql.bind_text (Job.url j) with
  | Ok u => negb (existsb (conflict (row_of_job j u 0 0)) s)
  | Raise _ => false
  end.

(** The claim as the specification words it, at one environment, state and
    job: first insert counted, second not, one row, no error logged. *)
Definition insert_twice_as_claimed (env : Env) (st : State) (j : Job.t) : Prop :=
  let first := save_jobs env [j] st in
  let second := save_jobs env [j] (snd first) in
  fst first = Ok 1 /\ fst second = Ok 0 /\
  List.length (filter (holds_job j) (db (snd second))) = 1%nat /\
  log (snd second) = log st.

(** The unique keys of a row do not involve [id], [posted_at_utc],
    [description] or [created_at_utc]. *)
Definition same_keys (a b : Row.t) : Prop :=
  Row.source a = Row.source b /\ Row.external_id a = Row.external_id b /\
  Row.title a = Row.title b /\ Row.company a = Row.company b /\
  Row.location a = Row.location b /\ Row.url a = Row.url b.

(** A store that already has the job of [sample_item]. *)
Definition seen_state : State := {|
  db := [{| Row.id := 1;
            Row.source := "jsearch";
            Row.external_id := Some "abc123";
            Row.title := Some "Junior Frontend Developer";
            Row.company := Some "Acme";
            Row.location := Some "Pune";
            Row.url := Some "https://example.com/apply/abc123";
            Row.posted_at_utc := Some (sample_now - 3600);
            Row.description := Some "React and JavaScript, freshers welcome";
            Row.created_at_utc := Some (sample_now - 1800) |}];
  log := []; outbox := []; ticks := O; slept := 0; collected := []
|}.

(** The cycle up to and including persistence. *)
Definition fetch_and_store (cfg : Config) (env : Env) : M unit :=
  bind (init_db env) (fun _ => bind (collect cfg env) (fun _ => persist env)).

(** The two entries the catch-all of [search_and_notify] logs. *)
Definition fatal_entries (e : exn) : list log_entry :=
  [{| log_level := ERROR;
      log_message := "Fatal error in search_and_notify: %s";
      log_cause := Some e |};
   {| log_level := ERROR; log_message := "Traceback"; log_cause := Some e |}].

(** The claim as the specification words it: a failing [init_db] ends the
    start-up with its exception. *)
Definition init_failure_is_fatal (cfg : Config) (env : Env) (st : State) : Prop :=
  forall e, fst (init_db env st) = Raise e ->
            fst (main_startup cfg env st) = Raise e.

(** An environment in which the database file cannot be opened. *)
Definition locked_env : Env := {|
  clock := fun _ => inject_Z sample_now;
  connect := Some (SqliteError "unable to open database file");
  http_get := fun _ _ => Ok (VDict []);
  template_file := None;
  smtp := fun _ => None;
  scheduler_start := None
|}.

(** What [send_email] logs when no host is configured. *)
Definition smtp_host_missing : log_entry :=
  {| log_level := ERROR;
     log_message := "SMTP_HOST not configured, skipping email.";
     log_cause := None |}.

(** One query answers with [sample_item]; no mail host is configured in
    [default_config]. *)
Definition pune_env : Env := {|
  clock := fun _ => inject_Z sample_now;
  connect := None;
  http_get := fun q page =>
    if String.eqb q "frontend in Pune"
    then Ok (VDict [("data", VList [sample_item])])
    else Ok (VDict [("data", VList [])]);
  template_file := None;
  smtp := fun _ => None;
  scheduler_start := None
|}.








(** [part] occurs in [whole]. *)
Definition contains_text (part whole : string) : Prop :=
  exists pre post, whole = pre ++ part ++ post.



(** An item whose title is a number. *)
Definition numeric_title_item : value :=
  VDict [("job_id", VStr "n1"); ("job_title", VInt 7)].

(** The exception binding the values of a job raises, if any. *)
Definition bind_error (j : Job.t) : option exn :=
  match Sql.bind_text (Job.url j) with
  | Raise e => Some e
  | Ok _ =>
      match Sql.bind_int (Job.posted_at_utc j) with
      | Raise e => Some e
      | Ok _ => None
      end
  end.

(** The entry [save_jobs] logs for a record it could not insert. *)
Definition db_insert_error (e : exn) : log_entry :=
  {| log_level := ERROR; log_message := "DB insert error: %s";
     log_cause := Some e |}.


(** Row ids grow along the table. *)
Definition ids_increasing (s : Store) : Prop :=
  StronglySorted Z.lt (List.map Row.id s).

(** A job whose link came as a list, and one posted far outside 64 bits. *)
Definition list_link_job : Job.t := {|
  Job.source := "jsearch";
  Job.external_id := Some "l1";
  Job.title := "Junior Backend Developer";
  Job.company := "Globex";
  Job.location := "Remote";
  Job.description := "Python, trainee";
  Job.url := VList [VStr "https://example.com/a"; VStr "https://example.com/b"];
  Job.posted_at_utc := sample_now - 60
|}.

(** A job with neither identifier nor link. *)
Definition anonymous_job : Job.t := {|
  Job.source := "manual";
  Job.external_id := None;
  Job.title := "Junior Backend Developer";
  Job.company := "Globex";
  Job.location := "Remote";
  Job.description := "Python, trainee";
  Job.url := VNone;
  Job.posted_at_utc := sample_now - 60
|}.

(** A job without identifier whose link came as a list. *)
Definition unkeyed_list_link_job : Job.t := {|
  Job.source := "jsearch";
  Job.external_id := None;
  Job.title := "Junior Backend Developer";
  Job.company := "Globex";
  Job.location := "Remote";
  Job.description := "Python, trainee";
  Job.url := VList [VStr "https://example.com/a"];
  Job.posted_at_utc := sample_now - 60
|}.


(** The built-in template before and after its placeholder. *)
Definition fallback_head : string :=
  "<html><body><h3>New jobs</h3><table border=" ++ String Py.dquote "1" ++
  String Py.dquote " cellpadding=" ++ String Py.dquote "6" ++
  String Py.dquote "><thead><tr><th>Title</th><th>Company</th><th>Location</th><th>Apply</th><th>Posted</th></tr></thead><tbody>".

Definition fallback_tail : string := "</tbody></table></body></html>".

Definition newline : string := String (Text.chr 10) "".

(** A posting time [fmt_time] can show: NULL, 0, or an instant that is a
    date of the years 1 to 9999 in UTC and in UTC+5:30. *)
Definition showable (ts : option Z) : bool :=
  match ts with
  | None => true
  | Some t =>
      ((t =? 0) ||
       ((Datetime.min_ts <=? t) && (t + Datetime.ist_offset <? Datetime.end_ts)))%bool
  end.

Definition row_time (r : digest_row) : option Z := snd r.

(** An environment whose template file has no placeholder. *)
Definition plain_env : Env := {|
  clock := fun _ => inject_Z sample_now;
  connect := None;
  http_get := fun _ _ => Ok (VDict []);
  template_file := Some "<p>New jobs: {ROWS}</p>";
  smtp := fun _ => None;
  scheduler_start := None
|}.

(** Computation [m] keeps the state property [P], whether it returns or
    raises. *)
Definition keeps {A : Type} (P : State -> Prop) (m : M A) : Prop :=
  forall st, P st -> P (snd (m st)).



(** The HTTP layer raises nothing but [Exception]s. *)
Definition http_raises_exceptions_only (env : Env) : Prop :=
  forall q page e, http_get env q page = Raise e -> is_Exception e = true.

(** [time.sleep(0.6)] once per (role, location) pair. *)
Definition polite_pause (cfg : Config) : Q :=
  (6 # 10) * inject_Z (Z.of_nat (List.length (ROLE_KEYWORDS cfg) *
                                 List.length (locations cfg))).

(** An environment whose HTTP layer fails on every query. *)
Definition offline_env : Env := {|
  clock := fun _ => inject_Z sample_now;
  connect := None;
  http_get := fun _ _ => Raise (ConnectionError "no route to host");
  template_file := None;
  smtp := fun _ => None;
  scheduler_start := None
|}.

(** [default_config] with the page count set to 0. *)
Definition no_pages_config : Config := {|
  SMTP_HOST := SMTP_HOST default_config;
  SMTP_PORT := SMTP_PORT default_config;
  SMTP_USER := SMTP_USER default_config;
  SMTP_PASS := SMTP_PASS default_config;
  SMTP_USE_TLS := SMTP_USE_TLS default_config;
  EMAIL_FROM := EMAIL_FROM default_config;
  EMAIL_TO := EMAIL_TO default_config;
  DEFAULT_COUNTRY := DEFAULT_COUNTRY default_config;
  INCLUDE_REMOTE := INCLUDE_REMOTE default_config;
  RUN_EVERY_HOURS := RUN_EVERY_HOURS default_config;
  MAX_POST_AGE_HOURS := MAX_POST_AGE_HOURS default_config;
  ROLE_KEYWORDS := ROLE_KEYWORDS default_config;
  SKILL_KEYWORDS := SKILL_KEYWORDS default_config;
  EXP_KEYWORDS := EXP_KEYWORDS default_config;
  LOCATIONS := LOCATIONS default_config;
  MAX_RESULTS_PER_RUN := MAX_RESULTS_PER_RUN default_config;
  PAGES_PER_QUERY := 0
|}.

(** A store with one fresh row whose posting time came in milliseconds. *)
Definition millis_state : State := {|
  db := [stored_row 1 "ms" (sample_now * 1000) (sample_now - 60)];
  log := []; outbox := []; ticks := O; slept := 0; collected := []
|}.

(** [default_config] with a mail host. *)
Definition mail_config : Config := {|
  SMTP_HOST := "smtp.example.com";
  SMTP_PORT := SMTP_PORT default_config;
  SMTP_USER := SMTP_USER default_config;
  SMTP_PASS := SMTP_PASS default_config;
  SMTP_USE_TLS := SMTP_USE_TLS default_config;
  EMAIL_FROM := EMAIL_FROM default_config;
  EMAIL_TO := EMAIL_TO default_config;
  DEFAULT_COUNTRY := DEFAULT_COUNTRY default_config;
  INCLUDE_REMOTE := INCLUDE_REMOTE default_config;
  RUN_EVERY_HOURS := RUN_EVERY_HOURS default_config;
  MAX_POST_AGE_HOURS := MAX_POST_AGE_HOURS default_config;
  ROLE_KEYWORDS := ROLE_KEYWORDS default_config;
  SKILL_KEYWORDS := SKILL_KEYWORDS default_config;
  EXP_KEYWORDS := EXP_KEYWORDS default_config;
  LOCATIONS := LOCATIONS default_config;
  MAX_RESULTS_PER_RUN := MAX_RESULTS_PER_RUN default_config;
  PAGES_PER_QUERY := PAGES_PER_QUERY default_config
|}.

(** An ASCII character that is no word character, such as a blank, a point
    or a comma. *)
Definition separator (c : ascii) : bool :=
  (Nat.ltb (Text.code c) 128 && negb (Text.is_word c))%bool.

(** [s] is empty or begins with a separator. *)
Definition word_ends_at (s : string) : bool :=
  match s with
  | EmptyString => true
  | String d _ => separator d
  end.

(* ================================================================== *)
(** * Properties *)

(* ------------------------------------------------------------------ *)
(** ** Worked examples of the embedding *)

Example experience_keyword_free_match :
  contains_any "0+ years exp ok" default_exp_keywords = false /\
  Re.search Patterns.p_0_plus_years "0+ years exp ok" = true.
Proof. split; vm_compute; reflexivity. Qed.

Example regex_checks :
  Re.search Patterns.p_0_dash_6_months "need 0 - 6 months of work" = true /\
  Re.search Patterns.p_0_dash_6_months "need 10-6 months" = false /\
  Re.search Patterns.p_6_months_experience "up to 6 months of experience" = true /\
  Re.search Patterns.p_6_months_experience "6monthsexperience" = true /\
  Re.search Patterns.p_6_months_experience "16 months experience" = false /\
  Re.search Patterns.p_entry_level "entry-level" = true /\
  Re.search Patterns.p_entry_level "entry  level" = false /\
  Re.search Patterns.p_no_experience "noexperience" = false /\
  Re.search Patterns.p_fresher "refreshers" = false /\
  Re.search Patterns.p_0_plus_years "10 years" = false /\
  Re.search Patterns.p_0_plus_years "0years" = true.
Proof. vm_compute. repeat split. Qed.

Example repr_nested :
  Py.str (VList [VInt 1; VStr "a"; VNone; VBool true; VDict [("k", VStr "it's")]])
  = String.concat "" ["[1, 'a', None, True, {'k': "; String Py.dquote "it's";
                      String Py.dquote "}]"].
Proof. vm_compute. reflexivity. Qed.

Example int_of_str_checks :
  List.map Py.int_of_str [" 12 "; "1_0"; "+5"; "-0"; "0012"; "-00_0"]
    = [Some 12; Some 10; Some 5; Some 0; Some 12; Some 0] /\
  List.map Py.int_of_str ["1__0"; "_1"; "1_"; ""; "+"; " "; "0x10"; "1.5"; "1 2"; "+ 1"; "--1"]
    = [None; None; None; None; None; None; None; None; None; None; None].
Proof. vm_compute. split; reflexivity. Qed.

Example fmt_time_checks :
  List.map fmt_time [Some 1700000000; Some 1; Some (-1); Some (-19801);
                     Some 951782400; Some 1709145000; Some 4102444800;
                     Some (-62135596800); Some 253402280999; Some 23400;
                     Some 1735669799; Some (-30662668800); Some 0; None]
  = List.map Ok
      ["15 Nov 2023, 03:43 AM IST"; "01 Jan 1970, 05:30 AM IST";
       "01 Jan 1970, 05:29 AM IST"; "31 Dec 1969, 11:59 PM IST";
       "29 Feb 2000, 05:30 AM IST"; "29 Feb 2024, 12:00 AM IST";
       "01 Jan 2100, 05:30 AM IST"; "01 Jan 1, 05:30 AM IST";
       "31 Dec 9999, 11:59 PM IST"; "01 Jan 1970, 12:00 PM IST";
       "31 Dec 2024, 11:59 PM IST"; "04 May 998, 05:30 AM IST"; ""; ""].
Proof. vm_compute. reflexivity. Qed.

Example fmt_time_out_of_range :
  List.map fmt_time [Some (-62135596801); Some 253402281000; Some 253402300800]
  = [Raise DateRangeError; Raise DateRangeError; Raise DateRangeError].
Proof. vm_compute. reflexivity. Qed.

Example replace_checks :
  replace "{{ROWS}}" "X" "a{{ROWS}}b{{ROWS}}{{ROWS}c" = "aXbX{{ROWS}c" /\
  replace "aa" "b" "aaa" = "ba".
Proof. vm_compute. split; reflexivity. Qed.

(* ------------------------------------------------------------------ *)
(** ** Keyword matcher *)

(** Claim C5.  With the default experience keywords, [experience_ok] accepts
    "Fresher opportunity", "0-6 months experience required", "Entry Level
    Developer", "No experience necessary" and "0+ years exp ok", and rejects
    "5 years experience required". *)
Theorem experience_ok_default_examples :
  forall cfg : Config,
    EXP_KEYWORDS cfg = default_exp_keywords ->
    experience_ok cfg "Fresher opportunity" = true /\
    experience_ok cfg "0-6 months experience required" = true /\
    experience_ok cfg "Entry Level Developer" = true /\
    experience_ok cfg "No experience necessary" = true /\
    experience_ok cfg "0+ years exp ok" = true /\
    experience_ok cfg "5 years experience required" = false.
Proof.
  intros cfg H. unfold experience_ok. rewrite H.
  repeat split; vm_compute; reflexivity.
Qed.

Lemma experience_ok_default_examples_witness :
  EXP_KEYWORDS default_config = default_exp_keywords /\
  experience_ok default_config "0+ years exp ok" = true /\
  experience_ok default_config "5 years experience required" = false.
Proof.
  split; [reflexivity |].
  pose proof (experience_ok_default_examples default_config eq_refl) as H.
  split; apply H.
Defined.

(* ------------------------------------------------------------------ *)
(** ** Recency *)

Lemma age_within_spec (now_utc posted max_age_hours : Q) :
  age_within now_utc posted max_age_hours = true <->
  ((now_utc - posted) / 3600 <= max_age_hours)%Q.
Proof. unfold age_within. apply Qle_bool_iff. Qed.

Lemma float_of_int_in_range (z : Z) :
  Z.abs z < 2 ^ 1024 - 2 ^ 970 -> Py.float_of_int z = Ok (inject_Z z).
Proof.
  intros H. unfold Py.float_of_int, Py.float_limit.
  destruct (Z.ltb_spec (Z.abs z) (2 ^ 1024 - 2 ^ 970)) as [_ | Hge];
    [reflexivity | exfalso; exact (proj1 (Z.le_ngt _ _) Hge H)].
Qed.

Lemma float_of_int_out_of_range (z : Z) :
  2 ^ 1024 - 2 ^ 970 <= Z.abs z -> Py.float_of_int z = Raise OverflowError.
Proof.
  intros H. unfold Py.float_of_int, Py.float_limit.
  destruct (Z.ltb_spec (Z.abs z) (2 ^ 1024 - 2 ^ 970)) as [Hlt | _];
    [exfalso; exact (proj1 (Z.le_ngt _ _) H Hlt) | reflexivity].
Qed.

Lemma float_of_int_cases (z : Z) :
  Py.float_of_int z = Ok (inject_Z z) \/ Py.float_of_int z = Raise OverflowError.
Proof.
  unfold Py.float_of_int. destruct (Z.abs z <? Py.float_limit); auto.
Qed.

Lemma posted_recent_zero (env : Env) (max_age_hours : Q) (st : State) :
  posted_recent env 0 max_age_hours st = (Ok false, st).
Proof. reflexivity. Qed.

Lemma posted_recent_nonzero (env : Env) (posted_ts : Z) (max_age_hours : Q) (st : State) :
  posted_ts <> 0 ->
  fst (posted_recent env posted_ts max_age_hours st)
  = rbind (Py.float_of_int posted_ts)
      (fun posted => Ok (age_within (clock env (ticks st)) posted max_age_hours)).
Proof.
  intros H. unfold posted_recent.
  destruct (Z.eqb_spec posted_ts 0) as [E | _]; [contradiction |].
  unfold bind, now, lift, ret. cbn [fst snd].
  destruct (Py.float_of_int posted_ts); reflexivity.
Qed.

Lemma posted_recent_in_range (env : Env) (posted_ts : Z) (max_age_hours : Q) (st : State) :
  posted_ts <> 0 -> Z.abs posted_ts < 2 ^ 1024 - 2 ^ 970 ->
  fst (posted_recent env posted_ts max_age_hours st)
  = Ok (age_within (clock env (ticks st)) (inject_Z posted_ts) max_age_hours).
Proof.
  intros Hnz Hr. rewrite (posted_recent_nonzero _ _ _ _ Hnz).
  rewrite (float_of_int_in_range _ Hr). reflexivity.
Qed.

(** What [posted_recent] answers when it answers true. *)
Lemma posted_recent_true (env : Env) (posted_ts : Z) (max_age_hours : Q) (st : State) :
  fst (posted_recent env posted_ts max_age_hours st) = Ok true <->
  posted_ts <> 0 /\ Z.abs posted_ts < 2 ^ 1024 - 2 ^ 970 /\
  ((clock env (ticks st) - inject_Z posted_ts) / 3600 <= max_age_hours)%Q.
Proof.
  split.
  - intros H. destruct (Z.eq_dec posted_ts 0) as [-> | Hnz]; [discriminate H |].
    split; [exact Hnz |].
    destruct (Z.lt_ge_cases (Z.abs posted_ts) (2 ^ 1024 - 2 ^ 970)) as [Hr | Hr].
    + split; [exact Hr |]. rewrite (posted_recent_in_range _ _ _ _ Hnz Hr) in H.
      apply age_within_spec. congruence.
    + rewrite (posted_recent_nonzero _ _ _ _ Hnz) in H.
      rewrite (float_of_int_out_of_range _ Hr) in H. discriminate H.
  - intros [Hnz [Hr Hle]]. rewrite (posted_recent_in_range _ _ _ _ Hnz Hr).
    f_equal. apply age_within_spec. exact Hle.
Qed.




(* ------------------------------------------------------------------ *)
(** ** Normalisation *)

Lemma strip_str (s : string) : exists t, Py.strip (VStr s) = Ok t.
Proof. simpl. eauto. Qed.

Lemma strip_or_text (a b : value) :
  is_text a = true -> (exists s, Py.strip b = Ok s) ->
  exists s, Py.strip (Py.or_ a b) = Ok s.
Proof.
  intros Ha Hb. unfold Py.or_.
  destruct a as [| b' | z | s | l | d']; try discriminate Ha.
  - exact Hb.
  - destruct (Py.truthy (VStr s)); [apply strip_str | exact Hb].
Qed.

Create HintDb parse.
#[local] Hint Resolve strip_or_text strip_str : parse.

(** Claim C9.  On an item of the recognised shape [parse_jsearch_item]
    returns a record and raises nothing; when no identifier field is there
    [external_id] is [None]; when the timestamp field is missing, or [int]
    fails on it, [posted_at_utc] is 0. *)
Theorem parse_jsearch_item_total :
  forall d : list (string * value),
    recognized d = true ->
    exists job : Job.t,
      parse_jsearch_item (VDict d) = Ok job /\
      Job.source job = "jsearch" /\
      (Py.get d "job_id" = VNone -> Py.get d "job_posting_id" = VNone ->
       Py.get d "id" = VNone -> Job.external_id job = None) /\
      (Py.get d "job_posted_at_timestamp" = VNone -> Job.posted_at_utc job = 0) /\
      (forall e, Py.int (Py.get d "job_posted_at_timestamp") = Raise e ->
                 Job.posted_at_utc job = 0).
Proof.
  intros d Hd. unfold recognized in Hd. simpl in Hd.
  repeat (apply andb_prop in Hd; destruct Hd as [?H Hd]).
  unfold parse_jsearch_item.
  assert (Ht : exists s, Py.strip (Py.or_ (Py.get d "job_title")
                 (Py.or_ (Py.get d "title") (VStr ""))) = Ok s)
    by auto 6 with parse.
  assert (Hc : exists s, Py.strip (Py.or_ (Py.get d "employer_name")
                 (Py.or_ (Py.get d "company_name") (VStr ""))) = Ok s)
    by auto 6 with parse.
  assert (Hl : exists s, Py.strip
                 (Py.or_ (Py.get d "job_city")
                   (Py.or_ (Py.get d "job_location")
                     (Py.or_ (Py.get d "job_country")
                       (Py.or_ (Py.get d "job_state")
                         (if Py.truthy (Py.get d "job_is_remote")
                          then VStr "Remote" else VStr ""))))) = Ok s).
  { repeat (apply strip_or_text; [assumption |]).
    destruct (Py.truthy (Py.get d "job_is_remote")); apply strip_str. }
  assert (Hs : exists s, Py.strip (Py.or_ (Py.get d "job_description")
                 (Py.or_ (Py.get d "description") (VStr ""))) = Ok s)
    by auto 6 with parse.
  destruct Ht as [t ->], Hc as [c ->], Hl as [l ->], Hs as [s ->].
  cbn [rbind]. eexists. split; [reflexivity |]. cbn [Job.source Job.external_id Job.posted_at_utc].
  split; [reflexivity |]. split; [| split].
  - intros -> -> ->. reflexivity.
  - intros ->. reflexivity.
  - intros e ->. destruct (Py.truthy _); reflexivity.
Qed.

Lemma parse_jsearch_item_total_witness :
  exists job : Job.t,
    parse_jsearch_item (VDict bare_item) = Ok job /\
    Job.external_id job = None /\ Job.posted_at_utc job = 0.
Proof.
  destruct (parse_jsearch_item_total bare_item eq_refl)
    as [job [Hp [_ [Hid [_ Hts]]]]].
  exists job. split; [exact Hp |]. split.
  - apply Hid; reflexivity.
  - apply (Hts ValueError). reflexivity.
Defined.

(** Outside the recognised shape the only failure is the missing [strip]
    or [get] method. *)
Lemma parse_jsearch_item_raises_only_AttributeError (item : value) (e : exn) :
  parse_jsearch_item item = Raise e -> e = AttributeError.
Proof.
  unfold parse_jsearch_item. destruct item; try (intros H; congruence).
  repeat match goal with
         | |- context [rbind (Py.strip ?v) _] =>
             let E := fresh "E" in
             destruct (Py.strip v) eqn:E; cbn [rbind];
             [| destruct v; simpl in E; congruence]
         end.
  discriminate.
Qed.

(** An identifier that is present is never the empty string. *)
Lemma str_int_nonempty (z : Z) : Py.str_int z <> "".
Proof.
  unfold Py.str_int, Z.to_int, NilZero.string_of_int, NilZero.string_of_uint.
  destruct z as [| p | p]; [discriminate | | discriminate].
  destruct (Pos.to_uint p); discriminate.
Qed.

Lemma str_truthy_nonempty (v : value) :
  Py.truthy v = true -> Py.str v <> "".
Proof.
  destruct v as [| b | z | s | l | d]; simpl.
  - discriminate.
  - destruct b; discriminate.
  - intros _. apply str_int_nonempty.
  - destruct s; simpl; [discriminate | intros _; discriminate].
  - intros _. discriminate.
  - intros _. discriminate.
Qed.

Lemma parse_jsearch_item_external_id (item : value) (job : Job.t) :
  parse_jsearch_item item = Ok job -> Job.external_id job <> Some "".
Proof.
  unfold parse_jsearch_item. destruct item; try discriminate.
  repeat match goal with
         | |- context [rbind (Py.strip ?v) _] =>
             destruct (Py.strip v); cbn [rbind]; [| discriminate]
         end.
  intros H. injection H as <-. cbn [Job.external_id].
  match goal with |- context [Py.truthy ?v] => destruct (Py.truthy v) eqn:E end;
    [| discriminate].
  intros H. injection H as H. revert H. apply str_truthy_nonempty. exact E.
Qed.

(* ------------------------------------------------------------------ *)
(** ** The pipeline filter *)

Lemma text_blob_concat (job : Job.t) :
  text_blob job =
  Job.title job ++ " " ++ Job.description job ++ " " ++ Job.company job ++ " " ++
  Job.location job.
Proof. reflexivity. Qed.



(* ------------------------------------------------------------------ *)
(** ** In-memory de-duplication *)

Lemma hashable_eqb_eq (a b : hashable) : hashable_eqb a b = true <-> a = b.
Proof.
  destruct a, b; simpl; split; intros H; try congruence; try discriminate.
  - f_equal. apply Z.eqb_eq. exact H.
  - injection H as ->. apply Z.eqb_refl.
  - f_equal. apply String.eqb_eq. exact H.
  - injection H as ->. apply String.eqb_refl.
Qed.

Lemma key_eqb_eq (a b : key) : key_eqb a b = true <-> a = b.
Proof.
  destruct a, b; simpl; split; intros H; try congruence; try discriminate.
  - f_equal. apply String.eqb_eq. exact H.
  - injection H as ->. apply String.eqb_refl.
  - repeat (apply andb_prop in H; destruct H as [H ?H]).
    apply String.eqb_eq in H, H1, H2. apply hashable_eqb_eq in H0. congruence.
  - injection H as -> -> -> ->.
    rewrite !String.eqb_refl. simpl. apply hashable_eqb_eq. reflexivity.
Qed.

Lemma key_eqb_neq (a b : key) : key_eqb a b = false <-> a <> b.
Proof.
  rewrite <- key_eqb_eq. destruct (key_eqb a b); split; congruence.
Qed.

Lemma keyed_dedup_key (j : Job.t) : keyed j -> dedup_key j = Ok (key_of j).
Proof.
  unfold keyed, unhashable_key, key_of, dedup_key. intros [Hne Hu].
  destruct (Job.external_id j) as [e |].
  - destruct (String.eqb_spec e ""); [subst; congruence | reflexivity].
  - destruct (Job.url j); try discriminate Hu; reflexivity.
Qed.

Lemma canonical_keyed (j : Job.t) : canonical j = true -> keyed j.
Proof.
  unfold canonical, keyed, unhashable_key. intros H.
  apply andb_prop in H. destruct H as [He Hu]. split.
  - intros E. rewrite E in He. discriminate He.
  - destruct (Job.external_id j); [reflexivity |].
    destruct (Job.url j); try discriminate Hu; reflexivity.
Qed.


Lemma canonical_dedup_key (j : Job.t) :
  canonical j = true -> dedup_key j = Ok (key_of j).
Proof. intros H. apply keyed_dedup_key, canonical_keyed, H. Qed.

(** Two links that hash are the same dict key exactly when they are the
    same key component of the data model. *)
Lemma hash_value_key_value (u1 u2 : value) (h1 h2 : hashable) :
  hash_value u1 = Ok h1 -> hash_value u2 = Ok h2 ->
  (h1 = h2 <-> key_value u1 = key_value u2).
Proof.
  destruct u1 as [| b1 | z1 | s1 | l1 | d1], u2 as [| b2 | z2 | s2 | l2 | d2];
    simpl; intros E1 E2; try discriminate;
    injection E1 as <-; injection E2 as <-;
    split; intros H; try congruence; try discriminate H.
Qed.

Lemma keyed_key_of (j1 j2 : Job.t) :
  keyed j1 -> keyed j2 ->
  (key_of j1 = key_of j2 <-> record_key j1 = record_key j2).
Proof.
  unfold keyed, unhashable_key, key_of, dedup_key, record_key.
  intros [He1 Hu1] [He2 Hu2].
  destruct (Job.external_id j1) as [e1 |], (Job.external_id j2) as [e2 |].
  - destruct (String.eqb_spec e1 ""); [subst; congruence |].
    destruct (String.eqb_spec e2 ""); [subst; congruence |].
    split; congruence.
  - destruct (String.eqb_spec e1 ""); [subst; congruence |].
    destruct (hash_value (Job.url j2)); simpl; split; congruence.
  - destruct (String.eqb_spec e2 ""); [subst; congruence |].
    destruct (hash_value (Job.url j1)); simpl; split; congruence.
  - destruct (hash_value (Job.url j1)) as [h1 | x1] eqn:E1;
      [| destruct (Job.url j1); simpl in E1; discriminate].
    destruct (hash_value (Job.url j2)) as [h2 | x2] eqn:E2;
      [| destruct (Job.url j2); simpl in E2; discriminate].
    simpl. pose proof (hash_value_key_value _ _ _ _ E1 E2) as Hh.
    split; intros H.
    + injection H as -> -> -> Hk. apply Hh in Hk. rewrite Hk. reflexivity.
    + injection H as -> -> -> Hk. apply Hh in Hk. rewrite Hk. reflexivity.
Qed.

Lemma canonical_key_of (j1 j2 : Job.t) :
  canonical j1 = true -> canonical j2 = true ->
  (key_of j1 = key_of j2 <-> record_key j1 = record_key j2).
Proof. intros H1 H2. apply keyed_key_of; apply canonical_keyed; assumption. Qed.

Lemma dedup_loop_fold (l : list Job.t) :
  Forall keyed l ->
  forall d, dedup_loop l d = Ok (fold_unique l d).
Proof.
  induction 1 as [| j l Hj _ IH]; intros d; simpl.
  - reflexivity.
  - rewrite (keyed_dedup_key j Hj). simpl. apply IH.
Qed.

Lemma dedup_key_raises (j : Job.t) (e : exn) :
  dedup_key j = Raise e -> e = TypeError.
Proof.
  unfold dedup_key.
  assert (H : forall t c l,
            rbind (hash_value (Job.url j))
              (fun u => Ok (KeyTuple t c l u)) = Raise e -> e = TypeError).
  { intros t c l. destruct (Job.url j); simpl; congruence. }
  destruct (Job.external_id j) as [x |]; [destruct (String.eqb x "") |];
    try discriminate; apply H.
Qed.

Lemma dedup_loop_unhashable (jobs : list Job.t) (bad : Job.t) :
  In bad jobs -> dedup_key bad = Raise TypeError ->
  forall d, dedup_loop jobs d = Raise TypeError.
Proof.
  intros Hin Hbad. induction jobs as [| j jobs IH]; [destruct Hin |].
  intros d. simpl. destruct (dedup_key j) as [k | e] eqn:Hk; simpl.
  - destruct Hin as [-> | Hin]; [congruence | apply IH; exact Hin].
  - f_equal. apply (dedup_key_raises j). exact Hk.
Qed.

Lemma unhashable_key_raises (j : Job.t) :
  unhashable_key j = true -> dedup_key j = Raise TypeError.
Proof.
  unfold unhashable_key, dedup_key.
  destruct (Job.external_id j); [discriminate |].
  destruct (Job.url j); try discriminate; reflexivity.
Qed.

Lemma fold_unique_snoc (l : list Job.t) (j : Job.t) (d : list (key * Job.t)) :
  fold_unique (l ++ [j]) d = dict_set (fold_unique l d) (key_of j) j.
Proof. unfold fold_unique. rewrite fold_left_app. reflexivity. Qed.

Lemma dict_set_keys (d : list (key * Job.t)) (k : key) (j : Job.t) :
  List.map fst (dict_set d k j) =
  if existsb (key_eqb k) (List.map fst d) then List.map fst d
  else (List.map fst d ++ [k])%list.
Proof.
  induction d as [| [k' j'] d IH]; simpl; [reflexivity |].
  destruct (key_eqb k k') eqn:E; simpl; [reflexivity |].
  rewrite IH. destruct (existsb (key_eqb k) (List.map fst d)); reflexivity.
Qed.

Lemma existsb_key_In (k : key) (ks : list key) :
  existsb (key_eqb k) ks = true <-> In k ks.
Proof.
  rewrite existsb_exists. split.
  - intros [x [Hx E]]. apply key_eqb_eq in E. subst. exact Hx.
  - intros H. exists k. split; [exact H | apply key_eqb_eq; reflexivity].
Qed.

Lemma dict_set_NoDup (d : list (key * Job.t)) (k : key) (j : Job.t) :
  NoDup (List.map fst d) -> NoDup (List.map fst (dict_set d k j)).
Proof.
  intros H. rewrite dict_set_keys.
  destruct (existsb (key_eqb k) (List.map fst d)) eqn:E; [exact H |].
  apply NoDup_app; [exact H | repeat constructor; intros [] | ].
  intros x Hx [<- | []].
  apply existsb_key_In in Hx. congruence.
Qed.

Lemma dict_set_In (d : list (key * Job.t)) (k : key) (j : Job.t) :
  NoDup (List.map fst d) ->
  forall k' j',
    In (k', j') (dict_set d k j) <->
    (k' = k /\ j' = j) \/ (k' <> k /\ In (k', j') d).
Proof.
  induction d as [| [k0 j0] d IH]; simpl; intros Hnd k' j'.
  - split.
    + intros [H | []]. injection H as <- <-. auto.
    + intros [[-> ->] | [_ []]]. auto.
  - inversion Hnd as [| ? ? Hk0 Hnd']; subst.
    destruct (key_eqb k k0) eqn:E.
    + apply key_eqb_eq in E. subst k0. simpl. split.
      * intros [H | H].
        -- injection H as <- <-. auto.
        -- right. split; [| auto]. intros ->.
           apply Hk0. apply (in_map fst) in H. exact H.
      * intros [[-> ->] | [Hne [H | H]]]; auto.
        injection H as <- _. congruence.
    + apply key_eqb_neq in E. simpl. rewrite (IH Hnd'). split.
      * intros [H | [H | H]]; auto.
        -- injection H as <- <-. right. split; [congruence | auto].
        -- destruct H as [Hne H]. auto.
      * intros [H | [Hne [H | H]]]; auto.
Qed.

Lemma last_occurrence_snoc (l : list Job.t) (j j' : Job.t) :
  last_occurrence j' (l ++ [j]) <->
  j' = j \/ (record_key j <> record_key j' /\ last_occurrence j' l).
Proof.
  unfold last_occurrence. split.
  - intros [pre [post [E Hpost]]].
    revert E Hpost.
    induction post as [| x post' _] using rev_ind; intros E Hpost.
    + apply app_inj_tail in E. destruct E as [_ <-]. auto.
    + right. rewrite app_comm_cons, app_assoc in E.
      apply app_inj_tail in E. destruct E as [-> <-].
      apply Forall_app in Hpost. destruct Hpost as [Hpost' Hx].
      inversion Hx; subst. split; [assumption |]. eauto.
  - intros [-> | [Hne [pre [post [-> Hpost]]]]].
    + exists l, []. split; [reflexivity | constructor].
    + exists pre, (post ++ [j])%list. split.
      * rewrite <- app_assoc. reflexivity.
      * apply Forall_app. split; [exact Hpost | repeat constructor; exact Hne].
Qed.

Lemma last_occurrence_In (j : Job.t) (l : list Job.t) :
  last_occurrence j l -> In j l.
Proof.
  intros [pre [post [-> _]]]. apply in_or_app. right. left. reflexivity.
Qed.

Lemma Forall_keyed_snoc (l : list Job.t) (x : Job.t) :
  Forall keyed (l ++ [x]) -> Forall keyed l /\ keyed x.
Proof.
  intros H. apply Forall_app in H. destruct H as [Hl Hx].
  inversion Hx; subst. auto.
Qed.

Lemma fold_unique_invariant (l : list Job.t) :
  Forall keyed l ->
  NoDup (List.map fst (fold_unique l [])) /\
  forall k j,
    In (k, j) (fold_unique l []) <-> k = key_of j /\ last_occurrence j l.
Proof.
  induction l as [| x l IH] using rev_ind; intros Hall.
  - split; [constructor |]. intros k j. split; [intros [] |].
    intros [_ [pre [post [E _]]]]. destruct pre; discriminate E.
  - apply Forall_keyed_snoc in Hall. destruct Hall as [Hl Hx].
    destruct (IH Hl) as [Hnd Hin]. rewrite fold_unique_snoc. split.
    + apply dict_set_NoDup. exact Hnd.
    + intros k j. rewrite (dict_set_In _ _ _ Hnd), last_occurrence_snoc, Hin.
      split.
      * intros [[-> ->] | [Hne [-> Hlast]]]; [auto |].
        split; [reflexivity |]. right. split; [| exact Hlast].
        intros E. apply Hne. symmetry. apply keyed_key_of; auto.
        rewrite Forall_forall in Hl. apply Hl.
        apply last_occurrence_In. exact Hlast.
      * intros [-> [-> | [Hne Hlast]]]; [auto |].
        right. split; [| auto]. intros E. apply Hne. symmetry.
        apply keyed_key_of; auto.
        rewrite Forall_forall in Hl. apply Hl.
        apply last_occurrence_In. exact Hlast.
Qed.

Lemma NoDup_map_finer {A B C : Type} (f : A -> B) (g : A -> C) (l : list A) :
  (forall x y, In x l -> In y l -> g x = g y -> f x = f y) ->
  NoDup (List.map f l) -> NoDup (List.map g l).
Proof.
  induction l as [| a l IH]; simpl; intros Hfg Hnd; [constructor |].
  inversion Hnd as [| ? ? Ha Hnd']; subst. constructor.
  - intros Hin. apply in_map_iff in Hin. destruct Hin as [y [E Hy]].
    apply Ha. apply in_map_iff. exists y. split; [| exact Hy].
    apply Hfg; auto.
  - apply IH; auto.
Qed.

Lemma some_last_occurrence (l : list Job.t) :
  Forall keyed l ->
  forall j, In j l ->
    exists j', last_occurrence j' l /\ record_key j' = record_key j.
Proof.
  induction l as [| x l IH] using rev_ind; intros Hall j Hj; [destruct Hj |].
  apply Forall_keyed_snoc in Hall. destruct Hall as [Hl Hx].
  destruct (key_eqb (key_of x) (key_of j)) eqn:E.
  - exists x. split.
    + apply last_occurrence_snoc. auto.
    + apply key_eqb_eq in E. apply keyed_key_of; auto.
      apply in_app_or in Hj. destruct Hj as [Hj | [<- | []]]; [| exact Hx].
      rewrite Forall_forall in Hl. auto.
  - apply key_eqb_neq in E.
    apply in_app_or in Hj. destruct Hj as [Hj | [<- | []]]; [| congruence].
    destruct (IH Hl j Hj) as [j' [Hlast Hk]].
    exists j'. split; [| exact Hk].
    apply last_occurrence_snoc. right. split; [| exact Hlast].
    rewrite Hk. intros Ek. apply E. apply keyed_key_of; auto.
    rewrite Forall_forall in Hl. auto.
Qed.

(** What the de-duplication does on jobs whose keys all hash. *)
Lemma dedup_keyed (jobs : list Job.t) :
  Forall keyed jobs ->
  exists unique_jobs : list Job.t,
    dedup jobs = Ok unique_jobs /\
    NoDup (List.map record_key unique_jobs) /\
    (forall j, In j jobs ->
       exists j', In j' unique_jobs /\ record_key j' = record_key j) /\
    (forall j, In j unique_jobs <-> last_occurrence j jobs).
Proof.
  intros Hall.
  destruct (fold_unique_invariant jobs Hall) as [Hnd Hin].
  assert (Hmem : forall j, In j (List.map snd (fold_unique jobs []))
                           <-> last_occurrence j jobs).
  { intros j. rewrite in_map_iff. split.
    - intros [[k j'] [E H]]. simpl in E. subst j'. apply Hin in H. tauto.
    - intros H. exists (key_of j, j). split; [reflexivity |].
      apply Hin. auto. }
  exists (List.map snd (fold_unique jobs [])).
  unfold dedup. rewrite (dedup_loop_fold jobs Hall). simpl.
  split; [reflexivity |]. split; [| split].
  - apply (NoDup_map_finer key_of record_key).
    + intros x y Hx Hy E. apply keyed_key_of; auto;
        rewrite Forall_forall in Hall; apply Hall;
        apply last_occurrence_In; apply Hmem; assumption.
    + replace (List.map key_of (List.map snd (fold_unique jobs [])))
        with (List.map fst (fold_unique jobs [])); [exact Hnd |].
      rewrite List.map_map. apply map_ext_in. intros [k j] H. simpl.
      apply Hin in H. tauto.
  - intros j Hj. destruct (some_last_occurrence jobs Hall j Hj) as [j' [Hl Hk]].
    exists j'. split; [apply Hmem; exact Hl | exact Hk].
  - exact Hmem.
Qed.

(** Normalised jobs whose keys hash are keyed. *)
Lemma normalised_keyed (jobs : list Job.t) :
  Forall normalised jobs -> existsb unhashable_key jobs = false ->
  Forall keyed jobs.
Proof.
  intros Hn Hu. rewrite Forall_forall in *. intros j Hj. split.
  - destruct (Hn j Hj) as [item Hp].
    exact (parse_jsearch_item_external_id item j Hp).
  - destruct (unhashable_key j) eqn:E; [| reflexivity].
    assert (Hex : existsb unhashable_key jobs = true)
      by (apply existsb_exists; exists j; auto).
    congruence.
Qed.

(** Claim C10, as the code has it.  The key of a collected job is its
    external identifier when present and the (title, company, location,
    url) tuple otherwise.  When some collected job has no identifier and a
    link that is a list or a dict, its tuple cannot be hashed and the
    de-duplication raises [TypeError].  On every other list of collected
    jobs it returns a list with one job per key, every key of the input is
    represented, and the job kept for a key is its last occurrence in the
    input. *)
Theorem dedup_one_per_key_last_wins :
  forall jobs : list Job.t,
    Forall normalised jobs ->
    (existsb unhashable_key jobs = true -> dedup jobs = Raise TypeError) /\
    (existsb unhashable_key jobs = false ->
     exists unique_jobs : list Job.t,
       dedup jobs = Ok unique_jobs /\
       NoDup (List.map record_key unique_jobs) /\
       (forall j, In j jobs ->
          exists j', In j' unique_jobs /\ record_key j' = record_key j) /\
       (forall j, In j unique_jobs <-> last_occurrence j jobs)).
Proof.
  intros jobs Hn. split.
  - intros Hex. apply existsb_exists in Hex. destruct Hex as [bad [Hin Hbad]].
    unfold dedup.
    rewrite (dedup_loop_unhashable jobs bad Hin (unhashable_key_raises bad Hbad)).
    reflexivity.
  - intros Hu. apply dedup_keyed. apply normalised_keyed; assumption.
Qed.

Example dedup_sample :
  dedup [sample_job; sample_job_no_id; sample_job_page2; sample_job_no_id]
  = Ok [sample_job_page2; sample_job_no_id].
Proof. reflexivity. Qed.

Lemma dedup_one_per_key_last_wins_witness :
  (exists unique_jobs : list Job.t,
     dedup [sample_job; sample_job_page2] = Ok unique_jobs /\
     In sample_job_page2 unique_jobs) /\
  dedup [sample_job; list_link_item_job] = Raise TypeError.
Proof.
  assert (N1 : normalised sample_job) by (exists sample_item; reflexivity).
  assert (N2 : normalised sample_job_page2).
  { exists (VDict [("job_id", VStr "abc123");
                   ("job_title", VStr "Junior Frontend Developer (updated)");
                   ("employer_name", VStr "Acme");
                   ("job_city", VStr "Pune");
                   ("job_description", VStr "React and JavaScript, freshers welcome");
                   ("job_apply_link", VStr "https://example.com/apply/abc123");
                   ("job_posted_at_timestamp", VInt (sample_now - 1800))]).
    reflexivity. }
  assert (N3 : normalised list_link_item_job) by (exists list_link_item; reflexivity).
  split.
  - destruct (dedup_one_per_key_last_wins [sample_job; sample_job_page2])
      as [_ H]; [repeat constructor; assumption |].
    destruct (H eq_refl) as [u [Hd [_ [_ Hlast]]]].
    exists u. split; [exact Hd |]. apply Hlast.
    exists [sample_job], []. split; [reflexivity | constructor].
  - destruct (dedup_one_per_key_last_wins [sample_job; list_link_item_job])
      as [H _]; [repeat constructor; assumption |].
    exact (H eq_refl).
Defined.

(** The claim as worded fails on a collected job without identifier whose
    link came as a list: the de-duplication produces no list at all. *)
Lemma dedup_as_claimed_counterexample :
  parse_jsearch_item list_link_item = Ok list_link_item_job /\
  dedup [list_link_item_job] = Raise TypeError /\
  ~ dedup_as_claimed [list_link_item_job].
Proof.
  split; [reflexivity |]. split; [reflexivity |].
  intros [u [H _]]. discriminate H.
Qed.

(** Normalisation yields canonical jobs when the two link fields are
    strings, null or absent. *)
Lemma parse_jsearch_item_canonical (d : list (string * value)) (job : Job.t) :
  is_text (Py.get d "job_apply_link") = true ->
  is_text (Py.get d "job_google_link") = true ->
  parse_jsearch_item (VDict d) = Ok job ->
  canonical job = true.
Proof.
  intros Ha Hg Hp. unfold canonical. apply andb_true_intro. split.
  - pose proof (parse_jsearch_item_external_id _ _ Hp) as Hne.
    destruct (Job.external_id job) as [e |]; [| reflexivity].
    destruct (String.eqb_spec e ""); [subst; congruence | reflexivity].
  - revert Hp. unfold parse_jsearch_item.
    repeat match goal with
           | |- context [rbind (Py.strip ?v) _] =>
               destruct (Py.strip v); cbn [rbind]; [| discriminate]
           end.
    intros H. injection H as <-. cbn [Job.url]. unfold Py.or_.
    destruct (Py.get d "job_apply_link"); try discriminate;
      destruct (Py.get d "job_google_link"); try discriminate; simpl;
      repeat match goal with
             | |- context [negb ?b] => destruct b; simpl
             end; reflexivity.
Qed.

(* ------------------------------------------------------------------ *)
(** ** The digest window query *)

Lemma sql_le_total (x y : option Z) : Sql.le x y = false -> Sql.le y x = true.
Proof.
  destruct x as [a |], y as [b |]; simpl; try discriminate; try reflexivity.
  intros H. apply Z.leb_gt in H. apply Z.leb_le. lia.
Qed.

(** The order of the model's ORDER BY is the order of the data model. *)
Lemma posted_desc_le (a b : Row.t) :
  posted_desc a b <-> Sql.le (Row.posted_at_utc b) (Row.posted_at_utc a) = true.
Proof.
  unfold posted_desc, Sql.le.
  destruct (Row.posted_at_utc a) as [x |], (Row.posted_at_utc b) as [y |].
  - symmetry. apply Z.leb_le.
  - split; auto.
  - split; [intros [] | discriminate].
  - split; auto.
Qed.

Lemma posted_desc_trans : Relations_1.Transitive posted_desc.
Proof.
  intros a b c. unfold posted_desc.
  destruct (Row.posted_at_utc a), (Row.posted_at_utc b), (Row.posted_at_utc c);
    try tauto; lia.
Qed.

Lemma insert_desc_perm (r : Row.t) (l : list Row.t) :
  Permutation (insert_desc r l) (r :: l).
Proof.
  induction l as [| x l IH]; simpl; [reflexivity |].
  destruct (Sql.le (Row.posted_at_utc x) (Row.posted_at_utc r)); [reflexivity |].
  rewrite IH. apply perm_swap.
Qed.

Lemma order_by_posted_desc_perm (l : list Row.t) :
  Permutation (order_by_posted_desc l) l.
Proof.
  induction l as [| x l IH]; simpl; [reflexivity |].
  rewrite insert_desc_perm. constructor. exact IH.
Qed.

Lemma insert_desc_sorted (r : Row.t) (l : list Row.t) :
  Sorted posted_desc l -> Sorted posted_desc (insert_desc r l).
Proof.
  induction l as [| x l IH]; simpl; intros Hs.
  - repeat constructor.
  - destruct (Sql.le (Row.posted_at_utc x) (Row.posted_at_utc r)) eqn:E.
    + constructor; [exact Hs | constructor; apply posted_desc_le; exact E].
    + inversion Hs as [| ? ? Hs' Hhd]; subst.
      constructor; [apply IH; exact Hs' |].
      destruct l as [| y l]; simpl.
      * constructor. apply posted_desc_le, sql_le_total. exact E.
      * destruct (Sql.le (Row.posted_at_utc y) (Row.posted_at_utc r)).
        -- constructor. apply posted_desc_le, sql_le_total. exact E.
        -- inversion Hhd; subst. constructor. assumption.
Qed.

Lemma order_by_posted_desc_sorted (l : list Row.t) :
  StronglySorted posted_desc (order_by_posted_desc l).
Proof.
  apply Sorted_StronglySorted; [exact posted_desc_trans |].
  induction l as [| x l IH]; simpl; [constructor |].
  apply insert_desc_sorted. exact IH.
Qed.

Lemma StronglySorted_app_inv {A : Type} (R : A -> A -> Prop) (l1 l2 : list A) :
  StronglySorted R (l1 ++ l2) ->
  StronglySorted R l1 /\ (forall a b, In a l1 -> In b l2 -> R a b).
Proof.
  induction l1 as [| x l1 IH]; simpl; intros H.
  - split; [constructor | intros a b []].
  - inversion H as [| ? ? Hs Hall]; subst.
    destruct (IH Hs) as [Hs1 Hcross]. split.
    + constructor; [exact Hs1 |].
      rewrite Forall_forall in *. intros y Hy. apply Hall.
      apply in_or_app. auto.
    + intros a b [<- | Ha] Hb.
      * rewrite Forall_forall in Hall. apply Hall. apply in_or_app. auto.
      * apply Hcross; assumption.
Qed.

Lemma created_since_spec (since_ts : Z) (r : Row.t) :
  created_since since_ts r = true <->
  exists c, Row.created_at_utc r = Some c /\ since_ts <= c.
Proof.
  unfold created_since, Sql.ge. destruct (Row.created_at_utc r) as [c |].
  - rewrite Z.leb_le. split.
    + intros H. exists c. auto.
    + intros [c' [E H]]. injection E as <-. exact H.
  - split; [discriminate | intros [c [E _]]; discriminate].
Qed.

(** The WHERE clause of the model selects the rows of the window. *)
Lemma created_since_in_window (since_ts : Z) (s : Store) :
  filter (created_since since_ts) s = filter (in_window since_ts) s.
Proof.
  apply filter_ext. intros r. unfold created_since, Sql.ge, in_window.
  destruct (Row.created_at_utc r); reflexivity.
Qed.

Lemma project_columns (l : list Row.t) :
  List.map project l = List.map selected_columns l.
Proof. apply map_ext. intros r. reflexivity. Qed.

Lemma int64_fits (z : Z) : Sql.int64 z = true <-> fits_int64 z.
Proof.
  unfold Sql.int64, fits_int64. rewrite andb_true_iff, Z.leb_le, Z.ltb_lt.
  reflexivity.
Qed.

(** The SELECT on a table: what it returns, in which order and how many. *)
Lemma select_since_spec (s : Store) (since_ts limit : Z) :
  exists selected rest : list Row.t,
    select_since s since_ts limit = List.map selected_columns selected /\
    Permutation (selected ++ rest) (filter (in_window since_ts) s) /\
    StronglySorted posted_desc selected /\
    (forall a b, In a selected -> In b rest -> posted_desc a b) /\
    (0 <= limit ->
     List.length selected =
       Nat.min (Z.to_nat limit) (List.length (filter (in_window since_ts) s))) /\
    (limit < 0 -> rest = []).
Proof.
  rewrite <- created_since_in_window.
  set (matching := filter (created_since since_ts) s).
  set (sorted := order_by_posted_desc matching).
  assert (Hperm : Permutation sorted matching)
    by apply order_by_posted_desc_perm.
  assert (Hsorted : StronglySorted posted_desc sorted)
    by apply order_by_posted_desc_sorted.
  unfold select_since, limit_rows. fold matching. fold sorted.
  destruct (Z.ltb_spec limit 0) as [Hneg | Hpos].
  - exists sorted, []. rewrite app_nil_r.
    split; [apply project_columns |]. split; [exact Hperm |].
    split; [exact Hsorted |]. split; [intros a b _ [] |].
    split; [lia | reflexivity].
  - exists (firstn (Z.to_nat limit) sorted), (skipn (Z.to_nat limit) sorted).
    rewrite firstn_skipn.
    rewrite <- (firstn_skipn (Z.to_nat limit) sorted) in Hsorted.
    apply StronglySorted_app_inv in Hsorted. destruct Hsorted as [Hs Hcross].
    split; [apply project_columns |]. split; [exact Hperm |].
    split; [exact Hs |]. split; [exact Hcross |].
    split; [| lia].
    intros _. rewrite length_firstn. rewrite (Permutation_length Hperm).
    reflexivity.
Qed.

(** The window of the worked example: of three rows created 1, 3 and 10
    hours before [now_utc], the first alone is in the window that starts 2
    hours before [now_utc]. *)
Lemma select_since_example (limit now_utc : Z) (r1 r2 r3 : Row.t) :
  limit <> 0 ->
  Row.created_at_utc r1 = Some (now_utc - 1 * 3600) ->
  Row.created_at_utc r2 = Some (now_utc - 3 * 3600) ->
  Row.created_at_utc r3 = Some (now_utc - 10 * 3600) ->
  select_since [r1; r2; r3] (now_utc - 2 * 3600) limit = [selected_columns r1].
Proof.
  intros H1 E1 E2 E3.
  assert (C1 : created_since (now_utc - 2 * 3600) r1 = true).
  { apply created_since_spec. exists (now_utc - 1 * 3600). split; [exact E1 | lia]. }
  assert (C2 : created_since (now_utc - 2 * 3600) r2 = false).
  { unfold created_since. rewrite E2. apply Z.leb_gt. lia. }
  assert (C3 : created_since (now_utc - 2 * 3600) r3 = false).
  { unfold created_since. rewrite E3. apply Z.leb_gt. lia. }
  unfold select_since. cbn [filter]. rewrite C1, C2, C3.
  unfold limit_rows. destruct (Z.ltb_spec limit 0); [reflexivity |].
  destruct (Z.to_nat limit) as [| n] eqn:En; [lia |].
  cbn. rewrite firstn_nil. reflexivity.
Qed.

Lemma trunc_inject_Z (z : Z) : trunc (inject_Z z) = z.
Proof. unfold trunc, inject_Z. simpl. apply Z.quot_1_r. Qed.

Lemma Qle_bool_inject_Z (a b : Z) :
  Qle_bool (inject_Z a) (inject_Z b) = (a <=? b).
Proof.
  unfold Qle_bool, inject_Z. cbn [Qnum Qden]. rewrite !Z.mul_1_r. reflexivity.
Qed.

(** The window start for a clock on a whole second and a whole number of
    hours. *)
Lemma window_start_whole (now_utc hours : Z) :
  Datetime.min_ts <= now_utc - 3600 * hours < Datetime.end_ts ->
  window_start (inject_Z now_utc) (inject_Z hours) = Ok (now_utc - 3600 * hours).
Proof.
  intros [Hlo Hhi]. unfold window_start.
  assert (E : (inject_Z now_utc - inject_Z hours * 3600)%Q
              = inject_Z (now_utc - 3600 * hours)).
  { unfold inject_Z, Qminus, Qplus, Qopp, Qmult. cbn [Qnum Qden].
    rewrite Pos.mul_1_r. f_equal. lia. }
  rewrite E, trunc_inject_Z.
  rewrite !Qle_bool_inject_Z.
  destruct (Z.leb_spec Datetime.min_ts (now_utc - 3600 * hours)); [| lia].
  destruct (Z.leb_spec Datetime.end_ts (now_utc - 3600 * hours)); [lia |].
  reflexivity.
Qed.

Lemma datetime_range_int64 (z : Z) :
  Datetime.min_ts <= z < Datetime.end_ts -> Sql.int64 z = true.
Proof.
  unfold Datetime.min_ts, Datetime.end_ts, Sql.int64. intros [Hlo Hhi].
  apply andb_true_intro. split; [apply Z.leb_le | apply Z.ltb_lt]; lia.
Qed.

Lemma fetch_unsent_jobs_since_select (cfg : Config) (since_ts : Z) (st : State) :
  Sql.int64 since_ts = true ->
  Sql.int64 (MAX_RESULTS_PER_RUN cfg) = true ->
  fetch_unsent_jobs_since cfg since_ts st
  = (Ok (select_since (db st) since_ts (MAX_RESULTS_PER_RUN cfg)), st).
Proof.
  intros H1 H2. unfold fetch_unsent_jobs_since, bind, lift, Sql.bind_int.
  rewrite H1, H2. reflexivity.
Qed.

Lemma fetch_unsent_jobs_since_unbindable (cfg : Config) (since_ts : Z) (st : State) :
  Sql.int64 since_ts = false \/ Sql.int64 (MAX_RESULTS_PER_RUN cfg) = false ->
  fetch_unsent_jobs_since cfg since_ts st = (Raise OverflowError, st).
Proof.
  intros H. unfold fetch_unsent_jobs_since, bind, lift, Sql.bind_int.
  destruct (Sql.int64 since_ts); [| reflexivity].
  destruct (Sql.int64 (MAX_RESULTS_PER_RUN cfg)); [| reflexivity].
  destruct H; discriminate.
Qed.

(** Claim C2, as the code has it.  Timestamp and limit are bound as SQLite
    INTEGERs: when one of them is outside 64 bits the query raises
    [OverflowError].  Otherwise [fetch_unsent_jobs_since] returns the five
    selected columns of rows of the store created at or after the
    timestamp, each such row at most once, in descending order of
    [posted_at_utc] with NULL last, no row left out having been posted
    later than a row returned; with a limit of 0 or more it returns as
    many as the limit allows, with a negative limit it returns them all.
    The state is left as it was.  With rows created 1, 3 and 10 hours
    before [now], a run interval of 2 hours and a limit other than 0, the
    window starts 2 hours before [now] and the first row alone is
    selected. *)
Theorem fetch_unsent_jobs_since_window_ordered_capped :
  forall (cfg : Config) (st : State) (since_ts : Z),
    let limit := MAX_RESULTS_PER_RUN cfg in
    let matching := filter (in_window since_ts) (db st) in
    (~ (fits_int64 since_ts /\ fits_int64 limit) ->
     fetch_unsent_jobs_since cfg since_ts st = (Raise OverflowError, st)) /\
    (fits_int64 since_ts -> fits_int64 limit ->
     exists selected rest : list Row.t,
       fetch_unsent_jobs_since cfg since_ts st
         = (Ok (List.map selected_columns selected), st) /\
       Permutation (selected ++ rest) matching /\
       StronglySorted posted_desc selected /\
       (forall a b, In a selected -> In b rest -> posted_desc a b) /\
       (0 <= limit ->
        List.length selected = Nat.min (Z.to_nat limit) (List.length matching)) /\
       (limit < 0 -> rest = [])) /\
    (forall (now_utc : Z) (r1 r2 r3 : Row.t),
       fits_int64 limit -> limit <> 0 ->
       RUN_EVERY_HOURS cfg = inject_Z 2 ->
       -62135596800 <= now_utc - 3600 * 2 < 253402300800 ->
       db st = [r1; r2; r3] ->
       Row.created_at_utc r1 = Some (now_utc - 1 * 3600) ->
       Row.created_at_utc r2 = Some (now_utc - 3 * 3600) ->
       Row.created_at_utc r3 = Some (now_utc - 10 * 3600) ->
       exists window : Z,
         window_start (inject_Z now_utc) (RUN_EVERY_HOURS cfg) = Ok window /\
         window = now_utc - 2 * 3600 /\
         fetch_unsent_jobs_since cfg window st = (Ok [selected_columns r1], st)).
Proof.
  intros cfg st since_ts limit matching.
  split; [| split].
  - intros Hno. apply fetch_unsent_jobs_since_unbindable.
    destruct (Sql.int64 since_ts) eqn:E1; [| auto].
    destruct (Sql.int64 (MAX_RESULTS_PER_RUN cfg)) eqn:E2; [| auto].
    exfalso. apply Hno. split; apply int64_fits; assumption.
  - intros Hsince Hlimit. apply int64_fits in Hsince, Hlimit.
    destruct (select_since_spec (db st) since_ts limit)
      as [selected [rest [Hsel H]]].
    exists selected, rest. split; [| exact H].
    rewrite (fetch_unsent_jobs_since_select _ _ _ Hsince Hlimit).
    fold limit. rewrite Hsel. reflexivity.
  - intros now_utc r1 r2 r3 Hlimit Hnz Hrun Hrange Hdb E1 E2 E3.
    apply int64_fits in Hlimit.
    exists (now_utc - 2 * 3600). rewrite Hrun.
    split; [| split; [reflexivity |]].
    + rewrite (window_start_whole now_utc 2 Hrange). f_equal; lia.
    + rewrite fetch_unsent_jobs_since_select;
        [| apply datetime_range_int64;
           unfold Datetime.min_ts, Datetime.end_ts; lia | exact Hlimit].
      rewrite Hdb. f_equal. f_equal.
      apply select_since_example; assumption.
Qed.

Lemma fetch_unsent_jobs_since_window_ordered_capped_witness :
  fetch_unsent_jobs_since default_config (sample_now - 2 * 3600) window_state
  = (Ok [selected_columns row_1h], window_state) /\
  fetch_unsent_jobs_since default_config (2 ^ 63) window_state
  = (Raise OverflowError, window_state).
Proof.
  destruct (fetch_unsent_jobs_since_window_ordered_capped
              default_config window_state (sample_now - 2 * 3600))
    as [_ [_ Hex]].
  destruct (fetch_unsent_jobs_since_window_ordered_capped
              default_config window_state (2 ^ 63))
    as [Hraise _].
  assert (H1 : fits_int64 (MAX_RESULTS_PER_RUN default_config))
    by (unfold fits_int64; cbn; lia).
  assert (H2 : MAX_RESULTS_PER_RUN default_config <> 0) by discriminate.
  assert (H3 : -62135596800 <= sample_now - 3600 * 2 < 253402300800)
    by (unfold sample_now; lia).
  assert (H4 : ~ (fits_int64 (2 ^ 63) /\
                  fits_int64 (MAX_RESULTS_PER_RUN default_config)))
    by (unfold fits_int64; intros [[_ H] _]; lia).
  split.
  - destruct (Hex sample_now row_1h row_3h row_10h H1 H2 eq_refl H3 eq_refl
                eq_refl eq_refl eq_refl) as [w [_ [-> H]]].
    exact H.
  - exact (Hraise H4).
Defined.

(** The claim as worded fails on a negative limit, which SQLite reads as
    no limit: all three rows come back. *)
Lemma window_query_as_claimed_counterexample :
  fetch_unsent_jobs_since unlimited_config (sample_now - 11 * 3600) window_state
  = (Ok [selected_columns row_10h; selected_columns row_3h;
         selected_columns row_1h], window_state) /\
  ~ window_query_as_claimed unlimited_config window_state (sample_now - 11 * 3600).
Proof.
  assert (H : fetch_unsent_jobs_since unlimited_config (sample_now - 11 * 3600)
                window_state
              = (Ok [selected_columns row_10h; selected_columns row_3h;
                     selected_columns row_1h], window_state))
    by (vm_compute; reflexivity).
  split; [exact H |].
  intros [rows [Hrows Hcap]]. rewrite H in Hrows. cbn [fst] in Hrows.
  injection Hrows as <-. cbn in Hcap. lia.
Qed.

(* ------------------------------------------------------------------ *)
(** ** The store: idempotent insert and the two unique indexes *)

Local Open Scope list_scope.

Lemma sql_same_sym (a b : option string) : Sql.same a b = Sql.same b a.
Proof. destruct a, b; simpl; auto using String.eqb_sym. Qed.

Lemma conflict_sym (a b : Row.t) : conflict a b = conflict b a.
Proof.
  unfold conflict, uq_jobs_source_external, uq_jobs_fallback.
  rewrite (String.eqb_sym (Row.source a)).
  rewrite (sql_same_sym (Row.external_id a)), (sql_same_sym (Row.title a)),
    (sql_same_sym (Row.company a)), (sql_same_sym (Row.location a)),
    (sql_same_sym (Row.url a)).
  reflexivity.
Qed.

Lemma conflict_same_keys (a b x : Row.t) :
  same_keys a b -> conflict a x = conflict b x.
Proof.
  intros [H1 [H2 [H3 [H4 [H5 H6]]]]].
  unfold conflict, uq_jobs_source_external, uq_jobs_fallback.
  rewrite H1, H2, H3, H4, H5, H6. reflexivity.
Qed.

Lemma existsb_conflict_same_keys (a b : Row.t) (s : Store) :
  same_keys a b -> existsb (conflict a) s = existsb (conflict b) s.
Proof.
  intros H. induction s as [| x s IH]; simpl; [reflexivity |].
  rewrite IH, (conflict_same_keys a b x H). reflexivity.
Qed.

Lemma indexes_hold_snoc (s : Store) (r : Row.t) :
  indexes_hold s = true -> existsb (conflict r) s = false ->
  indexes_hold (s ++ [r]) = true.
Proof.
  induction s as [| x s IH]; simpl; intros Hs Hr; [reflexivity |].
  apply andb_prop in Hs. destruct Hs as [Hx Hs].
  apply orb_false_elim in Hr. destruct Hr as [Hrx Hr].
  rewrite (IH Hs Hr), existsb_app. simpl.
  rewrite (conflict_sym x r), Hrx.
  apply negb_true_iff in Hx. rewrite Hx. reflexivity.
Qed.

Lemma insert_or_ignore_indexes_hold (s : Store) (r : Row.t) :
  indexes_hold s = true -> indexes_hold (snd (insert_or_ignore s r)) = true.
Proof.
  intros Hs. unfold insert_or_ignore.
  destruct (existsb (conflict r) s) eqn:E; simpl; [exact Hs |].
  apply indexes_hold_snoc; [exact Hs |].
  rewrite <- E. apply existsb_conflict_same_keys. repeat split.
Qed.

Lemma insert_job_indexes_hold (env : Env) (j : Job.t) (st : State) :
  indexes_hold (db st) = true ->
  indexes_hold (db (snd (insert_job env j st))) = true.
Proof.
  intros Hs. unfold insert_job, bind, lift, now, get_state. simpl.
  destruct (Sql.bind_text (Job.url j)) as [u | e]; simpl; [| exact Hs].
  destruct (Sql.bind_int (Job.posted_at_utc j)) as [p | e]; simpl; [| exact Hs].
  match goal with
  | |- context [insert_or_ignore ?s ?r] =>
      pose proof (insert_or_ignore_indexes_hold s r Hs) as H;
      destruct (insert_or_ignore s r) as [n s']
  end.
  simpl in *. exact H.
Qed.

(** Every insert keeps both unique indexes. *)
Lemma save_loop_indexes_hold (env : Env) (jobs : list Job.t) :
  forall (inserted : Z) (st : State),
    indexes_hold (db st) = true ->
    indexes_hold (db (snd (save_loop env jobs inserted st))) = true.
Proof.
  induction jobs as [| j jobs IH]; intros inserted st Hs; simpl; [exact Hs |].
  unfold bind at 1. unfold try_except.
  pose proof (insert_job_indexes_hold env j st Hs) as Hj.
  unfold bind at 1.
  destruct (insert_job env j st) as [[n | e] st1]; simpl in *.
  - apply IH. exact Hj.
  - destruct (is_Exception e); simpl.
    + destruct e; simpl; apply IH; exact Hj.
    + exact Hj.
Qed.

Lemma insert_or_ignore_count (s : Store) (r : Row.t) :
  (if 0 <? fst (insert_or_ignore s r) then 0 + 1 else 0)
  = fst (insert_or_ignore s r).
Proof.
  unfold insert_or_ignore. destruct (existsb (conflict r) s); reflexivity.
Qed.

(** One call of the store insert on a job that binds. *)
Lemma save_jobs_single (env : Env) (j : Job.t) (st : State) (u : option string) :
  Sql.bind_text (Job.url j) = Ok u ->
  Sql.int64 (Job.posted_at_utc j) = true ->
  let r := row_of_job j u (Job.posted_at_utc j) (trunc (clock env (ticks st))) in
  save_jobs env [j] st
  = (Ok (fst (insert_or_ignore (db st) r)),
     {| db := snd (insert_or_ignore (db st) r); log := log st;
        outbox := outbox st; ticks := S (ticks st); slept := slept st;
        collected := collected st |}).
Proof.
  intros Hu Hp r. unfold save_jobs, save_loop, bind, try_except, insert_job,
    bind, lift, now, get_state, Sql.bind_int.
  rewrite Hu, Hp. cbn [fst snd db log outbox ticks slept collected].
  fold r. pose proof (insert_or_ignore_count (db st) r) as Hc.
  destruct (insert_or_ignore (db st) r) as [n s']. simpl in *.
  rewrite Hc. reflexivity.
Qed.

Lemma opt_eqb_same (a : option string) (x : string) :
  opt_eqb a (Some x) = true -> Sql.same (Some x) a = true.
Proof.
  destruct a as [y |]; simpl; [| discriminate].
  rewrite String.eqb_sym. auto.
Qed.

Lemma holds_job_conflict (j : Job.t) (u : string) (p c : Z) (x : Row.t) :
  Sql.bind_text (Job.url j) = Ok (Some u) ->
  holds_job j x = true ->
  conflict (row_of_job j (Some u) p c) x = true.
Proof.
  intros Hu H. unfold holds_job in H. rewrite Hu in H.
  repeat (apply andb_prop in H; destruct H as [H ?H]).
  unfold conflict, uq_jobs_fallback, row_of_job.
  cbn [Row.title Row.company Row.location Row.url].
  repeat match goal with
         | E : opt_eqb _ (Some _) = true |- _ => apply opt_eqb_same in E
         end.
  repeat match goal with
         | E : Sql.same _ _ = true |- _ => rewrite E; clear E
         end.
  apply orb_true_r.
Qed.

Lemma row_of_job_self_conflict (j : Job.t) (u : string) (p c p' c' i : Z) :
  let r := row_of_job j (Some u) p c in
  conflict (row_of_job j (Some u) p' c')
    {| Row.id := i; Row.source := Row.source r;
       Row.external_id := Row.external_id r; Row.title := Row.title r;
       Row.company := Row.company r; Row.location := Row.location r;
       Row.url := Row.url r; Row.posted_at_utc := Row.posted_at_utc r;
       Row.description := Row.description r;
       Row.created_at_utc := Row.created_at_utc r |} = true.
Proof.
  unfold conflict, uq_jobs_fallback. simpl.
  rewrite !String.eqb_refl. apply orb_true_r.
Qed.

Lemma row_of_job_same_keys (j : Job.t) (u : option string) (p c p' c' : Z) :
  same_keys (row_of_job j u p c) (row_of_job j u p' c').
Proof. repeat split. Qed.

Lemma filter_none {A : Type} (f : A -> bool) (l : list A) :
  (forall x, In x l -> f x = false) -> filter f l = [].
Proof.
  induction l as [| a l IH]; simpl; intros H; [reflexivity |].
  rewrite (H a (or_introl eq_refl)). apply IH. auto.
Qed.

(** Claim C1, as the code has it.  For a job the driver can bind and a
    store on which both unique indexes hold: when no stored row shares a
    unique key with the job, the first insert reports one new row and the
    store then has exactly one row for it; when some row does, the first
    insert reports none and leaves the store alone.  In both cases the
    second insert reports none, changes nothing and logs nothing.  Both
    indexes hold after each insert, and after [save_jobs] on any list. *)
Theorem save_jobs_twice_inserts_once :
  forall (env : Env) (st : State) (j : Job.t),
    indexes_hold (db st) = true ->
    storable j = true ->
    let first := save_jobs env [j] st in
    let second := save_jobs env [j] (snd first) in
    (fresh j (db st) = true ->
       fst first = Ok 1 /\
       List.length (db (snd first)) = S (List.length (db st)) /\
       List.length (filter (holds_job j) (db (snd second))) = 1%nat) /\
    (fresh j (db st) = false -> fst first = Ok 0 /\ db (snd first) = db st) /\
    fst second = Ok 0 /\
    db (snd second) = db (snd first) /\
    log (snd second) = log st /\
    indexes_hold (db (snd first)) = true /\
    indexes_hold (db (snd second)) = true /\
    (forall jobs : list Job.t,
       indexes_hold (db (snd (save_jobs env jobs st))) = true).
Proof.
  intros env st j Hs Hst first second.
  unfold storable in Hst.
  destruct (Sql.bind_text (Job.url j)) as [[u |] | e] eqn:Hu; try discriminate.
  pose proof (save_jobs_single env j st (Some u) Hu Hst) as H1.
  cbv zeta in H1. fold first in H1.
  set (r1 := row_of_job j (Some u) (Job.posted_at_utc j)
               (trunc (clock env (ticks st)))) in *.
  assert (Hfresh : fresh j (db st) = negb (existsb (conflict r1) (db st))).
  { unfold fresh. rewrite Hu. f_equal; apply existsb_conflict_same_keys;
      apply row_of_job_same_keys. }
  pose proof (save_jobs_single env j (snd first) (Some u) Hu Hst) as H2.
  cbv zeta in H2. fold second in H2.
  set (r2 := row_of_job j (Some u) (Job.posted_at_utc j)
               (trunc (clock env (ticks (snd first))))) in *.
  assert (Hinv1 : indexes_hold (db (snd first)) = true).
  { rewrite H1. simpl. apply insert_or_ignore_indexes_hold. exact Hs. }
  assert (Hdup : existsb (conflict r2) (db (snd first)) = true).
  { rewrite H1. simpl. unfold insert_or_ignore.
    destruct (existsb (conflict r1) (db st)) eqn:E; simpl.
    - rewrite <- E. apply existsb_conflict_same_keys. apply row_of_job_same_keys.
    - rewrite existsb_app. apply orb_true_iff. right.
      cbn [existsb]. rewrite orb_false_r.
      apply (row_of_job_self_conflict j u). }
  assert (Hsecond : insert_or_ignore (db (snd first)) r2 = (0, db (snd first))).
  { unfold insert_or_ignore. rewrite Hdup. reflexivity. }
  rewrite Hsecond in H2. simpl in H2.
  split; [| split; [| split; [| split; [| split; [| split; [| split]]]]]].
  - intros Hf. rewrite Hfresh in Hf. apply negb_true_iff in Hf.
    rewrite H2, H1. simpl. unfold insert_or_ignore. rewrite Hf. simpl.
    split; [reflexivity |]. split.
    + rewrite length_app. simpl. lia.
    + rewrite filter_app. rewrite filter_none.
      * simpl. unfold holds_job. simpl. rewrite Hu. simpl.
        rewrite !String.eqb_refl, Z.eqb_refl.
        destruct (Job.external_id j); simpl; rewrite ?String.eqb_refl; reflexivity.
      * intros x Hx. destruct (holds_job j x) eqn:Eh; [| reflexivity].
        exfalso.
        pose proof (holds_job_conflict j u (Job.posted_at_utc j)
                      (trunc (clock env (ticks st))) x Hu Eh) as Hc.
        fold r1 in Hc.
        assert (Hex : existsb (conflict r1) (db st) = true).
        { apply existsb_exists. exists x. auto. }
        congruence.
  - intros Hf. rewrite Hfresh in Hf. apply negb_false_iff in Hf.
    rewrite H1. simpl. unfold insert_or_ignore. rewrite Hf. auto.
  - rewrite H2. reflexivity.
  - rewrite H2. reflexivity.
  - rewrite H2, H1. reflexivity.
  - exact Hinv1.
  - rewrite H2. simpl. exact Hinv1.
  - intros jobs. apply save_loop_indexes_hold. exact Hs.
Qed.

(** The claim as worded fails on a store that has the job already: the
    first of the two inserts is suppressed too. *)
Lemma insert_twice_as_claimed_counterexample :
  indexes_hold (db seen_state) = true /\
  storable sample_job = true /\
  fst (save_jobs sample_env [sample_job] seen_state) = Ok 0 /\
  ~ insert_twice_as_claimed sample_env seen_state sample_job.
Proof.
  split; [reflexivity |]. split; [reflexivity |]. split; [reflexivity |].
  intros [H _]. vm_compute in H. discriminate H.
Qed.

Lemma save_jobs_twice_inserts_once_witness :
  fst (save_jobs sample_env [sample_job] empty_state) = Ok 1 /\
  fst (save_jobs sample_env [sample_job]
         (snd (save_jobs sample_env [sample_job] empty_state))) = Ok 0 /\
  fst (save_jobs sample_env [sample_job] seen_state) = Ok 0.
Proof.
  pose proof (save_jobs_twice_inserts_once sample_env empty_state sample_job
                eq_refl eq_refl) as H.
  pose proof (save_jobs_twice_inserts_once sample_env seen_state sample_job
                eq_refl eq_refl) as H'.
  cbv zeta in H, H'.
  destruct H as [Hfresh [_ [Hsecond _]]]. destruct H' as [_ [Hseen _]].
  split; [apply Hfresh; reflexivity |].
  split; [exact Hsecond |]. apply Hseen. reflexivity.
Defined.

(* ------------------------------------------------------------------ *)
(** ** The run cycle: what its catch-all absorbs *)

Lemma run_body_phases (cfg : Config) (env : Env) (st : State) :
  run_body cfg env st
  = bind (fetch_and_store cfg env) (fun _ => digest cfg env) st.
Proof.
  unfold run_body, fetch_and_store, bind.
  destruct (init_db env st) as [[[] | e] st1]; [| reflexivity].
  destruct (collect cfg env st1) as [[[] | e] st2]; [| reflexivity].
  destruct (persist env st2) as [[[] | e] st3]; reflexivity.
Qed.

Lemma init_db_raise_state (env : Env) (st : State) (e : exn) :
  fst (init_db env st) = Raise e -> init_db env st = (Raise e, st).
Proof.
  unfold init_db. destruct (connect env) as [e' |].
  - unfold raise. simpl. intros H. injection H as ->. reflexivity.
  - unfold bind, get_state, ret, raise.
    destruct (indexes_hold (db st)); simpl; intros H; [discriminate |].
    injection H as <-. reflexivity.
Qed.

(** A run either returns, or is cut by something that is not an
    [Exception]; its effect on store and outbox is that of its body. *)
Lemma search_and_notify_outcome (cfg : Config) (env : Env) (st : State) :
  (fst (search_and_notify cfg env st) = Ok tt \/
   exists e, fst (search_and_notify cfg env st) = Raise e /\
             is_Exception e = false) /\
  db (snd (search_and_notify cfg env st)) = db (snd (run_body cfg env st)) /\
  outbox (snd (search_and_notify cfg env st)) = outbox (snd (run_body cfg env st)).
Proof.
  unfold search_and_notify, try_except.
  destruct (run_body cfg env st) as [[[] | e] st1]; simpl.
  - auto.
  - destruct (is_Exception e) eqn:E; simpl; [auto |].
    split; [right; exists e; auto | auto].
Qed.

(** Claim C6, as the code has it.  [init_db] is called inside the [try] of
    the cycle, so an [Exception] it raises, on the first run as on any
    other, is absorbed like every other error of a run: two ERROR entries
    are logged, store and outbox stay as they were, the call returns and
    start-up goes on to the scheduler.  No [Exception] ever leaves a run;
    a failure of [scheduler.start] does end start-up. *)
Theorem init_db_failure_absorbed_by_run :
  forall (cfg : Config) (env : Env) (st : State),
    (forall e,
       fst (init_db env st) = Raise e -> is_Exception e = true ->
       fst (search_and_notify cfg env st) = Ok tt /\
       log (snd (search_and_notify cfg env st)) = log st ++ fatal_entries e /\
       db (snd (search_and_notify cfg env st)) = db st /\
       outbox (snd (search_and_notify cfg env st)) = outbox st /\
       (scheduler_start env = None -> fst (main_startup cfg env st) = Ok tt)) /\
    (forall e,
       fst (search_and_notify cfg env st) = Raise e -> is_Exception e = false) /\
    (forall e,
       scheduler_start env = Some e ->
       fst (search_and_notify cfg env
              (snd (logging INFO "Job Hunter starting" None st))) = Ok tt ->
       fst (main_startup cfg env st) = Raise e).
Proof.
  intros cfg env st. split; [| split].
  - intros e Hinit He.
    assert (Hrun : forall st0, fst (init_db env st0) = Raise e ->
              search_and_notify cfg env st0
              = (Ok tt,
                 {| db := db st0; log := (log st0 ++ fatal_entries e);
                    outbox := outbox st0; ticks := ticks st0;
                    slept := slept st0; collected := collected st0 |})).
    { intros st0 H0. apply init_db_raise_state in H0.
      unfold search_and_notify, try_except, run_body, bind at 1.
      rewrite H0, He. unfold bind, logging. simpl.
      rewrite <- app_assoc. reflexivity. }
    rewrite (Hrun st Hinit). simpl. repeat split; try reflexivity.
    intros Hsched. unfold main_startup, bind. simpl.
    rewrite Hrun.
    + rewrite Hsched. reflexivity.
    + revert Hinit. unfold init_db. destruct (connect env); [auto |].
      unfold bind, get_state. simpl.
      destruct (indexes_hold (db st)); auto.
  - intros e H.
    destruct (search_and_notify_outcome cfg env st) as [[Hok | [e' [Hr He']]] _].
    + congruence.
    + congruence.
  - intros e Hsched Hok. unfold main_startup, bind.
    destruct (logging INFO "Job Hunter starting" None st) as [[[] | e0] st0] eqn:El;
      [| discriminate El].
    simpl in Hok.
    destruct (search_and_notify cfg env st0) as [[[] | e1] st1]; simpl in *.
    + rewrite Hsched. reflexivity.
    + discriminate Hok.
Qed.

(** [init_db] raises on the first run and start-up completes all the
    same. *)
Lemma init_failure_is_fatal_counterexample :
  fst (init_db locked_env empty_state)
    = Raise (SqliteError "unable to open database file") /\
  fst (main_startup default_config locked_env empty_state) = Ok tt /\
  ~ init_failure_is_fatal default_config locked_env empty_state.
Proof.
  split; [reflexivity |]. split; [reflexivity |].
  intros H.
  specialize (H (SqliteError "unable to open database file") eq_refl).
  vm_compute in H. discriminate H.
Qed.

Lemma init_db_failure_absorbed_by_run_witness :
  fst (search_and_notify default_config locked_env empty_state) = Ok tt /\
  fst (main_startup default_config locked_env empty_state) = Ok tt.
Proof.
  destruct (init_db_failure_absorbed_by_run default_config locked_env empty_state)
    as [H _].
  destruct (H (SqliteError "unable to open database file") eq_refl eq_refl)
    as [H1 [_ [_ [_ H2]]]].
  split; [exact H1 | apply H2; reflexivity].
Defined.

(* ------------------------------------------------------------------ *)
(** ** The notifier without a mail host *)

Lemma fmt_time_raises (ts : option Z) (e : exn) :
  fmt_time ts = Raise e -> e = DateRangeError.
Proof.
  unfold fmt_time. destruct ts as [t |]; [| discriminate].
  repeat match goal with
         | |- context [if ?b then _ else _] => destruct b
         end; congruence.
Qed.

Lemma render_rows_raises (rows : list digest_row) (e : exn) :
  render_rows rows = Raise e -> e = DateRangeError.
Proof.
  induction rows as [| [[[[t c] l] u] ts] rows IH]; simpl; [discriminate |].
  destruct (fmt_time ts) as [posted |] eqn:E; simpl.
  - destruct (render_rows rows); simpl; [discriminate |].
    intros H. apply IH. congruence.
  - intros H. apply (fmt_time_raises ts). congruence.
Qed.

Lemma render_email_html_raises (env : Env) (rows : list digest_row) (e : exn) :
  render_email_html env rows = Raise e -> e = DateRangeError.
Proof.
  unfold render_email_html.
  destruct (render_rows rows) eqn:E; simpl; [discriminate |].
  intros H. apply (render_rows_raises rows). congruence.
Qed.

Lemma send_email_unconfigured (cfg : Config) (env : Env) (subject html : string)
      (st : State) :
  SMTP_HOST cfg = ""%string ->
  send_email cfg env subject html st
  = (Ok tt, {| db := db st; log := log st ++ [smtp_host_missing];
               outbox := outbox st; ticks := ticks st; slept := slept st;
               collected := collected st |}).
Proof. intros H. unfold send_email. rewrite H. reflexivity. Qed.

(** Without a mail host the digest phase touches neither store nor outbox
    and raises nothing the catch-all lets through. *)
Lemma digest_unconfigured (cfg : Config) (env : Env) (st : State) :
  SMTP_HOST cfg = ""%string ->
  db (snd (digest cfg env st)) = db st /\
  outbox (snd (digest cfg env st)) = outbox st /\
  (forall e, fst (digest cfg env st) = Raise e -> is_Exception e = true).
Proof.
  intros Hhost. unfold digest, bind, now, lift. simpl.
  unfold window_start.
  match goal with |- context [if ?b then Ok _ else _] => destruct b end;
    [| simpl; repeat split; intros e H; injection H as <-; reflexivity].
  unfold fetch_unsent_jobs_since, bind, lift, get_state, ret, Sql.bind_int.
  match goal with |- context [Sql.int64 ?z] => destruct (Sql.int64 z) end;
    [| simpl; repeat split; intros e H; injection H as <-; reflexivity].
  destruct (Sql.int64 (MAX_RESULTS_PER_RUN cfg));
    [| simpl; repeat split; intros e H; injection H as <-; reflexivity].
  simpl.
  match goal with |- context [select_since ?s ?a ?b] =>
    destruct (select_since s a b) as [| r rows] end.
  - simpl. repeat split. intros e H. discriminate H.
  - destruct (render_email_html env (r :: rows)) as [html | e0] eqn:Er.
    + rewrite send_email_unconfigured by exact Hhost.
      simpl. repeat split. intros e H. discriminate H.
    + apply render_email_html_raises in Er. subst e0.
      simpl. repeat split. intros e H. injection H as <-. reflexivity.
Qed.

(** Claim C8.  With no mail host configured, [send_email] returns without
    raising, logs one ERROR entry and leaves store and outbox alone; and a
    run whose persistence phase completed returns normally with the store
    exactly as persistence left it, every persisted row still there, and
    nothing sent. *)
Theorem send_email_unconfigured_keeps_store :
  forall (cfg : Config) (env : Env),
    SMTP_HOST cfg = ""%string ->
    (forall (subject html : string) (st : State),
       let st' := snd (send_email cfg env subject html st) in
       fst (send_email cfg env subject html st) = Ok tt /\
       log st' = log st ++ [smtp_host_missing] /\
       db st' = db st /\ outbox st' = outbox st) /\
    (forall st : State,
       fst (fetch_and_store cfg env st) = Ok tt ->
       let stored := snd (fetch_and_store cfg env st) in
       let final := snd (search_and_notify cfg env st) in
       fst (search_and_notify cfg env st) = Ok tt /\
       db final = db stored /\
       (forall r, In r (db stored) -> In r (db final)) /\
       outbox final = outbox stored).
Proof.
  intros cfg env Hhost. split.
  - intros subject html st st'. subst st'.
    rewrite (send_email_unconfigured cfg env subject html st Hhost).
    simpl. auto.
  - intros st Hstored stored final.
    destruct (search_and_notify_outcome cfg env st) as [Hout [Hdb Hbox]].
    fold final in Hdb, Hbox.
    rewrite run_body_phases in Hdb, Hbox.
    assert (Hbody : run_body cfg env st = digest cfg env stored).
    { rewrite run_body_phases. unfold bind. subst stored.
      destruct (fetch_and_store cfg env st) as [[[] | e] st1]; simpl in *;
        [reflexivity | discriminate Hstored]. }
    rewrite <- run_body_phases, Hbody in Hdb, Hbox.
    destruct (digest_unconfigured cfg env stored Hhost) as [Hd [Ho Hexn]].
    rewrite Hd in Hdb. rewrite Ho in Hbox.
    split; [| split; [exact Hdb | split; [| exact Hbox]]].
    + destruct Hout as [Hok | [e [Hr He]]]; [exact Hok |].
      exfalso. revert Hr He. unfold search_and_notify, try_except.
      rewrite Hbody.
      destruct (digest cfg env stored) as [[[] | e1] st2] eqn:Ed; simpl.
      * discriminate.
      * rewrite (Hexn e1) by (try rewrite Ed; reflexivity). simpl. discriminate.
    + intros r Hr. rewrite Hdb. exact Hr.
Qed.

Lemma send_email_unconfigured_keeps_store_witness :
  let final := snd (search_and_notify default_config pune_env empty_state) in
  fst (search_and_notify default_config pune_env empty_state) = Ok tt /\
  List.length (filter (holds_job sample_job) (db final)) = 1%nat /\
  In smtp_host_missing (log final) /\
  outbox final = [].
Proof.
  destruct (send_email_unconfigured_keeps_store default_config pune_env eq_refl)
    as [_ H].
  assert (Hstored : fst (fetch_and_store default_config pune_env empty_state) = Ok tt)
    by (vm_compute; reflexivity).
  destruct (H empty_state Hstored) as [Hok [Hdb [_ Hbox]]].
  split; [exact Hok |]. cbv zeta. rewrite Hdb, Hbox.
  split; [vm_compute; reflexivity |].
  split; [vm_compute; auto | vm_compute; reflexivity].
Defined.

(* ------------------------------------------------------------------ *)
(** ** The calendar: the date shown is the date of the instant *)






(* ------------------------------------------------------------------ *)
(** ** The digest row *)

Local Open Scope string_scope.

Lemma append_assoc (a b c : string) : (a ++ b) ++ c = a ++ (b ++ c).
Proof. induction a as [| x a IH]; simpl; [reflexivity | rewrite IH; reflexivity]. Qed.
















(* ================================================================== *)
(** * Further properties of the code *)

Local Open Scope list_scope.
Local Open Scope Z_scope.

(* ------------------------------------------------------------------ *)
(** ** Keyword matching *)

Lemma prefix_spec (a b : string) :
  String.prefix a b = true <-> exists post, b = (a ++ post)%string.
Proof.
  revert b. induction a as [| x a IH]; intros b.
  - split; [intros _; exists b; reflexivity |].
    intros _. destruct b; reflexivity.
  - destruct b as [| y b]; simpl.
    + split; [discriminate | intros [p H]; discriminate].
    + destruct (Ascii.ascii_dec x y) as [-> | Hne].
      * rewrite IH. split; intros [p H]; exists p; [subst; reflexivity |].
        injection H as H. exact H.
      * split; [discriminate | intros [p H]; injection H as H _; congruence].
Qed.

Lemma contains_nil (needle : string) :
  Text.contains needle "" = String.prefix needle "".
Proof. simpl. apply orb_false_r. Qed.

Lemma contains_cons (needle : string) (c : ascii) (hay : string) :
  Text.contains needle (String c hay)
  = (String.prefix needle (String c hay) || Text.contains needle hay)%bool.
Proof. reflexivity. Qed.

(** [needle in hay] is the substring test. *)
Lemma contains_spec (needle hay : string) :
  Text.contains needle hay = true <-> contains_text needle hay.
Proof.
  unfold contains_text. split.
  - induction hay as [| c hay IH]; intros H.
    + rewrite contains_nil in H. apply prefix_spec in H. destruct H as [p H].
      exists ""%string, p. exact H.
    + rewrite contains_cons in H. apply orb_prop in H. destruct H as [H | H].
      * apply prefix_spec in H. destruct H as [p H]. exists ""%string, p. exact H.
      * destruct (IH H) as [pre [post E]].
        exists (String c pre), post. simpl. rewrite E. reflexivity.
  - intros [pre [post E]]. subst hay.
    induction pre as [| c pre IH].
    + assert (P : String.prefix needle (needle ++ post)%string = true)
        by (apply prefix_spec; eauto).
      change ("" ++ needle ++ post)%string with (needle ++ post)%string.
      destruct (needle ++ post)%string as [| c s].
      * rewrite contains_nil. exact P.
      * rewrite contains_cons, P. reflexivity.
    + change (String c pre ++ needle ++ post)%string
        with (String c (pre ++ needle ++ post)%string).
      rewrite contains_cons, IH. apply orb_true_r.
Qed.

Lemma contains_any_iff (text : string) (keywords : list string) :
  contains_any text keywords = true <->
  exists kw, In kw keywords /\ contains_text (Text.lower kw) (Text.lower text).
Proof.
  unfold contains_any. rewrite existsb_exists.
  split; intros [kw [Hin H]]; exists kw; (split; [exact Hin |]);
    apply contains_spec; exact H.
Qed.

Lemma lower_char_idempotent (c : ascii) :
  Text.lower_char (Text.lower_char c) = Text.lower_char c.
Proof.
  destruct c as [[] [] [] [] [] [] [] []]; vm_compute; reflexivity.
Qed.

Lemma lower_idempotent (s : string) : Text.lower (Text.lower s) = Text.lower s.
Proof.
  induction s as [| c s IH]; simpl; [reflexivity |].
  rewrite lower_char_idempotent, IH. reflexivity.
Qed.

Lemma lower_append (a b : string) :
  Text.lower (a ++ b)%string = (Text.lower a ++ Text.lower b)%string.
Proof.
  induction a as [| c a IH]; simpl; [reflexivity | rewrite IH; reflexivity].
Qed.

Lemma contains_any_lower_keywords (text : string) (keywords : list string) :
  contains_any text (List.map Text.lower keywords) = contains_any text keywords.
Proof.
  unfold contains_any. induction keywords as [| kw kws IH]; simpl; [reflexivity |].
  rewrite lower_idempotent, IH. reflexivity.
Qed.

Lemma contains_any_lower_text (text : string) (keywords : list string) :
  contains_any (Text.lower text) keywords = contains_any text keywords.
Proof. unfold contains_any. rewrite lower_idempotent. reflexivity. Qed.

(** Property X2.  The three text filters ignore case: lower-casing the text
    changes no verdict, and lower-casing the configured keywords changes
    none either. *)
Theorem filters_ignore_case :
  forall (cfg : Config) (text : string),
    role_ok cfg (Text.lower text) = role_ok cfg text /\
    skills_ok cfg (Text.lower text) = skills_ok cfg text /\
    experience_ok cfg (Text.lower text) = experience_ok cfg text /\
    contains_any text (List.map Text.lower (ROLE_KEYWORDS cfg)) = role_ok cfg text /\
    contains_any text (List.map Text.lower (SKILL_KEYWORDS cfg)) = skills_ok cfg text.
Proof.
  intros cfg text. unfold role_ok, skills_ok, experience_ok.
  rewrite !contains_any_lower_text, !contains_any_lower_keywords, lower_idempotent.
  repeat split.
Qed.

Lemma append_empty_r (a : string) : (a ++ "")%string = a.
Proof. induction a as [| c a IH]; simpl; [reflexivity | rewrite IH; reflexivity]. Qed.

Lemma contains_text_context (part whole a b : string) :
  contains_text part whole -> contains_text part (a ++ whole ++ b)%string.
Proof.
  intros [pre [post ->]]. exists (a ++ pre)%string, (post ++ b)%string.
  rewrite !append_assoc. reflexivity.
Qed.

Lemma contains_any_context (text a b : string) (keywords : list string) :
  contains_any text keywords = true ->
  contains_any (a ++ text ++ b)%string keywords = true.
Proof.
  intros H. apply contains_any_iff in H. destruct H as [kw [Hin H]].
  apply contains_any_iff. exists kw. split; [exact Hin |].
  rewrite !lower_append. apply contains_text_context. exact H.
Qed.

(** Property X3.  A role or skill keyword found in any one of title,
    description, company or location is found in the blob the pipeline
    filters on: text around a match never removes it. *)
Theorem field_match_is_blob_match :
  forall (cfg : Config) (job : Job.t) (field : string),
    In field [Job.title job; Job.description job; Job.company job;
              Job.location job] ->
    (role_ok cfg field = true -> role_ok cfg (text_blob job) = true) /\
    (skills_ok cfg field = true -> skills_ok cfg (text_blob job) = true).
Proof.
  intros cfg job field Hin.
  assert (Hblob : exists a b, text_blob job = (a ++ field ++ b)%string).
  { rewrite text_blob_concat. simpl in Hin.
    destruct Hin as [<- | [<- | [<- | [<- | []]]]].
    - exists ""%string. eexists. reflexivity.
    - exists (Job.title job ++ " ")%string. eexists.
      rewrite !append_assoc. reflexivity.
    - exists (Job.title job ++ " " ++ Job.description job ++ " ")%string.
      eexists. rewrite !append_assoc. reflexivity.
    - exists (Job.title job ++ " " ++ Job.description job ++ " " ++
              Job.company job ++ " ")%string, ""%string.
      rewrite !append_assoc, append_empty_r. reflexivity. }
  destruct Hblob as [a [b ->]]. unfold role_ok, skills_ok.
  split; apply contains_any_context.
Qed.

Lemma field_match_is_blob_match_witness :
  role_ok default_config (text_blob sample_job) = true /\
  skills_ok default_config (text_blob sample_job) = true.
Proof.
  destruct (field_match_is_blob_match default_config sample_job
              (Job.title sample_job) (or_introl eq_refl)) as [Hrole _].
  destruct (field_match_is_blob_match default_config sample_job
              (Job.description sample_job) (or_intror (or_introl eq_refl)))
    as [_ Hskill].
  split; [apply Hrole | apply Hskill]; reflexivity.
Defined.

(* ------------------------------------------------------------------ *)
(** ** Recency *)

Lemma age_hours_antitone (now_utc : Q) (t1 t2 : Z) :
  t1 <= t2 ->
  ((now_utc - inject_Z t2) / 3600 <= (now_utc - inject_Z t1) / 3600)%Q.
Proof.
  intros H. unfold Qdiv. apply Qmult_le_compat_r; [| discriminate].
  unfold Qminus. apply Qplus_le_compat; [apply Qle_refl |].
  apply Qopp_le_compat. rewrite <- Zle_Qle. exact H.
Qed.

(** Property X4.  [posted_recent] only looks at how far back the posting
    is.  For a non-zero timestamp a float can hold: it is recent whenever
    an earlier timestamp is, and it is always recent when it is at or after
    the clock reading (a posting dated in the future) and the maximum age
    is not negative. *)
Theorem posted_recent_later_is_recent :
  forall (env : Env) (st : State) (t1 t2 : Z) (max_age_hours : Q),
    t2 <> 0 -> Z.abs t2 < 2 ^ 1024 - 2 ^ 970 ->
    (t1 <= t2 ->
     fst (posted_recent env t1 max_age_hours st) = Ok true ->
     fst (posted_recent env t2 max_age_hours st) = Ok true) /\
    ((clock env (ticks st) <= inject_Z t2)%Q -> (0 <= max_age_hours)%Q ->
     fst (posted_recent env t2 max_age_hours st) = Ok true).
Proof.
  intros env st t1 t2 max_age_hours H2 R2. split.
  - intros Hle H. apply posted_recent_true in H. destruct H as [_ [_ H]].
    apply posted_recent_true. split; [exact H2 |]. split; [exact R2 |].
    eapply Qle_trans; [apply age_hours_antitone; exact Hle | exact H].
  - intros Hfut Hmax. apply posted_recent_true.
    split; [exact H2 |]. split; [exact R2 |].
    eapply Qle_trans; [| exact Hmax].
    unfold Qdiv.
    setoid_replace 0%Q with (0 * / 3600)%Q by reflexivity.
    apply Qmult_le_compat_r; [| discriminate].
    apply Qle_minus_iff in Hfut.
    apply Qopp_le_compat in Hfut.
    setoid_replace (- (inject_Z t2 + - clock env (ticks st)))%Q
      with (clock env (ticks st) - inject_Z t2)%Q in Hfut by ring.
    exact Hfut.
Qed.

Lemma posted_recent_later_is_recent_witness :
  fst (posted_recent sample_env (sample_now - 60) 6 empty_state) = Ok true /\
  fst (posted_recent sample_env (sample_now * 1000) 6 empty_state) = Ok true.
Proof.
  assert (N1 : sample_now - 60 <> 0) by discriminate.
  assert (N2 : sample_now * 1000 <> 0) by discriminate.
  assert (R1 : Z.abs (sample_now - 60) < 2 ^ 1024 - 2 ^ 970) by reflexivity.
  assert (R2 : Z.abs (sample_now * 1000) < 2 ^ 1024 - 2 ^ 970) by reflexivity.
  destruct (posted_recent_later_is_recent sample_env empty_state
              (sample_now - 3600) (sample_now - 60) 6 N1 R1) as [Hlater _].
  destruct (posted_recent_later_is_recent sample_env empty_state
              1 (sample_now * 1000) 6 N2 R2) as [_ Hfuture].
  split.
  - apply Hlater; [unfold sample_now; lia | reflexivity].
  - apply Hfuture; vm_compute; discriminate.
Defined.

(* ------------------------------------------------------------------ *)
(** ** Normalisation: failures, identifiers *)

(** Property X6.  Normalisation fails in one way only, with
    [AttributeError]: on an item that is not a dict, and on a dict whose
    [job_title] is a truthy value other than a string (a number, a list). *)
Theorem parse_jsearch_item_failures :
  forall item : value,
    (forall e, parse_jsearch_item item = Raise e -> e = AttributeError) /\
    ((forall d, item <> VDict d) ->
     parse_jsearch_item item = Raise AttributeError) /\
    (forall d,
       item = VDict d ->
       Py.truthy (Py.get d "job_title") = true ->
       (forall s, Py.get d "job_title" <> VStr s) ->
       parse_jsearch_item item = Raise AttributeError).
Proof.
  intros item. split; [| split].
  - apply parse_jsearch_item_raises_only_AttributeError.
  - intros H. destruct item; try reflexivity. exfalso. exact (H _ eq_refl).
  - intros d -> Ht Hs. unfold parse_jsearch_item, Py.or_. rewrite Ht.
    destruct (Py.get d "job_title"); simpl in *; try reflexivity;
      try discriminate.
    exfalso. exact (Hs _ eq_refl).
Qed.

Lemma parse_jsearch_item_failures_witness :
  parse_jsearch_item (VStr "job") = Raise AttributeError /\
  parse_jsearch_item numeric_title_item = Raise AttributeError.
Proof.
  split.
  - apply (parse_jsearch_item_failures (VStr "job")). intros d. discriminate.
  - destruct (parse_jsearch_item_failures numeric_title_item) as [_ [_ H]].
    apply (H [("job_id", VStr "n1"); ("job_title", VInt 7)] eq_refl eq_refl).
    intros s. discriminate.
Defined.

Lemma for_each_app {A : Type} (xs ys : list A) (body : A -> M unit) (st : State) :
  for_each (xs ++ ys) body st
  = match for_each xs body st with
    | (Ok _, st1) => for_each ys body st1
    | (Raise e, st1) => (Raise e, st1)
    end.
Proof.
  revert st. induction xs as [| x xs IH]; intros st; simpl; [reflexivity |].
  unfold bind. destruct (body x st) as [[[] | e] st1]; [apply IH | reflexivity].
Qed.

Lemma process_item_raises (cfg : Config) (env : Env) (item : value) (st : State) (e : exn) :
  fst (process_item cfg env item st) = Raise e ->
  e = AttributeError \/ e = OverflowError.
Proof.
  unfold process_item, bind, lift.
  destruct (parse_jsearch_item item) as [job | e0] eqn:Hp.
  - destruct (role_ok cfg (text_blob job)); cbn [negb]; [| discriminate].
    destruct (skills_ok cfg (text_blob job)); cbn [negb]; [| discriminate].
    destruct (experience_ok cfg (text_blob job)); cbn [negb]; [| discriminate].
    unfold posted_recent.
    destruct (Job.posted_at_utc job =? 0); cbn; [discriminate |].
    destruct (float_of_int_cases (Job.posted_at_utc job)) as [-> | ->]; cbn.
    + destruct (age_within _ _ _); cbn; discriminate.
    + intros H. injection H as <-. auto.
  - simpl. intros H. injection H as <-. left.
    apply (parse_jsearch_item_raises_only_AttributeError item). exact Hp.
Qed.

Lemma process_item_raises_loop (cfg : Config) (env : Env) (items : list value) :
  forall (st : State) (e : exn),
    fst (for_each items (process_item cfg env) st) = Raise e ->
    e = AttributeError \/ e = OverflowError.
Proof.
  induction items as [| x items IH]; intros st e; simpl; [discriminate |].
  unfold bind.
  destruct (process_item cfg env x st) as [[[] | e0] st1] eqn:Hx.
  - apply IH.
  - simpl. intros H. injection H as <-.
    apply (process_item_raises cfg env x st e0). rewrite Hx. reflexivity.
Qed.

(** Property X7.  The loop over the items of a page never gets past an
    item that does not normalise: it ends there with [AttributeError],
    unless an item before it already ended it with [OverflowError] or
    [AttributeError].  The items after it are never examined, so what the
    page adds to the collected list is what the items before it add. *)
Theorem items_after_malformed_are_skipped :
  forall (cfg : Config) (env : Env) (before after : list value) (bad : value)
         (st : State),
    (forall job, parse_jsearch_item bad <> Ok job) ->
    let run := for_each (before ++ bad :: after) (process_item cfg env) st in
    let head := for_each before (process_item cfg env) st in
    run = for_each (before ++ [bad]) (process_item cfg env) st /\
    (exists e, fst run = Raise e /\ (e = AttributeError \/ e = OverflowError)) /\
    (fst head = Ok tt -> fst run = Raise AttributeError) /\
    (forall e, fst head = Raise e -> fst run = Raise e) /\
    collected (snd run) = collected (snd head).
Proof.
  intros cfg env before after bad st Hbad run head. subst run head.
  assert (Hraise : forall s, process_item cfg env bad s = (Raise AttributeError, s)).
  { intros s. unfold process_item, bind, lift.
    destruct (parse_jsearch_item bad) as [job | e] eqn:Hp.
    - exfalso. exact (Hbad job eq_refl).
    - apply parse_jsearch_item_raises_only_AttributeError in Hp. subst e.
      reflexivity. }
  rewrite !for_each_app.
  destruct (for_each before (process_item cfg env) st) as [[[] | e] st1] eqn:Hb.
  - simpl. unfold bind. rewrite Hraise. cbn [fst snd].
    split; [reflexivity |]. split; [eauto |]. split; [reflexivity |].
    split; [discriminate | reflexivity].
  - assert (He : e = AttributeError \/ e = OverflowError).
    { apply (process_item_raises_loop cfg env before st e).
      rewrite Hb. reflexivity. }
    cbn [fst snd]. split; [reflexivity |]. split; [eauto |].
    split; [discriminate |]. split; [intros e' H; exact H | reflexivity].
Qed.

Lemma items_after_malformed_are_skipped_witness :
  collected (snd (for_each [sample_item; numeric_title_item; sample_item]
                    (process_item default_config sample_env) empty_state))
  = [sample_job].
Proof.
  assert (Hbad : forall job, parse_jsearch_item numeric_title_item <> Ok job)
    by (intros job; discriminate).
  destruct (items_after_malformed_are_skipped default_config sample_env
              [sample_item] [sample_item] numeric_title_item empty_state Hbad)
    as [_ [_ [_ [_ H]]]].
  simpl app in H. rewrite H. reflexivity.
Defined.

Lemma or_not_none (a b : value) : b <> VNone -> Py.or_ a b <> VNone.
Proof.
  intros Hb. unfold Py.or_. destruct (Py.truthy a) eqn:E; [| exact Hb].
  intros ->. discriminate E.
Qed.

Lemma parse_jsearch_item_url (item : value) (job : Job.t) :
  parse_jsearch_item item = Ok job -> Job.url job <> VNone.
Proof.
  unfold parse_jsearch_item. destruct item; try discriminate.
  repeat match goal with
         | |- context [rbind (Py.strip ?v) _] =>
             destruct (Py.strip v); cbn [rbind]; [| discriminate]
         end.
  intros H. injection H as <-. cbn [Job.url].
  apply or_not_none. apply or_not_none. discriminate.
Qed.

Lemma bind_text_null (v : value) : Sql.bind_text v = Ok None -> v = VNone.
Proof.
  destruct v; simpl; try discriminate; [reflexivity |].
  unfold Sql.bind_int. destruct (Sql.int64 z); discriminate.
Qed.

(** Property X8.  A normalised job never carries an empty identifier, so
    the in-memory key is the identifier exactly when one is present; its
    source is "jsearch"; and its link is never [None], so the link column of
    the row it is stored in is never NULL. *)
Theorem parse_jsearch_item_identifier_and_link :
  forall (item : value) (job : Job.t),
    parse_jsearch_item item = Ok job ->
    Job.source job = "jsearch"%string /\
    Job.external_id job <> Some ""%string /\
    (forall e, Job.external_id job = Some e -> dedup_key job = Ok (KeyId e)) /\
    Job.url job <> VNone /\
    Sql.bind_text (Job.url job) <> Ok None.
Proof.
  intros item job Hp.
  pose proof (parse_jsearch_item_external_id item job Hp) as Hid.
  pose proof (parse_jsearch_item_url item job Hp) as Hurl.
  split; [| split; [exact Hid | split; [| split; [exact Hurl |]]]].
  - revert Hp. unfold parse_jsearch_item. destruct item; try discriminate.
    repeat match goal with
           | |- context [rbind (Py.strip ?v) _] =>
               destruct (Py.strip v); cbn [rbind]; [| discriminate]
           end.
    intros H. injection H as <-. reflexivity.
  - intros e He. unfold dedup_key. rewrite He.
    destruct (String.eqb_spec e ""); [subst; congruence | reflexivity].
  - intros H. apply bind_text_null in H. contradiction.
Qed.

Lemma parse_jsearch_item_identifier_and_link_witness :
  dedup_key sample_job = Ok (KeyId "abc123") /\ Job.url sample_job <> VNone.
Proof.
  destruct (parse_jsearch_item_identifier_and_link sample_item sample_job eq_refl)
    as [_ [_ [Hkey [Hurl _]]]].
  split; [apply Hkey; reflexivity | exact Hurl].
Defined.

(* ------------------------------------------------------------------ *)
(** ** The store under [save_jobs] *)

(** What one turn of the loop of [save_jobs] does, case by case. *)
Lemma save_loop_cons (env : Env) (j : Job.t) (jobs : list Job.t) (inserted : Z)
      (st : State) :
  save_loop env (j :: jobs) inserted st
  = match bind_error j, Sql.bind_text (Job.url j) with
    | Some e, _ =>
        save_loop env jobs inserted
          {| db := db st; log := log st ++ [db_insert_error e];
             outbox := outbox st; ticks := S (ticks st); slept := slept st;
             collected := collected st |}
    | None, Ok u =>
        let r := row_of_job j u (Job.posted_at_utc j)
                   (trunc (clock env (ticks st))) in
        save_loop env jobs (inserted + fst (insert_or_ignore (db st) r))
          {| db := snd (insert_or_ignore (db st) r); log := log st;
             outbox := outbox st; ticks := S (ticks st); slept := slept st;
             collected := collected st |}
    | None, Raise _ => save_loop env jobs inserted st
    end.
Proof.
  unfold bind_error. cbn [save_loop].
  unfold bind at 1. unfold try_except, insert_job, bind, lift, now, get_state.
  destruct (Sql.bind_text (Job.url j)) as [u | e] eqn:Hu; cbn.
  - unfold Sql.bind_int. destruct (Sql.int64 (Job.posted_at_utc j)) eqn:Hp; cbn.
    + unfold insert_or_ignore.
      destruct (existsb _ (db st)); cbn; rewrite ?Z.add_0_r; reflexivity.
    + reflexivity.
  - assert (He : is_Exception e = true /\ e <> IntegrityError).
    { destruct (Job.url j); simpl in Hu; try discriminate.
      - unfold Sql.bind_int in Hu. destruct (Sql.int64 z); simpl in Hu;
          [discriminate |]. injection Hu as <-. split; [reflexivity | discriminate].
      - injection Hu as <-. split; [reflexivity | discriminate].
      - injection Hu as <-. split; [reflexivity | discriminate]. }
    destruct He as [He1 He2]. rewrite He1.
    destruct e; try contradiction; reflexivity.
Qed.

Lemma opt_eqb_refl (a : option string) : opt_eqb a a = true.
Proof. destruct a; simpl; [apply String.eqb_refl | reflexivity]. Qed.

Lemma insert_or_ignore_cases (s : Store) (r : Row.t) :
  insert_or_ignore s r = (0, s) \/
  exists r', insert_or_ignore s r = (1, s ++ [r']) /\
             Row.id r' = next_id s /\ same_keys r' r /\
             Row.posted_at_utc r' = Row.posted_at_utc r /\
             Row.description r' = Row.description r /\
             Row.created_at_utc r' = Row.created_at_utc r /\
             existsb (conflict r) s = false.
Proof.
  unfold insert_or_ignore. destruct (existsb (conflict r) s) eqn:E; [auto |].
  right. eexists. split; [reflexivity |]. repeat split.
Qed.

Lemma row_of_job_holds (j : Job.t) (u : option string) (c : Z) (r' : Row.t) :
  Sql.bind_text (Job.url j) = Ok u ->
  same_keys r' (row_of_job j u (Job.posted_at_utc j) c) ->
  Row.posted_at_utc r' = Some (Job.posted_at_utc j) ->
  Row.description r' = Some (Job.description j) ->
  holds_job j r' = true.
Proof.
  intros Hu [H1 [H2 [H3 [H4 [H5 H6]]]]] Hp Hd. simpl in *.
  unfold holds_job. rewrite Hu, H1, H2, H3, H4, H5, H6, Hp, Hd.
  rewrite !opt_eqb_refl, String.eqb_refl, Z.eqb_refl. reflexivity.
Qed.

Lemma save_loop_spec (env : Env) (jobs : list Job.t) :
  forall (inserted : Z) (st : State),
  exists added : list Row.t,
    fst (save_loop env jobs inserted st)
      = Ok (inserted + Z.of_nat (List.length added)) /\
    db (snd (save_loop env jobs inserted st)) = db st ++ added /\
    (List.length added <= List.length jobs)%nat /\
    Forall (fun r => exists j, In j jobs /\ holds_job j r = true) added /\
    outbox (snd (save_loop env jobs inserted st)) = outbox st /\
    collected (snd (save_loop env jobs inserted st)) = collected st /\
    ticks (snd (save_loop env jobs inserted st))
      = (ticks st + List.length jobs)%nat.
Proof.
  induction jobs as [| j jobs IH]; intros inserted st.
  - exists []. simpl. rewrite Z.add_0_r, app_nil_r, Nat.add_0_r.
    repeat split; auto.
  - rewrite save_loop_cons.
    destruct (bind_error j) as [e |] eqn:Hb.
    + destruct (IH inserted
                  {| db := db st; log := log st ++ [db_insert_error e];
                     outbox := outbox st; ticks := S (ticks st);
                     slept := slept st; collected := collected st |})
        as [added [H1 [H2 [H3 [H4 [H5 [H6 H7]]]]]]].
      exists added. simpl in *.
      repeat split; try assumption; try lia.
      eapply Forall_impl; [| exact H4].
      intros r [j' [Hin Hh]]. exists j'. auto.
    + destruct (Sql.bind_text (Job.url j)) as [u | e] eqn:Hu.
      * cbv zeta.
        set (r := row_of_job j u (Job.posted_at_utc j)
                    (trunc (clock env (ticks st)))).
        destruct (insert_or_ignore_cases (db st) r)
          as [Hi | [r' [Hi [_ [Hk [Hp [Hd _]]]]]]]; rewrite Hi; cbn [fst snd].
        -- destruct (IH (inserted + 0)
                       {| db := db st; log := log st; outbox := outbox st;
                          ticks := S (ticks st); slept := slept st;
                          collected := collected st |})
             as [added [H1 [H2 [H3 [H4 [H5 [H6 H7]]]]]]].
           exists added. simpl in *.
           repeat split; try assumption; try lia.
           ++ rewrite H1. f_equal. lia.
           ++ eapply Forall_impl; [| exact H4].
              intros x [j' [Hin Hh]]. exists j'. auto.
        -- destruct (IH (inserted + 1)
                       {| db := db st ++ [r']; log := log st; outbox := outbox st;
                          ticks := S (ticks st); slept := slept st;
                          collected := collected st |})
             as [added [H1 [H2 [H3 [H4 [H5 [H6 H7]]]]]]].
           exists (r' :: added). simpl in *.
           repeat split; try assumption; try lia.
           ++ rewrite H1. f_equal. lia.
           ++ rewrite H2, <- app_assoc. reflexivity.
           ++ constructor.
              ** exists j. split; [auto |].
                 apply (row_of_job_holds j u (trunc (clock env (ticks st))));
                   assumption.
              ** eapply Forall_impl; [| exact H4].
                 intros x [j' [Hin Hh]]. exists j'. auto.
      * unfold bind_error in Hb. rewrite Hu in Hb. discriminate Hb.
Qed.


(** Property X10.  A record whose values the driver cannot bind (a list or
    dict as link, an integer outside 64 bits as link or posting time) costs
    one ERROR entry and one clock reading and nothing else: the rest of the
    batch is saved as if the record had not been in it. *)
Theorem save_jobs_isolates_unbindable_record :
  forall (env : Env) (bad : Job.t) (jobs : list Job.t) (st : State) (e : exn),
    bind_error bad = Some e ->
    save_jobs env (bad :: jobs) st
    = save_jobs env jobs
        {| db := db st; log := log st ++ [db_insert_error e];
           outbox := outbox st; ticks := S (ticks st); slept := slept st;
           collected := collected st |}.
Proof.
  intros env bad jobs st e H. unfold save_jobs.
  rewrite save_loop_cons, H. reflexivity.
Qed.

Lemma save_jobs_isolates_unbindable_record_witness :
  fst (save_jobs sample_env [list_link_job; sample_job] empty_state) = Ok 1 /\
  In (db_insert_error (SqliteError "type is not supported"))
     (log (snd (save_jobs sample_env [list_link_job; sample_job] empty_state))).
Proof.
  rewrite (save_jobs_isolates_unbindable_record sample_env list_link_job
             [sample_job] empty_state (SqliteError "type is not supported")
             eq_refl).
  split; [reflexivity | left; reflexivity].
Defined.







Lemma null_link_never_conflicts (j : Job.t) (p c : Z) (s : Store) :
  Job.external_id j = None ->
  existsb (conflict (row_of_job j None p c)) s = false.
Proof.
  intros Hid. induction s as [| x s IH]; simpl; [reflexivity |].
  rewrite IH. unfold conflict, uq_jobs_source_external, uq_jobs_fallback.
  simpl. rewrite Hid. simpl. rewrite !andb_false_r. reflexivity.
Qed.

(** Property X12.  The two unique indexes never hold back a record that has
    neither identifier nor link: NULL is distinct from NULL, so every insert
    of such a record adds a row, also when the very same record is inserted
    again. *)
Theorem save_jobs_null_keys_always_insert :
  forall (env : Env) (j : Job.t) (st : State),
    Job.external_id j = None -> Job.url j = VNone ->
    Sql.int64 (Job.posted_at_utc j) = true ->
    fst (save_jobs env [j] st) = Ok 1 /\
    fst (save_jobs env [j; j] st) = Ok 2 /\
    List.length (db (snd (save_jobs env [j; j] st)))
      = (List.length (db st) + 2)%nat.
Proof.
  intros env j st Hid Hurl Hp.
  assert (Hb : bind_error j = None).
  { unfold bind_error, Sql.bind_int. rewrite Hurl, Hp. reflexivity. }
  assert (Hu : Sql.bind_text (Job.url j) = Ok None) by (rewrite Hurl; reflexivity).
  unfold save_jobs.
  repeat (rewrite save_loop_cons, Hb, Hu; cbv zeta;
          unfold insert_or_ignore;
          rewrite (null_link_never_conflicts j _ _ _ Hid); cbn [fst snd db ticks]).
  simpl. rewrite !length_app. simpl. split; [reflexivity |].
  split; [reflexivity | lia].
Qed.

Lemma save_jobs_null_keys_always_insert_witness :
  fst (save_jobs sample_env [anonymous_job; anonymous_job] empty_state) = Ok 2.
Proof.
  apply (save_jobs_null_keys_always_insert sample_env anonymous_job empty_state);
    reflexivity.
Defined.

Lemma next_id_above (s : Store) : Forall (fun r => Row.id r < next_id s) s.
Proof.
  unfold next_id. induction s as [| x s IH]; [constructor |].
  cbn [fold_right]. constructor; [lia |].
  eapply Forall_impl; [| exact IH]. intros r Hr. cbn beta in *. lia.
Qed.

Lemma StronglySorted_snoc {A : Type} (R : A -> A -> Prop) (l : list A) (a : A) :
  StronglySorted R l -> Forall (fun x => R x a) l -> StronglySorted R (l ++ [a]).
Proof.
  induction 1 as [| x l Hs IH Hx]; intros Ha; simpl.
  - repeat constructor.
  - inversion Ha; subst. constructor; [apply IH; assumption |].
    apply Forall_app. split; [exact Hx | repeat constructor; assumption].
Qed.

Lemma insert_or_ignore_ids (s : Store) (r : Row.t) :
  ids_increasing s -> ids_increasing (snd (insert_or_ignore s r)).
Proof.
  unfold ids_increasing. intros H.
  destruct (insert_or_ignore_cases s r) as [-> | [r' [-> [Hid _]]]]; [exact H |].
  cbn [snd]. rewrite List.map_app. apply StronglySorted_snoc; [exact H |].
  simpl. rewrite Hid. rewrite Forall_map. apply next_id_above.
Qed.

(** An invariant of the table that [INSERT OR IGNORE] keeps is kept by
    [save_jobs]. *)
Lemma save_loop_keeps (P : Store -> Prop) (env : Env) (jobs : list Job.t) :
  (forall s r, P s -> P (snd (insert_or_ignore s r))) ->
  forall (inserted : Z) (st : State),
    P (db st) -> P (db (snd (save_loop env jobs inserted st))).
Proof.
  intros HP. induction jobs as [| j jobs IH]; intros inserted st H; [exact H |].
  rewrite save_loop_cons.
  destruct (bind_error j); [apply IH; exact H |].
  destruct (Sql.bind_text (Job.url j)); [| apply IH; exact H].
  cbv zeta. apply IH. cbn [db]. apply HP. exact H.
Qed.

Lemma StronglySorted_lt_NoDup (l : list Z) : StronglySorted Z.lt l -> NoDup l.
Proof.
  induction 1 as [| x l Hs IH Hx]; constructor; [| exact IH].
  intros Hin. rewrite Forall_forall in Hx. specialize (Hx x Hin). lia.
Qed.

(** Property X13.  Row ids are handed out in increasing order and never
    reused: when the ids of the table grow along it, they still do after
    [save_jobs], no two rows share an id, and every row added has an id
    above every id that was there. *)
Theorem save_jobs_ids_increase :
  forall (env : Env) (jobs : list Job.t) (st : State),
    ids_increasing (db st) ->
    let after := db (snd (save_jobs env jobs st)) in
    ids_increasing after /\
    NoDup (List.map Row.id after) /\
    exists added : list Row.t,
      after = db st ++ added /\
      forall old new, In old (db st) -> In new added -> Row.id old < Row.id new.
Proof.
  intros env jobs st H after.
  assert (Hafter : ids_increasing after).
  { subst after. unfold save_jobs.
    apply (save_loop_keeps ids_increasing); [apply insert_or_ignore_ids | exact H]. }
  split; [exact Hafter |]. split; [apply StronglySorted_lt_NoDup; exact Hafter |].
  destruct (save_loop_spec env jobs 0 st) as [added [_ [Hdb _]]].
  exists added. split; [exact Hdb |].
  intros old new Hold Hnew. unfold ids_increasing in Hafter.
  subst after. unfold save_jobs in Hafter. rewrite Hdb, List.map_app in Hafter.
  apply StronglySorted_app_inv in Hafter. destruct Hafter as [_ Hcross].
  apply Hcross; apply in_map; assumption.
Qed.

Lemma save_jobs_ids_increase_witness :
  NoDup (List.map Row.id
           (db (snd (save_jobs sample_env [sample_job_no_id; sample_job_page2]
                       seen_state)))).
Proof.
  apply (save_jobs_ids_increase sample_env [sample_job_no_id; sample_job_page2]
           seen_state).
  unfold ids_increasing. simpl. repeat constructor.
Defined.

(* ------------------------------------------------------------------ *)
(** ** In-memory de-duplication: failure, fixed points, order *)

(** Property X14.  One collected job without identifier whose link is a
    list or a dict makes the in-memory de-duplication raise [TypeError]
    (the key tuple cannot be hashed), and with it persistence of the whole
    cycle: no job of the cycle reaches the store. *)
Theorem unhashable_link_aborts_persistence :
  forall (jobs : list Job.t) (bad : Job.t),
    In bad jobs ->
    (Job.external_id bad = None \/ Job.external_id bad = Some ""%string) ->
    hash_value (Job.url bad) = Raise TypeError ->
    dedup jobs = Raise TypeError /\
    (forall (env : Env) (st : State),
       collected st = jobs -> persist env st = (Raise TypeError, st)).
Proof.
  intros jobs bad Hin Hid Hurl.
  assert (Hkey : dedup_key bad = Raise TypeError).
  { unfold dedup_key. rewrite Hurl. destruct Hid as [-> | ->]; reflexivity. }
  assert (Hd : dedup jobs = Raise TypeError).
  { unfold dedup. rewrite (dedup_loop_unhashable jobs bad Hin Hkey). reflexivity. }
  split; [exact Hd |].
  intros env st Hc. unfold persist, bind, get_state, lift. rewrite Hc, Hd.
  reflexivity.
Qed.

Lemma unhashable_link_aborts_persistence_witness :
  dedup [sample_job; unkeyed_list_link_job; sample_job_no_id] = Raise TypeError.
Proof.
  apply (unhashable_link_aborts_persistence
           [sample_job; unkeyed_list_link_job; sample_job_no_id]
           unkeyed_list_link_job).
  - right. left. reflexivity.
  - left. reflexivity.
  - reflexivity.
Defined.

Lemma dict_set_fresh (d : list (key * Job.t)) (k : key) (j : Job.t) :
  ~ In k (List.map fst d) -> dict_set d k j = d ++ [(k, j)].
Proof.
  induction d as [| [k' j'] d IH]; simpl; intros H; [reflexivity |].
  destruct (key_eqb k k') eqn:E.
  - apply key_eqb_eq in E. subst. exfalso. apply H. auto.
  - rewrite IH; [reflexivity |]. intros Hin. apply H. auto.
Qed.

Lemma fold_unique_fresh (l : list Job.t) :
  forall d : list (key * Job.t),
    NoDup (List.map key_of l) ->
    (forall j, In j l -> ~ In (key_of j) (List.map fst d)) ->
    fold_unique l d = d ++ List.map (fun j => (key_of j, j)) l.
Proof.
  induction l as [| j l IH]; intros d Hnd Hd; simpl.
  - rewrite app_nil_r. reflexivity.
  - inversion Hnd as [| ? ? Hj Hnd']; subst.
    unfold fold_unique in *. simpl.
    rewrite (dict_set_fresh d (key_of j) j) by (apply Hd; left; reflexivity).
    rewrite IH; [rewrite <- app_assoc; reflexivity | exact Hnd' |].
    intros j' Hj' Hin. rewrite List.map_app in Hin.
    apply in_app_or in Hin. destruct Hin as [Hin | [E | []]].
    + apply (Hd j'); [right; exact Hj' | exact Hin].
    + simpl in E. apply Hj. rewrite E. apply in_map. exact Hj'.
Qed.

Lemma dedup_distinct_keys (l : list Job.t) :
  Forall keyed l ->
  NoDup (List.map key_of l) ->
  dedup l = Ok l.
Proof.
  intros Hc Hnd. unfold dedup. rewrite (dedup_loop_fold l Hc). simpl.
  rewrite (fold_unique_fresh l [] Hnd) by (intros j _ []).
  simpl. rewrite List.map_map. simpl. rewrite List.map_id. reflexivity.
Qed.

(** A de-duplication that returns met no key it could not hash. *)
Lemma dedup_ok_hashable (jobs unique_jobs : list Job.t) :
  dedup jobs = Ok unique_jobs -> existsb unhashable_key jobs = false.
Proof.
  intros H. destruct (existsb unhashable_key jobs) eqn:E; [| reflexivity].
  apply existsb_exists in E. destruct E as [bad [Hin Hbad]].
  unfold dedup in H.
  rewrite (dedup_loop_unhashable jobs bad Hin (unhashable_key_raises bad Hbad)) in H.
  discriminate H.
Qed.

(** Property X15.  On normalised jobs the de-duplication has fixed points:
    a list whose keys all hash and are all different comes back unchanged,
    and the de-duplication is idempotent: run on a list it returned, it
    returns that list. *)
Theorem dedup_fixed_points :
  forall jobs : list Job.t,
    Forall normalised jobs ->
    (existsb unhashable_key jobs = false ->
     NoDup (List.map record_key jobs) -> dedup jobs = Ok jobs) /\
    (forall unique_jobs, dedup jobs = Ok unique_jobs ->
                         dedup unique_jobs = Ok unique_jobs).
Proof.
  intros jobs Hn. split.
  - intros Hu Hnd.
    pose proof (normalised_keyed jobs Hn Hu) as Hc.
    apply (dedup_distinct_keys jobs Hc).
    apply (NoDup_map_finer record_key key_of); [| exact Hnd].
    intros x y Hx Hy E. rewrite Forall_forall in Hc.
    apply keyed_key_of; auto.
  - intros u Hu.
    pose proof (normalised_keyed jobs Hn (dedup_ok_hashable jobs u Hu)) as Hc.
    unfold dedup in Hu. rewrite (dedup_loop_fold jobs Hc) in Hu.
    simpl in Hu. injection Hu as <-.
    destruct (fold_unique_invariant jobs Hc) as [Hnd Hin].
    assert (Hkeys : List.map key_of (List.map snd (fold_unique jobs []))
                    = List.map fst (fold_unique jobs [])).
    { rewrite List.map_map. apply map_ext_in. intros [k j] H. simpl.
      apply Hin in H. destruct H as [-> _]. reflexivity. }
    apply dedup_distinct_keys.
    + rewrite Forall_forall. intros j Hj. apply in_map_iff in Hj.
      destruct Hj as [[k j'] [E H]]. simpl in E. subst j'.
      apply Hin in H. destruct H as [_ Hlast].
      rewrite Forall_forall in Hc. apply Hc.
      apply last_occurrence_In. exact Hlast.
    + rewrite Hkeys. exact Hnd.
Qed.

Lemma dedup_fixed_points_witness :
  dedup [sample_job; sample_job] = Ok [sample_job] /\
  dedup [sample_job] = Ok [sample_job].
Proof.
  assert (N : normalised sample_job) by (exists sample_item; reflexivity).
  assert (N1 : Forall normalised [sample_job]) by (repeat constructor; exact N).
  assert (N2 : Forall normalised [sample_job; sample_job])
    by (repeat constructor; exact N).
  assert (H2 : dedup [sample_job; sample_job] = Ok [sample_job]) by reflexivity.
  destruct (dedup_fixed_points _ N1) as [Hid _].
  destruct (dedup_fixed_points _ N2) as [_ Hidem].
  split; [exact H2 |].
  pose proof (Hidem [sample_job] H2) as H.
  assert (Hu : existsb unhashable_key [sample_job] = false) by reflexivity.
  assert (Hnd : NoDup (List.map record_key [sample_job]))
    by (repeat constructor; intros []).
  exact (Hid Hu Hnd).
Defined.




(* ------------------------------------------------------------------ *)
(** ** Rendering the digest *)

Lemma replace_from_absent (old new s : string) :
  Text.contains old s = false -> replace_from old new s 0 = s.
Proof.
  induction s as [| c s IH]; intros H; [reflexivity |].
  rewrite contains_cons in H. apply orb_false_elim in H. destruct H as [Hp Hc].
  cbn [replace_from]. rewrite Hp, (IH Hc). reflexivity.
Qed.

Lemma render_rows_Forall2 (rows : list digest_row) (htmls : list string) :
  render_rows rows = Ok htmls <->
  Forall2 (fun r h => render_row r = Ok h) rows htmls.
Proof.
  revert htmls. induction rows as [| r rows IH]; intros htmls; simpl.
  - split; [intros H; injection H as <-; constructor |].
    intros H. inversion H. reflexivity.
  - destruct (render_row r) as [h | e] eqn:Hr; simpl.
    + destruct (render_rows rows) as [hs | e] eqn:Hrs; simpl.
      * split.
        -- intros H. injection H as <-. constructor; [exact Hr |].
           apply IH. reflexivity.
        -- intros H. inversion H as [| ? h' ? hs' Hh Hrest]; subst.
           apply IH in Hrest. congruence.
      * split; [discriminate |].
        intros H. inversion H as [| ? h' ? hs' Hh Hrest]; subst.
        apply IH in Hrest. discriminate.
    + split; [discriminate |].
      intros H. inversion H as [| ? h' ? hs' Hh Hrest]; subst. congruence.
Qed.

(** Property X17.  When the template file can be read but does not contain
    the placeholder [{{ROWS}}], the rendered document is the template
    itself: the rows are dropped without any error. *)
Theorem render_email_html_without_placeholder :
  forall (env : Env) (rows : list digest_row) (tpl html : string),
    template_file env = Some tpl ->
    Text.contains "{{ROWS}}" tpl = false ->
    render_email_html env rows = Ok html ->
    html = tpl.
Proof.
  intros env rows tpl html Ht Hc. unfold render_email_html. rewrite Ht.
  destruct (render_rows rows) as [hs | e]; simpl; [| discriminate].
  unfold replace. rewrite (replace_from_absent _ _ _ Hc). congruence.
Qed.

Lemma render_email_html_without_placeholder_witness :
  render_email_html plain_env [project row_1h]
  = Ok "<p>New jobs: {ROWS}</p>"%string.
Proof.
  destruct (render_email_html plain_env [project row_1h]) as [html | e] eqn:H;
    [| discriminate H].
  f_equal.
  apply (render_email_html_without_placeholder plain_env [project row_1h]
           "<p>New jobs: {ROWS}</p>"%string html eq_refl eq_refl H).
Defined.

(** Property X18.  When the template file cannot be read, the document is
    the built-in table with one rendered row per record, in the order of
    the records, the rows separated by a newline. *)
Theorem render_email_html_fallback :
  forall (env : Env) (rows : list digest_row) (html : string),
    template_file env = None ->
    render_email_html env rows = Ok html ->
    exists htmls : list string,
      Forall2 (fun r h => render_row r = Ok h) rows htmls /\
      html = (fallback_head ++ Text.join newline htmls ++ fallback_tail)%string.
Proof.
  intros env rows html Ht. unfold render_email_html. rewrite Ht.
  destruct (render_rows rows) as [hs |] eqn:Hr; simpl; [| discriminate].
  intros H. injection H as <-. exists hs.
  split; [apply render_rows_Forall2; exact Hr |].
  unfold newline. generalize (Text.join (String (Text.chr 10) "") hs).
  intros x. reflexivity.
Qed.

Lemma render_email_html_fallback_witness :
  exists html htmls : string,
    render_email_html sample_env [project row_1h] = Ok html /\
    html = (fallback_head ++ htmls ++ fallback_tail)%string.
Proof.
  destruct (render_email_html sample_env [project row_1h]) as [html | e] eqn:H;
    [| discriminate H].
  destruct (render_email_html_fallback sample_env [project row_1h] html eq_refl H)
    as [htmls [_ E]].
  exists html, (Text.join newline htmls). split; [reflexivity | exact E].
Defined.

Lemma fmt_time_showable (ts : option Z) :
  (showable ts = true -> exists s, fmt_time ts = Ok s) /\
  (showable ts = false -> fmt_time ts = Raise DateRangeError).
Proof.
  unfold showable, fmt_time. destruct ts as [t |]; [| split; [eauto | discriminate]].
  destruct (t =? 0); [split; [eauto | discriminate] |].
  assert (Hoff : Datetime.ist_offset = 19800) by reflexivity.
  unfold Datetime.min_ts, Datetime.end_ts in *. rewrite Hoff. cbn [orb].
  destruct (Z.leb_spec (-62135596800) t), (Z.ltb_spec (t + 19800) 253402300800),
    (Z.ltb_spec t (-62135596800)), (Z.leb_spec 253402300800 t),
    (Z.leb_spec 253402300800 (t + 19800));
    try lia; cbn; split; try discriminate; eauto.
Qed.

Lemma render_rows_showable (rows : list digest_row) :
  (forallb (fun r => showable (row_time r)) rows = true ->
   exists hs, render_rows rows = Ok hs) /\
  (forallb (fun r => showable (row_time r)) rows = false ->
   render_rows rows = Raise DateRangeError).
Proof.
  induction rows as [| [[[[t c] l] u] ts] rows [IHok IHbad]]; simpl.
  - split; [eauto | discriminate].
  - unfold row_time at 1. cbn [snd].
    destruct (fmt_time_showable ts) as [Hok Hbad].
    destruct (showable ts); cbn [andb].
    + destruct (Hok eq_refl) as [s ->]. cbn [rbind]. split.
      * intros H. destruct (IHok H) as [hs ->]. simpl. eauto.
      * intros H. rewrite (IHbad H). reflexivity.
    + rewrite (Hbad eq_refl). split; [discriminate | reflexivity].
Qed.

(** Property X19.  Rendering succeeds exactly when every record has a
    posting time [fmt_time] can show; a single record posted before year 1
    or so late that the date in UTC+5:30 passes year 9999 makes the whole
    rendering raise, and nothing else does. *)
Theorem render_email_html_raises_iff_unshowable :
  forall (env : Env) (rows : list digest_row),
    (forallb (fun r => showable (row_time r)) rows = true ->
     exists html, render_email_html env rows = Ok html) /\
    (forallb (fun r => showable (row_time r)) rows = false ->
     render_email_html env rows = Raise DateRangeError).
Proof.
  intros env rows. destruct (render_rows_showable rows) as [Hok Hbad].
  unfold render_email_html. split; intros H.
  - destruct (Hok H) as [hs ->]. simpl. eauto.
  - rewrite (Hbad H). reflexivity.
Qed.

Lemma render_email_html_raises_iff_unshowable_witness :
  render_email_html sample_env
    [project row_1h; (Some "t", Some "c", Some "l", Some "u",
                      Some (sample_now * 1000))%string]
  = Raise DateRangeError.
Proof.
  apply (render_email_html_raises_iff_unshowable sample_env). reflexivity.
Defined.

(* ------------------------------------------------------------------ *)
(** ** What the phases of a run keep *)

Section Keeps.

Variable P : State -> Prop.

Lemma keeps_ret {A : Type} (a : A) : keeps P (ret a).
Proof. intros st H. exact H. Qed.

Lemma keeps_raise {A : Type} (e : exn) : keeps P (@raise A e).
Proof. intros st H. exact H. Qed.

Lemma keeps_lift {A : Type} (r : result A) : keeps P (lift r).
Proof. intros st H. exact H. Qed.

Lemma keeps_get_state : keeps P get_state.
Proof. intros st H. exact H. Qed.

Lemma keeps_bind {A B : Type} (m : M A) (f : A -> M B) :
  keeps P m -> (forall a, keeps P (f a)) -> keeps P (bind m f).
Proof.
  intros Hm Hf st H. unfold bind. specialize (Hm st H).
  destruct (m st) as [[a | e] st1]; simpl in *; [apply Hf; exact Hm | exact Hm].
Qed.

Lemma keeps_try_except {A : Type} (body : M A) (catches : exn -> bool)
      (handler : exn -> M A) :
  keeps P body -> (forall e, keeps P (handler e)) ->
  keeps P (try_except body catches handler).
Proof.
  intros Hb Hh st H. unfold try_except. specialize (Hb st H).
  destruct (body st) as [[a | e] st1]; simpl in *; [exact Hb |].
  destruct (catches e); [apply Hh; exact Hb | exact Hb].
Qed.

Lemma keeps_for_each {A : Type} (xs : list A) (body : A -> M unit) :
  (forall x, keeps P (body x)) -> keeps P (for_each xs body).
Proof.
  intros Hb. induction xs as [| x xs IH]; simpl.
  - apply keeps_ret.
  - apply keeps_bind; [apply Hb | intros _; exact IH].
Qed.

End Keeps.

(** Ltac for the primitive operations that do not touch the fields a
    property reads. *)
Ltac keeps_same := let st := fresh in let H := fresh in intros st H; exact H.

Lemma process_item_keeps_world (cfg : Config) (env : Env) (item : value)
      (d : Store) (o : list Email) (l : list log_entry) :
  keeps (fun st => db st = d /\ outbox st = o /\ log st = l)
    (process_item cfg env item).
Proof.
  unfold process_item. apply keeps_bind; [apply keeps_lift | intros job].
  repeat match goal with
         | |- keeps _ (if ?b then _ else _) => destruct b
         end; try apply keeps_ret.
  apply keeps_bind.
  - unfold posted_recent. destruct (_ =? 0); [apply keeps_ret |].
    apply keeps_bind; [keeps_same | intros ?].
    apply keeps_bind; [apply keeps_lift | intros ?; apply keeps_ret].
  - intros recent. destruct (negb recent); [apply keeps_ret |].
    unfold append_collected. apply keeps_bind; [apply keeps_get_state |].
    intros ?. keeps_same.
Qed.

Lemma query_page_keeps_store (cfg : Config) (env : Env) (role loc : string)
      (page : Z) (d : Store) (o : list Email) :
  keeps (fun st => db st = d /\ outbox st = o) (query_page cfg env role loc page).
Proof.
  unfold query_page. apply keeps_try_except.
  - apply keeps_bind; [unfold jsearch_query; apply keeps_lift | intros data].
    apply keeps_bind; [apply keeps_lift | intros dv].
    apply keeps_bind; [| intros items].
    { destruct (Py.truthy dv); [apply keeps_ret |].
      apply keeps_bind; [apply keeps_lift | intros ?; apply keeps_ret]. }
    apply keeps_bind; [apply keeps_lift | intros elems].
    apply keeps_for_each. intros item st [Hd Ho].
    destruct (process_item_keeps_world cfg env item d o (log st) st)
      as [H1 [H2 _]]; auto.
  - intros e. destruct (is_HTTPError e); keeps_same.
Qed.

Lemma collect_keeps_store (cfg : Config) (env : Env) (d : Store) (o : list Email) :
  keeps (fun st => db st = d /\ outbox st = o) (collect cfg env).
Proof.
  unfold collect. apply keeps_bind; [keeps_same | intros _].
  apply keeps_for_each. intros role. apply keeps_for_each. intros loc.
  apply keeps_bind; [| intros _; keeps_same].
  apply keeps_for_each. intros page. apply query_page_keeps_store.
Qed.

Lemma dict_set_values (d : list (key * Job.t)) (k : key) (j x : Job.t) :
  In x (List.map snd (dict_set d k j)) -> x = j \/ In x (List.map snd d).
Proof.
  induction d as [| [k' j'] d IH]; simpl.
  - intros [<- | []]. auto.
  - destruct (key_eqb k k'); simpl.
    + intros [<- | H]; auto.
    + intros [<- | H]; auto. destruct (IH H); auto.
Qed.

Lemma dedup_loop_incl (jobs : list Job.t) :
  forall (d unique : list (key * Job.t)),
    dedup_loop jobs d = Ok unique ->
    forall x, In x (List.map snd unique) ->
              In x jobs \/ In x (List.map snd d).
Proof.
  induction jobs as [| j jobs IH]; intros d unique; simpl.
  - intros H. injection H as <-. auto.
  - destruct (dedup_key j) as [k | e]; simpl; [| discriminate].
    intros H x Hx. destruct (IH _ _ H x Hx) as [Hin | Hin]; [auto |].
    destruct (dict_set_values d k j x Hin) as [-> | Hd]; auto.
Qed.

(** What the de-duplication returns was among the collected jobs. *)
Lemma dedup_incl (jobs unique_jobs : list Job.t) :
  dedup jobs = Ok unique_jobs -> forall x, In x unique_jobs -> In x jobs.
Proof.
  unfold dedup. destruct (dedup_loop jobs []) as [u | e] eqn:H; simpl;
    [| discriminate].
  intros E. injection E as <-. intros x Hx.
  destruct (dedup_loop_incl jobs [] u H x Hx) as [Hin | []]. exact Hin.
Qed.

Lemma init_db_state (env : Env) (st : State) : snd (init_db env st) = st.
Proof.
  unfold init_db. destruct (connect env); [reflexivity |].
  unfold bind, get_state. simpl. destruct (indexes_hold (db st)); reflexivity.
Qed.

Lemma persist_effect (env : Env) (st : State) :
  exists added : list Row.t,
    db (snd (persist env st)) = db st ++ added /\
    outbox (snd (persist env st)) = outbox st /\
    Forall (fun r => exists j, In j (collected st) /\ holds_job j r = true) added.
Proof.
  unfold persist, bind, get_state, lift. cbn [fst snd].
  destruct (dedup (collected st)) as [u | e] eqn:Hd.
  - destruct (save_loop_spec env u 0 st) as [added [H1 [H2 [_ [H4 [H5 _]]]]]].
    unfold save_jobs.
    destruct (save_loop env u 0 st) as [[n | e] st1]; simpl in *;
      [| discriminate H1].
    exists added. split; [exact H2 |]. split; [exact H5 |].
    eapply Forall_impl; [| exact H4].
    intros r [j [Hin Hh]]. exists j. split; [| exact Hh].
    revert Hin. apply (dedup_incl (collected st) u Hd).
  - exists []. simpl. rewrite app_nil_r. auto.
Qed.

Lemma send_email_effect (cfg : Config) (env : Env) (subject html : string)
      (st : State) :
  db (snd (send_email cfg env subject html st)) = db st /\
  (outbox (snd (send_email cfg env subject html st)) = outbox st \/
   exists m, outbox (snd (send_email cfg env subject html st)) = outbox st ++ [m] /\
             mail_to m = EMAIL_TO cfg /\ mail_from m = EMAIL_FROM cfg /\
             mail_subject m = subject /\ mail_html m = html /\
             SMTP_HOST cfg <> ""%string).
Proof.
  unfold send_email. destruct (String.eqb_spec (SMTP_HOST cfg) "") as [E | E].
  - simpl. auto.
  - destruct (smtp env _) as [e |]; simpl; [auto |].
    split; [reflexivity |]. right. eexists. split; [reflexivity |]. auto.
Qed.

Lemma digest_effect (cfg : Config) (env : Env) (st : State) :
  db (snd (digest cfg env st)) = db st /\
  (outbox (snd (digest cfg env st)) = outbox st \/
   exists m, outbox (snd (digest cfg env st)) = outbox st ++ [m] /\
             mail_to m = EMAIL_TO cfg /\ mail_from m = EMAIL_FROM cfg /\
             SMTP_HOST cfg <> ""%string).
Proof.
  unfold digest, bind, now, lift. cbn [fst snd].
  destruct (window_start _ _) as [since | e]; [| simpl; auto].
  unfold fetch_unsent_jobs_since, bind, lift, get_state, ret.
  destruct (Sql.bind_int since) as [s1 | e]; [| simpl; auto].
  destruct (Sql.bind_int (MAX_RESULTS_PER_RUN cfg)) as [l1 | e]; [| simpl; auto].
  cbn [fst snd db].
  destruct (select_since _ _ _) as [| r rows]; [simpl; auto |].
  destruct (render_email_html env (r :: rows)) as [html | e]; [| simpl; auto].
  match goal with
  | |- context [send_email cfg env ?sub ?h ?s] =>
      destruct (send_email_effect cfg env sub h s) as [Hd Ho];
      destruct (send_email cfg env sub h s) as [[[] | e] s2]
  end; simpl in *.
  - split; [exact Hd |].
    destruct Ho as [Ho | [m [Ho [H1 [H2 [_ [_ H3]]]]]]]; [auto |].
    right. exists m. auto.
  - split; [exact Hd |].
    destruct Ho as [Ho | [m [Ho [H1 [H2 [_ [_ H3]]]]]]]; [auto |].
    right. exists m. auto.
Qed.

Lemma fetch_and_store_effect (cfg : Config) (env : Env) (st : State) :
  exists added : list Row.t,
    db (snd (fetch_and_store cfg env st)) = db st ++ added /\
    outbox (snd (fetch_and_store cfg env st)) = outbox st.
Proof.
  unfold fetch_and_store, bind.
  pose proof (init_db_state env st) as Hi.
  destruct (init_db env st) as [[[] | e] st1]; simpl in Hi; subst st1;
    [| exists []; simpl; rewrite app_nil_r; auto].
  destruct (collect_keeps_store cfg env (db st) (outbox st) st (conj eq_refl eq_refl))
    as [Hd Ho].
  destruct (collect cfg env st) as [[[] | e] st2]; simpl in *;
    [| exists []; rewrite app_nil_r; auto].
  destruct (persist_effect env st2) as [added [H1 [H2 _]]].
  exists added. rewrite H1, H2, Hd, Ho. auto.
Qed.

(** Property X20.  Whatever happens during a run, the run only appends to
    the store, the store it leaves is the store as persistence left it
    (window query, rendering and mail never write), and it hands at most one
    message to the mail server, addressed from [EMAIL_FROM] to [EMAIL_TO]
    and only when a mail host is configured. *)
Theorem search_and_notify_store_and_outbox :
  forall (cfg : Config) (env : Env) (st : State),
    let final := snd (search_and_notify cfg env st) in
    (exists added, db final = db st ++ added) /\
    db final = db (snd (fetch_and_store cfg env st)) /\
    (outbox final = outbox st \/
     exists m, outbox final = outbox st ++ [m] /\
               mail_to m = EMAIL_TO cfg /\ mail_from m = EMAIL_FROM cfg /\
               SMTP_HOST cfg <> ""%string).
Proof.
  intros cfg env st final.
  destruct (search_and_notify_outcome cfg env st) as [_ [Hdb Hbox]].
  fold final in Hdb, Hbox. rewrite run_body_phases in Hdb, Hbox.
  destruct (fetch_and_store_effect cfg env st) as [added [Hfd Hfo]].
  unfold bind in Hdb, Hbox.
  destruct (fetch_and_store cfg env st) as [[[] | e] st1]; simpl in *.
  - destruct (digest_effect cfg env st1) as [Hd Ho].
    rewrite Hdb, Hbox, Hd. split; [exists added; exact Hfd |].
    split; [reflexivity |]. rewrite <- Hfo. exact Ho.
  - rewrite Hdb, Hbox. split; [exists added; exact Hfd |]. auto.
Qed.







Lemma for_each_ok {A : Type} (xs : list A) (body : A -> M unit) :
  (forall x st, fst (body x st) = Ok tt) ->
  forall st, fst (for_each xs body st) = Ok tt.
Proof.
  intros Hb. induction xs as [| x xs IH]; intros st; simpl; [reflexivity |].
  unfold bind. specialize (Hb x st).
  destruct (body x st) as [[[] | e] st1]; simpl in Hb; [apply IH | discriminate].
Qed.

(** With an HTTP layer that raises [Exception]s only, a page step always
    returns: whatever goes wrong in it is logged as a warning. *)
Lemma query_page_ok (cfg : Config) (env : Env) (role loc : string) (page : Z)
      (st : State) :
  http_raises_exceptions_only env ->
  fst (query_page cfg env role loc page st) = Ok tt.
Proof.
  intros Hhttp. unfold query_page, try_except.
  match goal with
  | |- context [match ?b st with _ => _ end] =>
      assert (Hbody : forall e, fst (b st) = Raise e -> is_Exception e = true);
      [| destruct (b st) as [[[] | e] st1]; simpl in *;
         [reflexivity |
          rewrite (Hbody e eq_refl); destruct (is_HTTPError e); reflexivity]]
  end.
  intros e. unfold jsearch_query, bind, lift.
  destruct (http_get env _ page) as [data | e0] eqn:Hg; simpl;
    [| intros H; injection H as <-; exact (Hhttp _ _ _ Hg)].
  destruct (data_get data "data") as [dv | e0] eqn:Hd; simpl;
    [| destruct data; simpl in Hd; try discriminate;
       injection Hd as <-; intros H; injection H as <-; reflexivity].
  assert (Hiter : forall items e1, Py.iter items = Raise e1 -> e1 = TypeError).
  { intros items e1. destruct items; simpl; congruence. }
  assert (Hloop : forall items st0,
            fst (match Py.iter items with
                 | Ok elems => for_each elems (process_item cfg env) st0
                 | Raise e1 => (Raise e1, st0)
                 end) = Raise e -> is_Exception e = true).
  { intros items st0. destruct (Py.iter items) as [elems | e1] eqn:Hi.
    - intros H. apply process_item_raises_loop in H.
      destruct H as [-> | ->]; reflexivity.
    - simpl. intros H. injection H as <-. apply Hiter in Hi. subst e1.
      reflexivity. }
  destruct (Py.truthy dv).
  - simpl. apply Hloop.
  - destruct (data_get data "jobs") as [jv | e0] eqn:Hj; simpl.
    + apply Hloop.
    + destruct data; simpl in Hj; try discriminate.
Qed.

Lemma query_page_keeps_slept (cfg : Config) (env : Env) (role loc : string)
      (page : Z) (q : Q) :
  keeps (fun st => slept st = q) (query_page cfg env role loc page).
Proof.
  unfold query_page. apply keeps_try_except.
  - apply keeps_bind; [unfold jsearch_query; apply keeps_lift | intros data].
    apply keeps_bind; [apply keeps_lift | intros dv].
    apply keeps_bind; [| intros items].
    { destruct (Py.truthy dv); [apply keeps_ret |].
      apply keeps_bind; [apply keeps_lift | intros ?; apply keeps_ret]. }
    apply keeps_bind; [apply keeps_lift | intros elems].
    apply keeps_for_each. intros item.
    unfold process_item. apply keeps_bind; [apply keeps_lift | intros job].
    repeat match goal with
           | |- keeps _ (if ?b then _ else _) => destruct b
           end; try apply keeps_ret.
    apply keeps_bind.
    + unfold posted_recent. destruct (_ =? 0); [apply keeps_ret |].
      apply keeps_bind; [keeps_same | intros ?].
      apply keeps_bind; [apply keeps_lift | intros ?; apply keeps_ret].
    + intros recent. destruct (negb recent); [apply keeps_ret |].
      unfold append_collected. apply keeps_bind; [apply keeps_get_state |].
      intros ?. keeps_same.
  - intros e. destruct (is_HTTPError e); keeps_same.
Qed.

(** A loop whose every turn returns and adds [q] seconds of sleep. *)
Lemma for_each_sleeps {A : Type} (xs : list A) (body : A -> M unit) (q : Q) :
  (forall x st, fst (body x st) = Ok tt /\
                (slept (snd (body x st)) == slept st + q)%Q) ->
  forall st,
    fst (for_each xs body st) = Ok tt /\
    (slept (snd (for_each xs body st))
     == slept st + q * inject_Z (Z.of_nat (List.length xs)))%Q.
Proof.
  intros Hb. induction xs as [| x xs IH]; intros st.
  - simpl. split; [reflexivity |]. ring.
  - cbn [for_each]. unfold bind. destruct (Hb x st) as [H1 H2].
    destruct (body x st) as [[[] | e] st1]; simpl in H1, H2; [| discriminate].
    destruct (IH st1) as [H3 H4]. split; [exact H3 |].
    rewrite H4, H2. cbn [List.length]. rewrite Nat2Z.inj_succ.
    unfold Z.succ. rewrite inject_Z_plus. ring.
Qed.

(** Property X22.  Failures of single queries do not stop a cycle: when the
    HTTP layer raises nothing but [Exception]s, the collecting phase always
    returns, it leaves store and outbox alone, and it has slept 0.6 s once
    for each pair of a role and a location. *)
Theorem collect_isolates_query_failures :
  forall (cfg : Config) (env : Env) (st : State),
    http_raises_exceptions_only env ->
    fst (collect cfg env st) = Ok tt /\
    db (snd (collect cfg env st)) = db st /\
    outbox (snd (collect cfg env st)) = outbox st /\
    (slept (snd (collect cfg env st)) == slept st + polite_pause cfg)%Q.
Proof.
  intros cfg env st Hhttp.
  destruct (collect_keeps_store cfg env (db st) (outbox st) st
              (conj eq_refl eq_refl)) as [Hd Ho].
  split; [| split; [exact Hd | split; [exact Ho |]]];
    unfold collect; unfold bind at 1; cbn [set_collected].
  - apply for_each_ok. intros role s1. apply for_each_ok. intros loc s2.
    unfold bind.
    pose proof (for_each_ok (pages cfg) (query_page cfg env role loc)
                  (fun p s => query_page_ok cfg env role loc p s Hhttp) s2) as Hp.
    destruct (for_each (pages cfg) (query_page cfg env role loc) s2)
      as [[[] | e] s3]; simpl in Hp; [reflexivity | discriminate].
  - assert (Hloc : forall role loc s2,
              fst (bind (for_each (pages cfg) (query_page cfg env role loc))
                     (fun _ => sleep (6 # 10)) s2) = Ok tt /\
              (slept (snd (bind (for_each (pages cfg) (query_page cfg env role loc))
                             (fun _ => sleep (6 # 10)) s2))
               == slept s2 + (6 # 10))%Q).
    { intros role loc s2. unfold bind.
      pose proof (for_each_ok (pages cfg) (query_page cfg env role loc)
                    (fun p s => query_page_ok cfg env role loc p s Hhttp) s2) as Hp.
      pose proof (keeps_for_each (fun s => slept s = slept s2) (pages cfg)
                    (query_page cfg env role loc)
                    (fun p => query_page_keeps_slept cfg env role loc p (slept s2))
                    s2 eq_refl) as Hs.
      destruct (for_each (pages cfg) (query_page cfg env role loc) s2)
        as [[[] | e] s3]; simpl in *; [| discriminate].
      split; [reflexivity |]. rewrite Hs. reflexivity. }
    pose proof (for_each_sleeps (ROLE_KEYWORDS cfg)
                  (fun role => for_each (locations cfg) (fun loc =>
                     bind (for_each (pages cfg) (query_page cfg env role loc))
                       (fun _ => sleep (6 # 10))))
                  ((6 # 10) * inject_Z (Z.of_nat (List.length (locations cfg))))
                  (fun role s1 => for_each_sleeps (locations cfg) _ (6 # 10)
                                    (Hloc role) s1)) as Hall.
    match goal with
    | |- (slept (snd (_ ?s0)) == _)%Q => destruct (Hall s0) as [_ Hq]
    end.
    rewrite Hq. cbn [slept]. unfold polite_pause.
    rewrite Nat2Z.inj_mul, inject_Z_mult. ring.
Qed.

Lemma collect_isolates_query_failures_witness :
  fst (collect default_config offline_env empty_state) = Ok tt /\
  (slept (snd (collect default_config offline_env empty_state))
   == slept empty_state + polite_pause default_config)%Q.
Proof.
  assert (H : http_raises_exceptions_only offline_env).
  { intros q page e E. simpl in E. injection E as <-. reflexivity. }
  destruct (collect_isolates_query_failures default_config offline_env
              empty_state H) as [H1 [_ [_ H4]]].
  split; [exact H1 | exact H4].
Defined.

(** Property X23.  With [PAGES_PER_QUERY] at 0 or below no query is made:
    whatever the provider would answer, the collecting phase returns with
    an empty list, logs nothing, reads no clock and leaves the store
    alone. *)
Theorem collect_without_pages :
  forall (cfg : Config) (env : Env) (st : State),
    PAGES_PER_QUERY cfg <= 0 ->
    fst (collect cfg env st) = Ok tt /\
    collected (snd (collect cfg env st)) = [] /\
    log (snd (collect cfg env st)) = log st /\
    ticks (snd (collect cfg env st)) = ticks st /\
    db (snd (collect cfg env st)) = db st.
Proof.
  intros cfg env st Hp.
  assert (Hpages : pages cfg = []).
  { unfold pages. destruct (PAGES_PER_QUERY cfg); try lia; reflexivity. }
  unfold collect. unfold bind at 1. cbn [set_collected]. rewrite Hpages.
  match goal with
  | |- fst (?m ?s) = _ /\ _ =>
      assert (Hok : forall s0, fst (m s0) = Ok tt);
      [| assert (K : keeps (fun s0 => collected s0 = [] /\ log s0 = log st /\
                                      ticks s0 = ticks st /\ db s0 = db st) m);
         [| split; [apply Hok | apply K; auto]]]
  end.
  - apply for_each_ok. intros role s1. apply for_each_ok. intros loc s2.
    reflexivity.
  - apply keeps_for_each. intros role. apply keeps_for_each. intros loc.
    intros s H. exact H.
Qed.

Lemma collect_without_pages_witness :
  collected (snd (collect no_pages_config pune_env seen_state)) = [] /\
  log (snd (collect no_pages_config pune_env seen_state)) = [].
Proof.
  assert (H : PAGES_PER_QUERY no_pages_config <= 0) by (cbn; lia).
  destruct (collect_without_pages no_pages_config pune_env seen_state H)
    as [_ [H2 [H3 _]]].
  split; [exact H2 | exact H3].
Defined.

Lemma existsb_eqb_In (x : string) (l : list string) :
  existsb (String.eqb x) l = true <-> In x l.
Proof.
  rewrite existsb_exists. split.
  - intros [y [Hy E]]. apply String.eqb_eq in E. subst. exact Hy.
  - intros H. exists x. split; [exact H | apply String.eqb_refl].
Qed.

(** Property X24.  The locations queried are the configured ones, in
    order, with "Remote" added at the end when remote jobs are included and
    the list does not have it (compared as written, case and all); so
    "Remote" is queried whenever remote jobs are included, and a list
    without repetitions stays without. *)
Theorem locations_adds_remote_once :
  forall cfg : Config,
    (exists extra, locations cfg = LOCATIONS cfg ++ extra /\
                   (extra = [] \/ extra = ["Remote"%string])) /\
    (INCLUDE_REMOTE cfg = true -> In "Remote"%string (locations cfg)) /\
    (INCLUDE_REMOTE cfg = false -> locations cfg = LOCATIONS cfg) /\
    (NoDup (LOCATIONS cfg) -> NoDup (locations cfg)).
Proof.
  intros cfg. unfold locations.
  destruct (INCLUDE_REMOTE cfg); cbn [andb].
  - destruct (existsb (String.eqb "Remote") (LOCATIONS cfg)) eqn:E; cbn [negb].
    + apply existsb_eqb_In in E.
      split; [exists []; rewrite app_nil_r; auto |].
      split; [intros _; exact E |]. split; [discriminate | auto].
    + assert (Hn : ~ In "Remote"%string (LOCATIONS cfg)).
      { intros H. apply existsb_eqb_In in H. congruence. }
      split; [exists ["Remote"%string]; auto |].
      split; [intros _; apply in_or_app; right; left; reflexivity |].
      split; [discriminate |].
      intros Hnd. apply NoDup_app; [exact Hnd | repeat constructor; intros [] |].
      intros x Hx [<- | []]. contradiction.
  - split; [exists []; rewrite app_nil_r; auto |].
    split; [discriminate |]. split; auto.
Qed.

Lemma locations_adds_remote_once_witness :
  In "Remote"%string (locations default_config) /\
  NoDup (locations default_config).
Proof.
  destruct (locations_adds_remote_once default_config) as [_ [H1 [_ H2]]].
  split; [apply H1; reflexivity |].
  apply H2. cbn.
  repeat (constructor;
          [cbn; intros H;
           repeat (destruct H as [H | H]; [discriminate H |]); exact H |]).
  constructor.
Defined.

(* ------------------------------------------------------------------ *)
(** ** The digest window and the rows of the same run *)

Lemma trunc_nonneg (q : Q) : 0 <= Qnum q -> trunc q = Qfloor q.
Proof.
  intros H. unfold trunc, Qfloor. destruct q as [n d]. simpl in *.
  apply Z.quot_div_nonneg; lia.
Qed.

Lemma trunc_nonpos (q : Q) : Qnum q <= 0 -> trunc q = Qceiling q.
Proof.
  intros H. unfold trunc, Qceiling, Qfloor. destruct q as [n d]. simpl in *.
  rewrite <- (Z.opp_involutive n) at 1. rewrite Z.quot_opp_l by lia.
  f_equal. apply Z.quot_div_nonneg; lia.
Qed.

Lemma trunc_le (q1 q2 : Q) : (q1 <= q2)%Q -> trunc q1 <= trunc q2.
Proof.
  intros H.
  destruct (Z_lt_le_dec (Qnum q1) 0) as [N1 | N1],
           (Z_lt_le_dec (Qnum q2) 0) as [N2 | N2].
  - rewrite !trunc_nonpos by lia. apply Qceiling_resp_le. exact H.
  - rewrite trunc_nonpos by lia. rewrite trunc_nonneg by lia.
    assert (A : Qceiling q1 <= 0).
    { replace 0 with (Qceiling 0) by reflexivity. apply Qceiling_resp_le.
      unfold Qle. simpl. lia. }
    assert (B : 0 <= Qfloor q2).
    { replace 0 with (Qfloor 0) by reflexivity. apply Qfloor_resp_le.
      unfold Qle. simpl. lia. }
    lia.
  - exfalso. unfold Qle in H.
    assert (0 <= Qnum q1 * Z.pos (Qden q2)) by (apply Z.mul_nonneg_nonneg; lia).
    assert (Qnum q2 * Z.pos (Qden q1) < 0) by (apply Z.mul_neg_pos; lia).
    lia.
  - rewrite !trunc_nonneg by lia. apply Qfloor_resp_le. exact H.
Qed.

(** Property X25.  A row inserted at clock reading [now_insert] falls in
    the window computed at reading [now_digest] whenever [now_digest] minus
    the run interval is not after [now_insert]; so with an interval that is
    not negative, a row inserted at the reading the window is computed from
    is always inside it. *)
Theorem window_covers_rows_of_the_run :
  forall (now_insert now_digest hours : Q) (since_ts : Z) (j : Job.t)
         (u : option string) (posted : Z),
    window_start now_digest hours = Ok since_ts ->
    ((now_digest - hours * 3600 <= now_insert)%Q ->
     created_since since_ts (row_of_job j u posted (trunc now_insert)) = true) /\
    ((0 <= hours)%Q ->
     created_since since_ts (row_of_job j u posted (trunc now_digest)) = true).
Proof.
  intros now_insert now_digest hours since_ts j u posted Hw.
  assert (Hs : since_ts = trunc (now_digest - hours * 3600)%Q).
  { unfold window_start in Hw.
    destruct (_ && _)%bool; [congruence | discriminate]. }
  assert (Hcov : forall q, (now_digest - hours * 3600 <= q)%Q ->
            created_since since_ts (row_of_job j u posted (trunc q)) = true).
  { intros q Hq. unfold created_since, row_of_job, Sql.ge. cbn.
    apply Z.leb_le. subst since_ts. apply trunc_le. exact Hq. }
  split; [apply Hcov |].
  intros Hh. apply Hcov.
  apply Qle_minus_iff.
  setoid_replace (now_digest + - (now_digest - hours * 3600))%Q
    with (hours * 3600)%Q by ring.
  apply Qmult_le_0_compat; [exact Hh | discriminate].
Qed.

Lemma window_covers_rows_of_the_run_witness :
  created_since (sample_now - 7200)
    (row_of_job sample_job (Some "u"%string) 0 (trunc (inject_Z sample_now)))
  = true.
Proof.
  destruct (window_covers_rows_of_the_run (inject_Z sample_now)
              (inject_Z sample_now) (2 # 1) (sample_now - 7200) sample_job
              (Some "u"%string) 0 eq_refl) as [_ H].
  apply H. discriminate.
Defined.

(** Property X26.  One selected record whose posting time [fmt_time] cannot
    show blocks the digest of every record in the window: the digest phase
    raises, no message is sent, and the store is as it was. *)
Theorem unshowable_row_blocks_digest :
  forall (cfg : Config) (env : Env) (st : State) (since_ts : Z),
    window_start (clock env (ticks st)) (RUN_EVERY_HOURS cfg) = Ok since_ts ->
    Sql.int64 (MAX_RESULTS_PER_RUN cfg) = true ->
    forallb (fun r => showable (row_time r))
      (select_since (db st) since_ts (MAX_RESULTS_PER_RUN cfg)) = false ->
    fst (digest cfg env st) = Raise DateRangeError /\
    outbox (snd (digest cfg env st)) = outbox st /\
    db (snd (digest cfg env st)) = db st /\
    log (snd (digest cfg env st)) = log st.
Proof.
  intros cfg env st since_ts Hw Hl Hbad.
  assert (Hs64 : Sql.int64 since_ts = true).
  { unfold window_start in Hw.
    destruct (Qle_bool (inject_Z Datetime.min_ts) _) eqn:E1; [| discriminate].
    destruct (Qle_bool (inject_Z Datetime.end_ts) _) eqn:E2; [discriminate |].
    simpl in Hw. injection Hw as <-.
    apply Qle_bool_iff in E1. apply trunc_le in E1.
    rewrite trunc_inject_Z in E1.
    assert (E3 : (clock env (ticks st) - RUN_EVERY_HOURS cfg * 3600
                  <= inject_Z Datetime.end_ts)%Q).
    { apply Qnot_lt_le. intros Hlt. apply Qlt_le_weak in Hlt.
      apply Qle_bool_iff in Hlt. congruence. }
    apply trunc_le in E3. rewrite trunc_inject_Z in E3.
    unfold Sql.int64, Datetime.min_ts, Datetime.end_ts in *.
    apply andb_true_intro. split; [apply Z.leb_le | apply Z.ltb_lt]; lia. }
  unfold digest, bind, now, lift. cbn [fst snd ticks]. rewrite Hw.
  unfold fetch_unsent_jobs_since, bind, lift, get_state, ret, Sql.bind_int.
  rewrite Hs64, Hl. cbn [fst snd db].
  destruct (select_since (db st) since_ts (MAX_RESULTS_PER_RUN cfg))
    as [| r rows] eqn:Hsel; [discriminate Hbad |].
  destruct (render_rows_showable (r :: rows)) as [_ Hr].
  unfold render_email_html. rewrite (Hr Hbad). simpl. auto.
Qed.

Lemma unshowable_row_blocks_digest_witness :
  fst (digest default_config sample_env millis_state) = Raise DateRangeError /\
  outbox (snd (digest default_config sample_env millis_state)) = [].
Proof.
  destruct (unshowable_row_blocks_digest default_config sample_env millis_state
              (sample_now - 7200) eq_refl eq_refl eq_refl) as [H1 [H2 _]].
  split; [exact H1 | exact H2].
Defined.

(* ------------------------------------------------------------------ *)
(** ** The digest keeps no record of what it sent *)

(** The digest phase reads the store and one clock reading; what it sends
    depends on nothing else of the state. *)
Lemma digest_depends_on_store_and_clock (cfg : Config) (env : Env) (st st' : State) :
  db st = db st' -> clock env (ticks st) = clock env (ticks st') ->
  fst (digest cfg env st) = fst (digest cfg env st') /\
  exists sent : list Email,
    outbox (snd (digest cfg env st)) = outbox st ++ sent /\
    outbox (snd (digest cfg env st')) = outbox st' ++ sent.
Proof.
  intros Hdb Hclock. unfold digest, bind, now, lift. cbn [fst snd].
  rewrite Hclock.
  destruct (window_start _ _) as [since | e];
    [| simpl; split; [reflexivity | exists []; rewrite !app_nil_r; auto]].
  unfold fetch_unsent_jobs_since, bind, lift, get_state, ret.
  destruct (Sql.bind_int since) as [s1 | e];
    [| simpl; split; [reflexivity | exists []; rewrite !app_nil_r; auto]].
  destruct (Sql.bind_int (MAX_RESULTS_PER_RUN cfg)) as [l1 | e];
    [| simpl; split; [reflexivity | exists []; rewrite !app_nil_r; auto]].
  cbn [fst snd db]. rewrite Hdb.
  destruct (select_since (db st') s1 l1) as [| r rows];
    [simpl; split; [reflexivity | exists []; rewrite !app_nil_r; auto] |].
  destruct (render_email_html env (r :: rows)) as [html | e];
    [| simpl; split; [reflexivity | exists []; rewrite !app_nil_r; auto]].
  unfold send_email. destruct (String.eqb (SMTP_HOST cfg) "").
  - simpl. split; [reflexivity | exists []; rewrite !app_nil_r; auto].
  - destruct (smtp env _) as [e |]; simpl.
    + split; [reflexivity | exists []; rewrite !app_nil_r; auto].
    + split; [reflexivity |]. eexists. split; reflexivity.
Qed.

(** Property X27.  The digest keeps no record of what it has sent: run
    again on the state it left, at an equal clock reading, the digest phase
    ends the same way and sends the same messages once more. *)
Theorem digest_sends_again :
  forall (cfg : Config) (env : Env) (st : State),
    clock env (S (ticks st)) = clock env (ticks st) ->
    let first := digest cfg env st in
    let second := digest cfg env (snd first) in
    fst second = fst first /\
    exists sent : list Email,
      outbox (snd first) = outbox st ++ sent /\
      outbox (snd second) = outbox st ++ sent ++ sent.
Proof.
  intros cfg env st Hclock first second.
  assert (Hticks : ticks (snd first) = S (ticks st)).
  { subst first. unfold digest, bind, now, lift. cbn [fst snd].
    destruct (window_start _ _) as [since | e]; [| reflexivity].
    unfold fetch_unsent_jobs_since, bind, lift, get_state, ret.
    destruct (Sql.bind_int since) as [s1 | e]; [| reflexivity].
    destruct (Sql.bind_int (MAX_RESULTS_PER_RUN cfg)) as [l1 | e]; [| reflexivity].
    cbn [fst snd db].
    destruct (select_since _ s1 l1) as [| r rows]; [reflexivity |].
    destruct (render_email_html env (r :: rows)) as [html | e]; [| reflexivity].
    unfold send_email. destruct (String.eqb (SMTP_HOST cfg) ""); [reflexivity |].
    destruct (smtp env _); reflexivity. }
  destruct (digest_effect cfg env st) as [Hdb _]. fold first in Hdb.
  destruct (digest_depends_on_store_and_clock cfg env (snd first) st Hdb)
    as [Hres [sent [H2 H1]]].
  { rewrite Hticks. exact Hclock. }
  fold first in H1. fold second in H2, Hres.
  split; [exact Hres |]. exists sent. split; [exact H1 |].
  rewrite H2, H1, <- app_assoc. reflexivity.
Qed.

Lemma digest_sends_again_witness :
  List.length
    (outbox (snd (digest mail_config sample_env
                    (snd (digest mail_config sample_env window_state)))))
  = 2%nat.
Proof.
  destruct (digest_sends_again mail_config sample_env window_state eq_refl)
    as [_ [sent [H1 H2]]].
  cbv zeta in H2. rewrite H2.
  change (outbox window_state ++ sent) with sent in H1. rewrite <- H1.
  vm_compute. reflexivity.
Defined.

(* ------------------------------------------------------------------ *)
(** ** The experience patterns on numbers *)

Lemma search_from_skip (r : Re.regex) (a : string) (c : ascii) (rest : string) :
  forall prev,
    Re.match_here r (Some c) rest = true ->
    Re.search_from r prev (a ++ String c rest)%string = true.
Proof.
  induction a as [| x a IH]; intros prev H.
  - change ("" ++ String c rest)%string with (String c rest).
    cbn [Re.search_from].
    assert (Hs : Re.search_from r (Some c) rest = true).
    { destruct rest; cbn [Re.search_from]; rewrite H; reflexivity. }
    rewrite Hs. apply orb_true_r.
  - change (String x a ++ String c rest)%string
      with (String x (a ++ String c rest)%string).
    cbn [Re.search_from]. rewrite (IH (Some x) H). apply orb_true_r.
Qed.

Lemma zero_years_match (c : ascii) (post : string) :
  Text.is_word c = false -> Re.word_after post = false ->
  Re.match_here Patterns.p_0_plus_years (Some c) ("0 years" ++ post)%string = true.
Proof.
  intros Hc Hp. unfold Re.match_here, Patterns.p_0_plus_years.
  cbn. unfold Re.at_boundary. cbn. rewrite Hc. cbn.
  destruct post as [| d post]; cbn in *; [reflexivity |].
  change (Text.is_word "0") with true.
  change (Text.is_space " ") with true.
  rewrite Nat.leb_refl.
  change (Text.is_word "s") with true.
  rewrite Hp. reflexivity.
Qed.

Lemma separator_not_word (c : ascii) :
  separator c = true -> Text.is_word c = false.
Proof.
  unfold separator. intros H. apply andb_true_iff in H. destruct H as [_ H].
  destruct (Text.is_word c); [discriminate | reflexivity].
Qed.

Lemma separator_lower (c : ascii) :
  separator c = true -> Text.lower_char c = c.
Proof.
  intros H. apply separator_not_word in H. unfold Text.lower_char.
  unfold Text.is_word in H.
  destruct (Text.is_upper c); [discriminate | reflexivity].
Qed.

Lemma word_ends_at_lower (s : string) :
  word_ends_at s = true -> Re.word_after (Text.lower s) = false.
Proof.
  destruct s as [| d s]; intros H; [reflexivity |].
  cbn [word_ends_at] in H. cbn [Text.lower Re.word_after].
  rewrite (separator_lower d H). apply separator_not_word, H.
Qed.

(** Property X28.  [experience_ok] accepts every text in which "0 years"
    stands between two separators, whatever the experience keywords are:
    the pattern [\b 0 \+? \s* years? \b] only asks for a word boundary
    before the digit, so the "0" of a decimal such as "5.0 years" counts as
    zero years of experience. *)
Theorem experience_ok_zero_after_separator
        (cfg : Config) (pre post : string) (c : ascii) :
  separator c = true ->
  word_ends_at post = true ->
  experience_ok cfg (pre ++ String c ("0 years" ++ post))%string = true.
Proof.
  intros Hc Hp. unfold experience_ok.
  destruct (contains_any _ _); [reflexivity |]. cbv zeta.
  apply existsb_exists. exists Patterns.p_0_plus_years. split.
  { unfold Patterns.patterns.
    repeat (first [left; reflexivity | right]). }
  rewrite lower_append.
  change (Text.lower (String c ("0 years" ++ post)%string))
    with (String (Text.lower_char c) ("0 years" ++ Text.lower post)%string).
  rewrite (separator_lower c Hc).
  unfold Re.search. apply search_from_skip.
  apply zero_years_match;
    [apply separator_not_word, Hc | apply word_ends_at_lower, Hp].
Qed.

Lemma experience_ok_zero_after_separator_witness :
  separator "." = true /\
  word_ends_at " of experience" = true /\
  experience_ok default_config
    ("requires 5" ++ String "." ("0 years" ++ " of experience"))%string = true.
Proof.
  assert (H1 : separator "." = true) by reflexivity.
  assert (H2 : word_ends_at " of experience" = true) by reflexivity.
  split; [exact H1 |]. split; [exact H2 |].
  exact (experience_ok_zero_after_separator default_config
           "requires 5" " of experience" "." H1 H2).
Defined.
